(** * Lazy Beanstalk: deployment (ship.py) and OIDC shield (shield.py)

    A shallow embedding of [deployment/modules/ship.py] and
    [deployment/modules/shield.py].

    - Python strings are [string]; text helpers ([startswith], [split], ...)
      follow the [str] methods the source calls.
    - [os.environ] is a [gmap string string].
    - Every call that leaves the two modules (the SDK clients, the [common],
      [support] and [setup] helpers, [print], the logger, [getpass]) is a
      [call]; a function of the source is a [prog], a tree of such calls.
      A [handler] answers the calls; [run] threads its state and records the
      trace of calls with their outcomes.  Python exceptions are [exn]. *)

From Stdlib Require Import Ascii String.
From stdpp Require Import gmap strings list pretty.

Open Scope string_scope.
Open Scope list_scope.

(** ** Python string methods *)

Module Py.

Definition eqb_ascii (a b : ascii) : bool := Ascii.eqb a b.

(** [s.startswith(p)] *)
Fixpoint startswith (p s : string) : bool :=
  match p, s with
  | EmptyString, _ => true
  | String a p', String b s' => eqb_ascii a b && startswith p' s'
  | String _ _, EmptyString => false
  end.

Fixpoint rev_onto (s acc : string) : string :=
  match s with
  | EmptyString => acc
  | String a s' => rev_onto s' (String a acc)
  end.

Definition rev (s : string) : string := rev_onto s EmptyString.

(** [s.endswith(p)] *)
Definition endswith (p s : string) : bool := startswith (rev p) (rev s).

(** [sub in s] *)
Fixpoint contains (sub s : string) : bool :=
  startswith sub s ||
  match s with
  | EmptyString => false
  | String _ s' => contains sub s'
  end.

(** [s.split(sep)] for a non-empty separator: cut at every occurrence found
    scanning from the left, occurrences do not overlap.  [skip] counts the
    characters of a separator still to be dropped, [cur] is the piece being
    read, reversed. *)
Fixpoint split_go (sep s : string) (skip : nat) (cur : string) : list string :=
  match s with
  | EmptyString => [rev cur]
  | String a s' =>
      match skip with
      | S n => split_go sep s' n cur
      | O =>
          if startswith sep s
          then rev cur :: split_go sep s' (String.length sep - 1) EmptyString
          else split_go sep s' 0 (String a cur)
      end
  end.

Definition split (sep s : string) : list string := split_go sep s 0 EmptyString.

(** Characters [str.strip()] removes: the ASCII white space of [str.isspace]. *)
Definition isspace (a : ascii) : bool :=
  let n := nat_of_ascii a in
  ((9 <=? n)%nat && (n <=? 13)%nat) || ((28 <=? n)%nat && (n <=? 32)%nat).

Fixpoint lstrip (s : string) : string :=
  match s with
  | String a s' => if isspace a then lstrip s' else s
  | EmptyString => EmptyString
  end.

(** [s.strip()] *)
Definition strip (s : string) : string := rev (lstrip (rev (lstrip s))).

Definition lower_ascii (a : ascii) : ascii :=
  let n := nat_of_ascii a in
  if (65 <=? n)%nat && (n <=? 90)%nat then ascii_of_nat (n + 32) else a.

(** [s.lower()] on ASCII text *)
Fixpoint lower (s : string) : string :=
  match s with
  | EmptyString => EmptyString
  | String a s' => String (lower_ascii a) (lower s')
  end.

(** [s.replace(old, new)] for a one-character [old] *)
Fixpoint replace_char (old : ascii) (new s : string) : string :=
  match s with
  | EmptyString => EmptyString
  | String a s' =>
      if eqb_ascii a old then new +:+ replace_char old new s'
      else String a (replace_char old new s')
  end.

(** Truth value of a string: empty is false. *)
Definition truthy (s : string) : bool :=
  match s with EmptyString => false | _ => true end.

(** [s[1:]] *)
Definition tail (s : string) : string :=
  match s with EmptyString => EmptyString | String _ s' => s' end.

End Py.

(** ** [fnmatch.fnmatch] on a POSIX host

    [os.path.normcase] is the identity there; the pattern language is that of
    [fnmatch.translate]: [*] any run of characters (also [/]), [?] one
    character, [[seq]] and [[!seq]] character sets with [a-b] ranges, and a
    [[] without a closing bracket stands for itself. *)

Module Fnmatch.

Inductive tok : Type :=
| TStar
| TAny
| TLit (c : ascii)
| TClass (negated : bool) (items : list (ascii * ascii)).

(** The members of a set: [x-y] is a range, any other character stands for
    itself (so a [-] first or last, or right after a range, is a plain
    character). *)
Fixpoint class_items (s : string) : list (ascii * ascii) :=
  match s with
  | EmptyString => []
  | String x s1 =>
      match s1 with
      | String d (String y rest) =>
          if Py.eqb_ascii d "-" then (x, y) :: class_items rest
          else (x, x) :: class_items s1
      | _ => (x, x) :: class_items s1
      end
  end.

Definition in_range (c : ascii) (r : ascii * ascii) : bool :=
  (nat_of_ascii (fst r) <=? nat_of_ascii c)%nat &&
  (nat_of_ascii c <=? nat_of_ascii (snd r))%nat.

Definition in_class (negated : bool) (items : list (ascii * ascii)) (c : ascii) : bool :=
  xorb negated (existsb (in_range c) items).

(** Where a set opened by [[] ends: after an optional [!] and an optional
    first []], at the next []].  Gives the negation flag, the members and the
    rest of the pattern, or [None] when the bracket is never closed. *)
Fixpoint until_rbracket (s acc : string) : option (string * string) :=
  match s with
  | EmptyString => None
  | String a s' =>
      if Py.eqb_ascii a "]" then Some (Py.rev acc, s')
      else until_rbracket s' (String a acc)
  end.

Definition class_body (s : string) : option (bool * string * string) :=
  let '(negated, s1) :=
    match s with
    | String a s' => if Py.eqb_ascii a "!" then (true, s') else (false, s)
    | EmptyString => (false, s)
    end in
  let found :=
    match s1 with
    | String a s' =>
        if Py.eqb_ascii a "]" then until_rbracket s' (String a EmptyString)
        else until_rbracket s1 EmptyString
    | EmptyString => None
    end in
  match found with
  | Some (stuff, rest) => Some (negated, stuff, rest)
  | None => None
  end.

(** [fnmatch.translate], to tokens.  The fuel is the length of the pattern,
    which bounds the number of tokens. *)
Fixpoint translate_go (fuel : nat) (pat : string) : list tok :=
  match fuel with
  | O => []
  | S fuel' =>
      match pat with
      | EmptyString => []
      | String c pat' =>
          if Py.eqb_ascii c "*" then TStar :: translate_go fuel' pat'
          else if Py.eqb_ascii c "?" then TAny :: translate_go fuel' pat'
          else if Py.eqb_ascii c "[" then
            match class_body pat' with
            | Some (negated, stuff, rest) =>
                TClass negated (class_items stuff) :: translate_go fuel' rest
            | None => TLit c :: translate_go fuel' pat'
            end
          else TLit c :: translate_go fuel' pat'
      end
  end.

Definition translate (pat : string) : list tok :=
  translate_go (String.length pat) pat.

(** Does the whole of [s] match the tokens? *)
Fixpoint matches (p : list tok) (s : string) {struct p} : bool :=
  match p with
  | [] => negb (Py.truthy s)
  | TStar :: p' =>
      (fix star (s : string) : bool :=
         matches p' s ||
         match s with
         | EmptyString => false
         | String _ s' => star s'
         end) s
  | TAny :: p' =>
      match s with
      | String _ s' => matches p' s'
      | EmptyString => false
      end
  | TLit c :: p' =>
      match s with
      | String a s' => Py.eqb_ascii a c && matches p' s'
      | EmptyString => false
      end
  | TClass negated items :: p' =>
      match s with
      | String a s' => in_class negated items a && matches p' s'
      | EmptyString => false
      end
  end.

(** [fnmatch.fnmatch(name, pat)] *)
Definition fnmatch (name pat : string) : bool := matches (translate pat) name.

End Fnmatch.

(** ** ship.py: [create_app_bundle] *)

Module Bundle.

(** Lines 31-41: the patterns and the negated patterns of [.ebignore], in file
    order.  [lines] are the lines of the file as iteration over it yields
    them. *)
Fixpoint parse_ebignore (lines : list string) : list string * list string :=
  match lines with
  | [] => ([], [])
  | line :: rest =>
      let '(patterns, negated_patterns) := parse_ebignore rest in
      let line := Py.strip line in
      if Py.truthy line && negb (Py.startswith "#" line) then
        if Py.startswith "!" line
        then (patterns, Py.tail line :: negated_patterns)
        else (line :: patterns, negated_patterns)
      else (patterns, negated_patterns)
  end.

(** Lines 57-78: the loop over the exclusion patterns; [true] is the [break]
    with [excluded = True]. *)
Fixpoint is_excluded (patterns : list string) (rel_path_normalized : string) : bool :=
  match patterns with
  | [] => false
  | pattern :: rest =>
      let pattern := if Py.endswith "/" pattern then pattern +:+ "**" else pattern in
      if negb (Py.contains "/" pattern) && Py.contains "/" rel_path_normalized then
        let dirs := Py.split "/" rel_path_normalized in
        if existsb (fun d => Fnmatch.fnmatch d pattern) dirs then true
        else is_excluded rest rel_path_normalized
      else if Fnmatch.fnmatch rel_path_normalized pattern then true
      else if Py.contains "**" pattern then
        let parts := Py.split "**" pattern in
        if (Py.startswith "**" pattern &&
            Py.endswith (nth 1 parts "") rel_path_normalized) ||
           (Py.endswith "**" pattern &&
            Py.startswith (nth 0 parts "") rel_path_normalized)
        then true
        else is_excluded rest rel_path_normalized
      else is_excluded rest rel_path_normalized
  end.

(** Lines 81-85: a negated pattern re-includes an excluded file. *)
Definition is_reincluded (negated_patterns : list string) (rel_path_normalized : string) : bool :=
  existsb (fun pattern => Fnmatch.fnmatch rel_path_normalized pattern) negated_patterns.

(** Lines 50-90 for one file: is it written to the archive?  On a POSIX host
    [os.sep] is [/] and [rel_path_normalized] is [rel_path]. *)
Definition bundled (patterns negated_patterns : list string) (rel_path : string) : bool :=
  let rel_path_normalized := rel_path in
  let excluded := is_excluded patterns rel_path_normalized in
  let excluded :=
    if excluded then negb (is_reincluded negated_patterns rel_path_normalized)
    else excluded in
  negb excluded && negb (String.eqb rel_path ".ebignore").

(** [create_app_bundle]: [ebignore] is the content of the ignore file ([None]
    when there is none), [files] the relative paths of the files [os.walk]
    finds, in its order.  The result lists the members of the archive in the
    order they are written; [file_count] is its length. *)
Definition create_app_bundle (ebignore : option (list string)) (files : list string) : list string :=
  let '(patterns, negated_patterns) :=
    match ebignore with
    | Some lines => parse_ebignore lines
    | None => ([], [])
    end in
  List.filter (bundled patterns negated_patterns) files.

End Bundle.

(** ** Data of the platform's API (the fields the source reads or writes) *)

Record EnvironmentDescription := { EnvironmentName : string; EnvStatus : string }.

Record ApplicationVersion := { VersionLabel : string; Status : string }.

Record OptionSetting := { Namespace : string; OptionName : string; Value : string }.

Record Tag := { Key : string; TagValue : string }.

Record TagDescription := { Tags : list Tag }.

Record LoadBalancer := { LoadBalancerArn : string; LbType : string }.

Record AuthenticateOidcConfig := {
  Issuer : string;
  AuthorizationEndpoint : string;
  TokenEndpoint : string;
  UserInfoEndpoint : string;
  ClientId : string;
  ClientSecret : option string;
  SessionCookieName : string;
  SessionTimeout : Z;
  Scope : string;
  OnUnauthenticatedRequest : string }.

Record FixedResponseConfig := { MessageBody : string; StatusCode : string; ContentType : string }.

Record RedirectConfig := { Protocol : string; RedirectPort : string; RedirectStatusCode : string }.

(** An action dictionary: ["Type"] and the keys that go with it. *)
Record Action := {
  ActionType : string;
  Order : option Z;
  OidcConfig : option AuthenticateOidcConfig;
  TargetGroupArn : option string;
  FixedResponse : option FixedResponseConfig;
  Redirect : option RedirectConfig }.

Record Condition := { Field : string; Values : list string }.

(** A rule as [describe_rules] lists it; the default rule has no numeric
    priority. *)
Record Rule := {
  RuleArn : string;
  Priority : option Z;
  Conditions : list Condition;
  Actions : list Action;
  IsDefault : option bool }.

(** A listener as [describe_listeners] lists it; [Certificates] holds the
    [CertificateArn] of each entry. *)
Record Listener := {
  ListenerArn : string;
  ListenerLoadBalancerArn : string;
  Port : Z;
  Certificates : list string }.

Record TargetGroup := { TargetGroupArn_ : string }.

Record Certificate := { DomainName : string }.

(** The snapshot [common.preserve_https_config] takes: the rules read from the
    HTTPS listener.  Empty is false, as for any Python container. *)
Abbreviation HttpsConfig := (list Rule).

(** ** The configuration document *)

(** The ["oidc"] section with its two inner mappings, as the configuration
    document has them: any key may be missing, and reading a key that is
    missing raises [KeyError].  A value that is there has the type the module
    uses it at (a string, an integer for the timeout, a mapping). *)
Record EndpointsSection := {
  authorization : option string;
  token : option string;
  userinfo : option string }.

Record SessionSection := {
  cookie_name : option string;
  timeout : option Z;
  scope : option string }.

Record OidcSection := {
  client_id : option string;
  issuer : option string;
  endpoints : option EndpointsSection;
  session : option SessionSection }.

(** [config]: the keys the two modules read.  The ["oidc"] section may be
    absent ([validate_oidc_config] tests for it), and so may each key inside
    it; the keys of ["application"], ["aws"] and ["instance"] are required of
    the configuration source. *)
Record Config := {
  application_name : string;
  application_environment : string;
  aws_platform : string;
  instance_elb_type : string;
  oidc : option OidcSection }.

(** ** Exceptions, calls and programs *)

Inductive exn : Type :=
| DeploymentError (msg : string)
| ClientError (code msg : string)
| KeyError (key : string)
| IndexError.

Inductive level : Type := DEBUG | INFO | ERROR.

(** Everything the two modules call outside themselves. *)
Inductive call : Type :=
(* the Elastic Beanstalk client *)
| describe_environments (EnvironmentNames : list string) (IncludeDeleted : bool)
| update_environment (EnvironmentName VersionLabel : string) (OptionSettings : list OptionSetting)
| create_environment (ApplicationName EnvironmentName VersionLabel SolutionStackName : string)
    (OptionSettings : list OptionSetting)
| describe_application_versions (ApplicationName : string) (VersionLabels : list string)
(* the ELBv2 client *)
| describe_load_balancers
| describe_tags (ResourceArns : list string)
| describe_listeners_of (LoadBalancerArn : string)
| describe_listeners (ListenerArns : list string)
| describe_target_groups (LoadBalancerArn : string)
| describe_rules (ListenerArn : string)
| delete_rule (RuleArn : string)
| modify_listener (ListenerArn : string) (DefaultActions : list Action)
| create_rule (ListenerArn : string) (Priority : Z) (Conditions : list Condition)
    (Actions : list Action)
(* the ACM client *)
| describe_certificate (CertificateArn : string)
(* common.py *)
| find_environment_load_balancer (env_name : string)
| preserve_https_config (lb_arn project_name : string)
| restore_https_config (lb_arn : string) (https_config : HttpsConfig) (project_name : string)
| get_env_settings (config : Config)
| wait_for_env_status (env_name status : string)
(* setup.py *)
| get_old_to_new_env_mapping
| get_project_name
| ensure_env_in_gitignore
| logger (lvl : level) (msg : string)
(* builtins and the standard library *)
| print (msg : string)
| getpass (prompt : string)
| sleep (seconds : Z).

Definition response (c : call) : Type :=
  match c with
  | describe_environments _ _ => list EnvironmentDescription
  | describe_application_versions _ _ => list ApplicationVersion
  | describe_load_balancers => list LoadBalancer
  | describe_tags _ => list TagDescription
  | describe_listeners_of _ | describe_listeners _ => list Listener
  | describe_target_groups _ => list TargetGroup
  | describe_rules _ => list Rule
  | describe_certificate _ => Certificate
  | find_environment_load_balancer _ => option string
  | preserve_https_config _ _ => option HttpsConfig
  | get_env_settings _ => list OptionSetting
  | get_old_to_new_env_mapping => list (string * string)
  | get_project_name | getpass _ => string
  | update_environment _ _ _ | create_environment _ _ _ _ _ | delete_rule _
  | modify_listener _ _ | create_rule _ _ _ _ | restore_https_config _ _ _
  | wait_for_env_status _ _ | ensure_env_in_gitignore | logger _ _ | print _
  | sleep _ => unit
  end.

(** A program: returns, raises, or makes a call and goes on with its outcome
    (the value returned or the exception raised by the callee). *)
Inductive prog (A : Type) : Type :=
| Ret (a : A)
| Raise (e : exn)
| Vis (c : call) (k : exn + response c -> prog A).

Arguments Ret {A} a.
Arguments Raise {A} e.
Arguments Vis {A} c k.

Fixpoint bind {A B} (m : prog A) (f : A -> prog B) : prog B :=
  match m with
  | Ret a => f a
  | Raise e => Raise e
  | Vis c k => Vis c (fun r => bind (k r) f)
  end.

(** A plain call: an exception of the callee propagates. *)
Definition invoke (c : call) : prog (response c) :=
  Vis c (fun r => match r with inl e => Raise e | inr x => Ret x end).

Notation "'let*' x ':=' m 'in' k" := (bind m (fun x => k))
  (at level 10, x name, m at level 100, k at level 200).
Notation "m >>> k" := (bind m (fun _ => k))
  (at level 90, right associativity).

(** A recorded call with its outcome. *)
Inductive event : Type :=
| Event (c : call) (r : exn + response c).

Definition handler (W : Type) : Type := forall c : call, W -> (exn + response c) * W.

(** The outcome, the final state of the callee side, and the calls made. *)
Fixpoint run {W A} (h : handler W) (p : prog A) (w : W) : (exn + A) * W * list event :=
  match p with
  | Ret a => (inr a, w, [])
  | Raise e => (inl e, w, [])
  | Vis c k =>
      let '(r, w1) := h c w in
      let '(res, w2, tr) := run h (k r) w1 in
      (res, w2, Event c r :: tr)
  end.

Definition outcome {W A} (x : (exn + A) * W * list event) : exn + A := x.1.1.
Definition final {W A} (x : (exn + A) * W * list event) : W := x.1.2.
Definition trace {W A} (x : (exn + A) * W * list event) : list event := x.2.

(** Modelled from the spec: the [aws_handler] decorator of [common.py] and
    [support.py], which is not part of the two modules.  Failures of the
    platform are wrapped uniformly into a deployment failure; values and
    other exceptions pass. *)
Definition wrap_client_error (e : exn) : exn :=
  match e with
  | ClientError code msg => DeploymentError ("AWS " +:+ code +:+ ": " +:+ msg)
  | _ => e
  end.

Fixpoint aws_handler {A} (p : prog A) : prog A :=
  match p with
  | Ret a => Ret a
  | Raise e => Raise (wrap_client_error e)
  | Vis c k => Vis c (fun r => aws_handler (k r))
  end.

(** Truth value of a list, of an optional string, of an optional container. *)
Definition nonempty {A} (l : list A) : bool :=
  match l with [] => false | _ => true end.

Definition truthy_opt_str (o : option string) : bool :=
  match o with Some s => Py.truthy s | None => false end.

Definition truthy_opt_list {A} (o : option (list A)) : bool :=
  match o with Some l => nonempty l | None => false end.

(** ** ship.py *)

(** [wait_for_version], lines 132-151.  [fuel] bounds the number of polls the
    model follows; [None] says the loop is still polling when it runs out. *)
Fixpoint wait_for_version_loop (fuel : nat) (app_name version : string) : prog (option unit) :=
  match fuel with
  | O => Ret None
  | S fuel' =>
      let* versions := invoke (describe_application_versions app_name [version]) in
      match versions with
      | [] => Raise (DeploymentError ("Version " +:+ version +:+ " not found"))
      | v0 :: _ =>
          let status := Status v0 in
          invoke (print ("Version status: " +:+ status)) >>>
          if String.eqb status "PROCESSED" then Ret (Some tt)
          else if String.eqb status "FAILED"
          then Raise (DeploymentError ("Version " +:+ version +:+ " processing failed"))
          else invoke (sleep 5) >>> wait_for_version_loop fuel' app_name version
      end
  end.

Definition wait_for_version (fuel : nat) (app_name version : string) : prog (option unit) :=
  invoke (print "Waiting for application version to be processed...") >>>
  wait_for_version_loop fuel app_name version.

(** The dictionary [preserve_env_state] returns. *)
Record EnvState := { https_config_of : HttpsConfig; load_balancer_arn : string }.

(** [preserve_env_state], lines 153-178. *)
Definition preserve_env_state (env_name project_name : string) : prog (option EnvState) :=
  aws_handler (
    let* lb_arn := invoke (find_environment_load_balancer env_name) in
    match lb_arn with
    | None => Ret None
    | Some lb_arn =>
        if negb (Py.truthy lb_arn) then Ret None
        else
          let* https_config := invoke (preserve_https_config lb_arn project_name) in
          match https_config with
          | None => Ret None
          | Some https_config =>
              if negb (nonempty https_config) then Ret None
              else Ret (Some {| https_config_of := https_config;
                                load_balancer_arn := lb_arn |})
          end
    end).

(** [restore_env_state], lines 180-199.  A state with both keys is never an
    empty dictionary, so [not state] is [state is None]. *)
Definition restore_env_state (state : option EnvState) (project_name : string) : prog unit :=
  match state with
  | None => Ret tt
  | Some state =>
      if nonempty (https_config_of state) then
        invoke (print "Restoring HTTPS configuration...") >>>
        invoke (restore_https_config (load_balancer_arn state) (https_config_of state)
                  project_name)
      else Ret tt
  end.

Definition load_balancer_type_setting (config : Config) : OptionSetting :=
  {| Namespace := "aws:elasticbeanstalk:environment";
     OptionName := "LoadBalancerType";
     Value := instance_elb_type config |}.

(** [create_or_update_env], lines 201-240. *)
Definition create_or_update_env (config : Config) (version project_name : string) : prog unit :=
  let env_name := application_environment config in
  let* environments := invoke (describe_environments [env_name] false) in
  let env_exists := nonempty environments in
  let* settings := invoke (get_env_settings config) in
  let* state :=
    (if env_exists then
       invoke (print "Updating existing environment...") >>>
       let* state := preserve_env_state env_name project_name in
       invoke (update_environment env_name version settings) >>>
       Ret state
     else
       invoke (print "Creating new environment...") >>>
       let settings := settings ++ [load_balancer_type_setting config] in
       invoke (create_environment (application_name config) env_name version
                 (aws_platform config) settings) >>>
       Ret None) in
  invoke (wait_for_env_status env_name "Ready") >>>
  match state with
  | Some _ => restore_env_state state project_name
  | None => Ret tt
  end.

(** ** shield.py *)

(** A [for] loop whose body is a program. *)
Fixpoint for_each {A} (l : list A) (body : A -> prog unit) : prog unit :=
  match l with
  | [] => Ret tt
  | x :: rest => body x >>> for_each rest body
  end.

Definition newline : string := String (ascii_of_nat 10) EmptyString.

Definition required_vars : list (string * string) :=
  [ ("client_id", "LB_OIDC_CLIENT_ID");
    ("client_secret", "LB_OIDC_CLIENT_SECRET");
    ("issuer", "LB_OIDC_ISSUER");
    ("endpoints.authorization", "LB_OIDC_AUTH_ENDPOINT");
    ("endpoints.token", "LB_OIDC_TOKEN_ENDPOINT");
    ("endpoints.userinfo", "LB_OIDC_USERINFO_ENDPOINT") ].

(** Lines 39-42: legacy names are copied to the current ones. *)
Fixpoint map_old_names (var_mapping : list (string * string)) (environ : gmap string string)
  : prog (gmap string string) :=
  match var_mapping with
  | [] => Ret environ
  | (old_name, new_name) :: rest =>
      match environ !! old_name, environ !! new_name with
      | Some v, None =>
          invoke (logger DEBUG ("Mapped " +:+ old_name +:+ " to " +:+ new_name +:+
                                " in environment")) >>>
          map_old_names rest (<[new_name := v]> environ)
      | _, _ => map_old_names rest environ
      end
  end.

(** Line 47: [env_var not in os.environ or not os.environ[env_var]] *)
Definition is_missing (environ : gmap string string) (env_var : string) : bool :=
  match environ !! env_var with
  | None => true
  | Some v => negb (Py.truthy v)
  end.

Definition missing_vars (environ : gmap string string) : list string :=
  List.map snd (List.filter (fun p => is_missing environ (snd p)) required_vars).

Definition in_list (x : string) (l : list string) : bool := existsb (String.eqb x) l.

(** [check_oidc_vars], lines 17-69; the result carries [os.environ] as the
    function leaves it. *)
Definition check_oidc_vars (config : Config) (environ : gmap string string)
  : prog (bool * gmap string string) :=
  let* var_mapping := invoke get_old_to_new_env_mapping in
  let* environ := map_old_names var_mapping environ in
  let missing := missing_vars environ in
  if negb (nonempty missing) then Ret (true, environ)
  else
    invoke (logger ERROR "Missing required OIDC configuration variables:") >>>
    for_each missing (fun var => invoke (logger ERROR ("  - " +:+ var))) >>>
    invoke (logger INFO (newline +:+ "Please set these variables in your .env file or environment.")) >>>
    invoke (logger INFO "Example .env file format:") >>>
    invoke (logger INFO "----------------------------------------------------") >>>
    for_each required_vars (fun p =>
      if in_list (snd p) missing
      then invoke (logger INFO (snd p +:+ "=your-value-here"))
      else Ret tt) >>>
    invoke (logger INFO "----------------------------------------------------") >>>
    invoke ensure_env_in_gitignore >>>
    Ret (false, environ).

(** [validate_oidc_config], lines 72-91. *)
Definition validate_oidc_config (config : Config) (environ : gmap string string)
  : prog (bool * gmap string string) :=
  match oidc config with
  | None =>
      invoke (logger ERROR "Missing 'oidc' section in configuration.") >>>
      Ret (false, environ)
  | Some _ =>
      let* checked := check_oidc_vars config environ in
      if negb (fst checked) then Ret (false, snd checked)
      else
        invoke (logger INFO "OIDC configuration validated successfully") >>>
        Ret (true, snd checked)
  end.

(** [l[0]] *)
Definition first_item {A} (l : list A) : prog A :=
  match l with
  | x :: _ => Ret x
  | [] => Raise IndexError
  end.

(** [get_domain_from_listener], lines 94-106. *)
Definition get_domain_from_listener (listener_arn : string) : prog string :=
  aws_handler (
    let* listeners := invoke (describe_listeners [listener_arn]) in
    let* listener := first_item listeners in
    let* cert_arn := first_item (Certificates listener) in
    let* cert := invoke (describe_certificate cert_arn) in
    let* project_name := invoke get_project_name in
    Ret (Py.replace_char "*" project_name (DomainName cert))).

Definition is_env_tag (env_name : string) (t : Tag) : bool :=
  String.eqb (Key t) "elasticbeanstalk:environment-name" && String.eqb (TagValue t) env_name.

(** Lines 129-141: the first application load balancer tagged with the
    environment's name. *)
Fixpoint find_env_lb (env_name : string) (lbs : list LoadBalancer) : prog (option LoadBalancer) :=
  match lbs with
  | [] => Ret None
  | lb :: rest =>
      if negb (String.eqb (Py.lower (LbType lb)) "application")
      then find_env_lb env_name rest
      else
        let* descriptions := invoke (describe_tags [LoadBalancerArn lb]) in
        let* description := first_item descriptions in
        if existsb (is_env_tag env_name) (Tags description) then Ret (Some lb)
        else find_env_lb env_name rest
  end.

(** [next((l for l in listeners if l["Port"] == port), None)] *)
Definition listener_on (port : Z) (listeners : list Listener) : option Listener :=
  List.find (fun l => Z.eqb (Port l) port) listeners.

(** [find_listener_arn], lines 109-157. *)
Definition find_listener_arn (env_name : string) : prog (string * string) :=
  aws_handler (
    invoke (logger INFO "Finding HTTPS listener") >>>
    let* envs := invoke (describe_environments [env_name] false) in
    if negb (nonempty envs) then
      invoke (logger INFO "environment not found") >>>
      Raise (DeploymentError ("Environment " +:+ env_name +:+ " not found"))
    else
      let* lbs := invoke describe_load_balancers in
      let* env_lb := find_env_lb env_name lbs in
      match env_lb with
      | None =>
          invoke (logger INFO "load balancer not found") >>>
          Raise (DeploymentError ("No load balancer found for environment " +:+ env_name))
      | Some env_lb =>
          let* listeners := invoke (describe_listeners_of (LoadBalancerArn env_lb)) in
          match listener_on 443 listeners with
          | None =>
              invoke (logger INFO "HTTPS not configured") >>>
              Raise (DeploymentError "HTTPS listener not found. Run 'secure' command first.")
          | Some https_listener =>
              Ret (ListenerArn https_listener, LoadBalancerArn env_lb)
          end
      end).

(** [find_target_group_arn], lines 160-173. *)
Definition find_target_group_arn (load_balancer_arn : string) : prog string :=
  aws_handler (
    invoke (logger INFO "Finding target group") >>>
    let* target_groups := invoke (describe_target_groups load_balancer_arn) in
    match target_groups with
    | [] =>
        invoke (logger INFO "not found") >>>
        Raise (DeploymentError "No target groups found for load balancer")
    | tg :: _ => Ret (TargetGroupArn_ tg)
    end).

(** [os.environ.get(name)] as a condition: set and not empty. *)
Definition env_truthy (environ : gmap string string) (name : string) : option string :=
  match environ !! name with
  | Some v => if Py.truthy v then Some v else None
  | None => None
  end.

(** [get_client_secret], lines 176-186. *)
Definition get_client_secret (secret : option string) (environ : gmap string string) : prog string :=
  if truthy_opt_str secret then Ret (default "" secret)
  else
    match env_truthy environ "LB_OIDC_CLIENT_SECRET" with
    | Some secret => Ret secret
    | None =>
        match env_truthy environ "OIDC_CLIENT_SECRET" with
        | Some secret => Ret secret
        | None => invoke (getpass (newline +:+ "Please enter your OIDC client secret: "))
        end
    end.

(** [mapping[key]]: the value under the key, [KeyError] when the mapping has
    no such key. *)
Definition item {A} (key : string) (value : option A) : exn + A :=
  match value with
  | Some x => inr x
  | None => inl (KeyError key)
  end.

Definition and_then {A B} (r : exn + A) (f : A -> exn + B) : exn + B :=
  match r with
  | inl e => inl e
  | inr a => f a
  end.

Notation "'let?' x ':=' r 'in' k" := (and_then r (fun x => k))
  (at level 10, x name, r at level 100, k at level 200).

(** A value or an exception, as a step of a program. *)
Definition result {A} (r : exn + A) : prog A :=
  match r with
  | inl e => Raise e
  | inr a => Ret a
  end.

(** The dictionary [oidc_config] that lines 200-216 build. *)
Record OidcDict := {
  oc_client_id : string;
  oc_client_secret : string;
  oc_issuer : string;
  oc_authorization : string;
  oc_token : string;
  oc_userinfo : string;
  oc_session : SessionSection }.

(** Lines 200-216.  The default handed to [os.environ.get] is evaluated
    whether the variable is set or not, so every key is read, in this
    order; the keys of ["session"] are not read yet. *)
Definition oidc_config (config : Config) (client_secret : option string)
    (environ : gmap string string) : exn + OidcDict :=
  let? section := item "oidc" (oidc config) in
  let? client_id_value := item "client_id" (client_id section) in
  let? issuer_value := item "issuer" (issuer section) in
  let? endpoints_value := item "endpoints" (endpoints section) in
  let? authorization_value := item "authorization" (authorization endpoints_value) in
  let? token_value := item "token" (token endpoints_value) in
  let? userinfo_value := item "userinfo" (userinfo endpoints_value) in
  let? session_value := item "session" (session section) in
  inr {| oc_client_id := default client_id_value (environ !! "LB_OIDC_CLIENT_ID");
         oc_client_secret :=
           if truthy_opt_str client_secret then default "" client_secret
           else default "" (environ !! "LB_OIDC_CLIENT_SECRET");
         oc_issuer := default issuer_value (environ !! "LB_OIDC_ISSUER");
         oc_authorization :=
           default authorization_value (environ !! "LB_OIDC_AUTH_ENDPOINT");
         oc_token := default token_value (environ !! "LB_OIDC_TOKEN_ENDPOINT");
         oc_userinfo := default userinfo_value (environ !! "LB_OIDC_USERINFO_ENDPOINT");
         oc_session := session_value |}.

(** Line 222: [oidc_config["client_secret"] = ...]. *)
Definition with_client_secret (oidc_config : OidcDict) (secret : string) : OidcDict :=
  {| oc_client_id := oc_client_id oidc_config;
     oc_client_secret := secret;
     oc_issuer := oc_issuer oidc_config;
     oc_authorization := oc_authorization oidc_config;
     oc_token := oc_token oidc_config;
     oc_userinfo := oc_userinfo oidc_config;
     oc_session := oc_session oidc_config |}.

(** The dictionary of lines 257-271 once the three keys of ["session"] are
    read, with the ["Order"] of line 296. *)
Definition authenticate_oidc (oidc_config : OidcDict) (cookie_name_value : string)
    (timeout_value : Z) (scope_value : string) (order : option Z) : Action :=
  {| ActionType := "authenticate-oidc";
     Order := order;
     OidcConfig := Some
       {| Issuer := oc_issuer oidc_config;
          AuthorizationEndpoint := oc_authorization oidc_config;
          TokenEndpoint := oc_token oidc_config;
          UserInfoEndpoint := oc_userinfo oidc_config;
          ClientId := oc_client_id oidc_config;
          ClientSecret := Some (oc_client_secret oidc_config);
          SessionCookieName := cookie_name_value;
          SessionTimeout := timeout_value;
          Scope := scope_value;
          OnUnauthenticatedRequest := "authenticate" |};
     TargetGroupArn := None;
     FixedResponse := None;
     Redirect := None |}.

(** Lines 257-271: [auth_action].  The keys of ["session"] are read here;
    one that is missing raises [KeyError]. *)
Definition auth_action (oidc_config : OidcDict) : exn + (option Z -> Action) :=
  let? cookie_name_value := item "cookie_name" (cookie_name (oc_session oidc_config)) in
  let? timeout_value := item "timeout" (timeout (oc_session oidc_config)) in
  let? scope_value := item "scope" (scope (oc_session oidc_config)) in
  inr (authenticate_oidc oidc_config cookie_name_value timeout_value scope_value).

Definition forward_action (target_group_arn : string) (order : option Z) : Action :=
  {| ActionType := "forward"; Order := order; OidcConfig := None;
     TargetGroupArn := Some target_group_arn; FixedResponse := None; Redirect := None |}.

(** Lines 277-286. *)
Definition deny_action : Action :=
  {| ActionType := "fixed-response"; Order := None; OidcConfig := None;
     TargetGroupArn := None;
     FixedResponse := Some {| MessageBody := "Unauthorized Access";
                              StatusCode := "503";
                              ContentType := "text/plain" |};
     Redirect := None |}.

(** Lines 316-325. *)
Definition redirect_action : Action :=
  {| ActionType := "redirect"; Order := None; OidcConfig := None;
     TargetGroupArn := None; FixedResponse := None;
     Redirect := Some {| Protocol := "HTTPS"; RedirectPort := "443";
                         RedirectStatusCode := "HTTP_301" |} |}.

Definition all_paths : Condition := {| Field := "path-pattern"; Values := ["/*"] |}.

(** Lines 243-247: delete the rules that are not the default one, counting
    them. *)
Fixpoint remove_rules (rules : list Rule) (rules_removed : nat) : prog nat :=
  match rules with
  | [] => Ret rules_removed
  | rule :: rest =>
      if negb (default false (IsDefault rule)) then
        invoke (delete_rule (RuleArn rule)) >>>
        remove_rules rest (S rules_removed)
      else remove_rules rest rules_removed
  end.

(** Lines 239-330 of [configure_oidc_auth]: the listener, its balancer, the
    target group and the domain are known, the rules are rewritten. *)
Definition secure_listener (listener_arn load_balancer_arn target_group_arn domain : string)
    (oidc_config : OidcDict) : prog unit :=
  invoke (logger INFO "Removing existing listener rules") >>>
  let* rules := invoke (describe_rules listener_arn) in
  let* rules_removed := remove_rules rules 0 in
  (if (0 <? rules_removed)%nat
   then invoke (logger INFO ("Removed " +:+ pretty rules_removed +:+ " rules"))
   else invoke (logger INFO "No rules to remove")) >>>
  invoke (logger INFO "Configuring OIDC authentication") >>>
  let* auth := result (auth_action oidc_config) in
  invoke (logger INFO "Setting default listener action to deny unauthorized access") >>>
  invoke (modify_listener listener_arn [deny_action]) >>>
  invoke (logger INFO "Creating authentication rule") >>>
  invoke (create_rule listener_arn 1 [all_paths]
            [auth (Some 1%Z); forward_action target_group_arn (Some 2%Z)]) >>>
  invoke (logger INFO "Configuring HTTP to HTTPS redirect") >>>
  let* listeners := invoke (describe_listeners_of load_balancer_arn) in
  (match listener_on 80 listeners with
   | Some http_listener =>
       invoke (modify_listener (ListenerArn http_listener) [redirect_action])
   | None => invoke (logger INFO "HTTP listener not found")
   end) >>>
  invoke (logger INFO ("OIDC authentication successfully configured for https://" +:+ domain)).

(** Lines 219-237 of [configure_oidc_auth]: the secret, then the listener, the
    domain of its certificate and the target group. *)
Definition resolve_secret (secret : string) (environ : gmap string string) : prog string :=
  let* secret :=
    (if negb (Py.truthy secret) then get_client_secret None environ else Ret secret) in
  if negb (Py.truthy secret) then Raise (DeploymentError "OIDC client secret is required")
  else Ret secret.

Definition resolve_listener (env_name : string) : prog (string * string * string * string) :=
  let* found := find_listener_arn env_name in
  let '(listener_arn, load_balancer_arn) := found in
  if negb (Py.truthy listener_arn) then Raise (DeploymentError "Could not find HTTPS listener")
  else
    let* domain := get_domain_from_listener listener_arn in
    let* target_group_arn := find_target_group_arn load_balancer_arn in
    Ret (listener_arn, load_balancer_arn, target_group_arn, domain).

(** [configure_oidc_auth], lines 189-330. *)
Definition configure_oidc_auth (config : Config) (client_secret : option string)
    (environ : gmap string string) : prog unit :=
  aws_handler (
    let env_name := application_environment config in
    let* oidc_config := result (oidc_config config client_secret environ) in
    invoke (logger INFO ("Configuring OIDC authentication for " +:+ env_name)) >>>
    let* secret := resolve_secret (oc_client_secret oidc_config) environ in
    let* found := resolve_listener env_name in
    let '(listener_arn, load_balancer_arn, target_group_arn, domain) := found in
    secure_listener listener_arn load_balancer_arn target_group_arn domain
      (with_client_secret oidc_config secret)).
(** ** Callee sides used to exercise the programs *)

(** A value of every response type. *)
Definition quiet (c : call) : response c :=
  match c with
  | describe_environments _ _ => []
  | describe_application_versions _ _ => []
  | describe_load_balancers => []
  | describe_tags _ => []
  | describe_listeners_of _ | describe_listeners _ => []
  | describe_target_groups _ => []
  | describe_rules _ => []
  | describe_certificate _ => {| DomainName := "" |}
  | find_environment_load_balancer _ => None
  | preserve_https_config _ _ => None
  | get_env_settings _ => []
  | get_old_to_new_env_mapping => []
  | get_project_name | getpass _ => ""
  | update_environment _ _ _ | create_environment _ _ _ _ _ | delete_rule _
  | modify_listener _ _ | create_rule _ _ _ _ | restore_https_config _ _ _
  | wait_for_env_status _ _ | ensure_env_in_gitignore | logger _ _ | print _
  | sleep _ => tt
  end.

(** The version service seen through its polls: the state counts the polls
    answered so far, [script n] is the answer to poll number [n]; every other
    call succeeds. *)
Definition version_feed (script : nat -> list ApplicationVersion) : handler nat :=
  fun c n =>
    match c with
    | describe_application_versions _ _ => (inr (script n), S n)
    | c => (inr (quiet c), n)
    end.

(** What one poll of [wait_for_version] makes of an answer. *)
Definition pending (versions : list ApplicationVersion) : bool :=
  match versions with
  | [] => false
  | v0 :: _ => negb (String.eqb (Status v0) "PROCESSED") && negb (String.eqb (Status v0) "FAILED")
  end.

Definition has_status (status : string) (versions : list ApplicationVersion) : bool :=
  match versions with
  | [] => false
  | v0 :: _ => String.eqb (Status v0) status
  end.

(** A scripted environment service for [create_or_update_env]: it knows the
    environments that exist, answers the [common.py] helpers from a fixed
    table and lets every other call succeed. *)
Record Script := {
  existing : list string;
  legacy_names : list (string * string);
  settings_of : Config -> list OptionSetting;
  balancer : option string;
  snapshot : option HttpsConfig;
  ready : bool }.

Definition scripted (s : Script) : handler unit :=
  fun c w =>
    match c with
    | describe_environments names _ =>
        (inr (List.map (fun n => {| EnvironmentName := n; EnvStatus := "Ready" |})
                (List.filter (fun n => in_list n names) (existing s))), w)
    | get_env_settings config => (inr (settings_of s config), w)
    | get_old_to_new_env_mapping => (inr (legacy_names s), w)
    | find_environment_load_balancer _ => (inr (balancer s), w)
    | preserve_https_config _ _ => (inr (snapshot s), w)
    | wait_for_env_status env_name status =>
        (if ready s then inr tt
         else inl (DeploymentError ("Environment " +:+ env_name +:+ " failed")), w)
    | c => (inr (quiet c), w)
    end.

(** *** An in-memory load-balancer platform

    The state behind the Elastic Beanstalk, ELBv2 and ACM clients, with the
    operations the two modules call.  It is the stub of section 9 of the
    design notes: reads are answered from the state, [delete_rule],
    [modify_listener] and [create_rule] change it, and a call that names a
    resource that does not exist fails with a [ClientError]. *)

Module Aws.

(** What the rewriting of rules never changes. *)
Record ListenerInfo := { li_balancer : string; li_port : Z; li_certificates : list string }.

Record BalancerInfo := { bi_type : string; bi_tags : list Tag }.

Record Topology := {
  environments : list EnvironmentDescription;
  load_balancers : gmap string BalancerInfo;
  listeners : gmap string ListenerInfo;
  target_groups : list (string * TargetGroup);
  certificates : gmap string Certificate;
  project : string;
  typed_secret : string }.

(** A rule that is not a default rule, as the platform keeps it under its
    ARN. *)
Record RuleBody := {
  rb_listener : string;
  rb_priority : Z;
  rb_conditions : list Condition;
  rb_actions : list Action }.

(** The state: resources are kept under their ARN; [default_actions] holds the
    default actions of each listener, which are its default rule. *)
Record Platform := {
  top : Topology;
  default_actions : gmap string (list Action);
  rules : gmap string RuleBody }.

Definition with_rules (P : Platform) (rs : gmap string RuleBody) : Platform :=
  {| top := top P; default_actions := default_actions P; rules := rs |}.

Definition with_default_actions (P : Platform) (d : gmap string (list Action)) : Platform :=
  {| top := top P; default_actions := d; rules := rules P |}.

Definition has_balancer (P : Platform) (arn : string) : bool :=
  bool_decide (is_Some (load_balancers (top P) !! arn)).

Definition render_balancer (lb : string * BalancerInfo) : LoadBalancer :=
  {| LoadBalancerArn := lb.1; LbType := bi_type lb.2 |}.

Definition render_listener (l : string * ListenerInfo) : Listener :=
  {| ListenerArn := l.1; ListenerLoadBalancerArn := li_balancer l.2; Port := li_port l.2;
     Certificates := li_certificates l.2 |}.

Definition listeners_of (P : Platform) (lb : string) : list Listener :=
  List.map render_listener
    (List.filter (fun l => String.eqb (li_balancer l.2) lb) (map_to_list (listeners (top P)))).

Definition find_listener (P : Platform) (arn : string) : option Listener :=
  match listeners (top P) !! arn with
  | Some info => Some (render_listener (arn, info))
  | None => None
  end.

(** The client secret is write-only: a description never carries it. *)
Definition hide_secret (a : Action) : Action :=
  {| ActionType := ActionType a; Order := Order a;
     OidcConfig :=
       match OidcConfig a with
       | Some c =>
           Some {| Issuer := Issuer c; AuthorizationEndpoint := AuthorizationEndpoint c;
                   TokenEndpoint := TokenEndpoint c; UserInfoEndpoint := UserInfoEndpoint c;
                   ClientId := ClientId c; ClientSecret := None;
                   SessionCookieName := SessionCookieName c;
                   SessionTimeout := SessionTimeout c; Scope := Scope c;
                   OnUnauthenticatedRequest := OnUnauthenticatedRequest c |}
       | None => None
       end;
     TargetGroupArn := TargetGroupArn a; FixedResponse := FixedResponse a;
     Redirect := Redirect a |}.

Definition describe (r : string * RuleBody) : Rule :=
  {| RuleArn := r.1; Priority := Some (rb_priority r.2);
     Conditions := rb_conditions r.2; Actions := List.map hide_secret (rb_actions r.2);
     IsDefault := Some false |}.

Definition default_rule (P : Platform) (arn : string) : Rule :=
  {| RuleArn := arn +:+ "/default"; Priority := None; Conditions := [];
     Actions := List.map hide_secret (default [] (default_actions P !! arn));
     IsDefault := Some true |}.

Definition on_listener (arn : string) (r : string * RuleBody) : bool :=
  String.eqb (rb_listener r.2) arn.

(** The rules of a listener that are not its default rule. *)
Definition rules_on (P : Platform) (arn : string) : list (string * RuleBody) :=
  List.filter (on_listener arn) (map_to_list (rules P)).

Definition not_found (what : string) : exn := ClientError (what +:+ "NotFound") what.

(** Answer one ARN after the other; the first unknown one fails the call. *)
Fixpoint each {A B} (f : A -> option B) (what : string) (l : list A) : exn + list B :=
  match l with
  | [] => inr []
  | x :: rest =>
      match f x with
      | None => inl (not_found what)
      | Some y =>
          match each f what rest with
          | inl e => inl e
          | inr ys => inr (y :: ys)
          end
      end
  end.

Definition tags_of (P : Platform) (arn : string) : option TagDescription :=
  match load_balancers (top P) !! arn with
  | Some lb => Some {| Tags := bi_tags lb |}
  | None => None
  end.

(** Is the balancer an application load balancer tagged with the
    environment's name? *)
Definition tagged_to (env_name : string) (lb : BalancerInfo) : bool :=
  String.eqb (Py.lower (bi_type lb)) "application" &&
  existsb (is_env_tag env_name) (bi_tags lb).

(** The clients.  Calls outside the platform (the logger, [print], [sleep],
    the [.gitignore] helper, the legacy-name table, the environment
    operations of the reconciler) succeed without touching the state. *)
Definition sdk : handler Platform :=
  fun c P =>
    match c with
    | describe_environments names _ =>
        (inr (List.filter (fun e => in_list (EnvironmentName e) names) (environments (top P))), P)
    | describe_load_balancers =>
        (inr (List.map render_balancer (map_to_list (load_balancers (top P)))), P)
    | describe_tags arns => (each (tags_of P) "LoadBalancer" arns, P)
    | describe_listeners_of lb =>
        (if has_balancer P lb then inr (listeners_of P lb)
         else inl (not_found "LoadBalancer"), P)
    | describe_listeners arns => (each (find_listener P) "Listener" arns, P)
    | describe_target_groups lb =>
        (if has_balancer P lb
         then inr (List.map snd (List.filter (fun t => String.eqb t.1 lb) (target_groups (top P))))
         else inl (not_found "LoadBalancer"), P)
    | describe_certificate arn =>
        (match certificates (top P) !! arn with
         | Some cert => inr cert
         | None => inl (not_found "Certificate")
         end, P)
    | get_project_name => (inr (project (top P)), P)
    | getpass _ => (inr (typed_secret (top P)), P)
    | describe_rules arn =>
        (match listeners (top P) !! arn with
         | Some _ => inr (List.map describe (rules_on P arn) ++ [default_rule P arn])
         | None => inl (not_found "Listener")
         end, P)
    | delete_rule arn =>
        match rules P !! arn with
        | Some _ => (inr tt, with_rules P (delete arn (rules P)))
        | None => (inl (not_found "Rule"), P)
        end
    | modify_listener arn actions =>
        match listeners (top P) !! arn with
        | Some _ => (inr tt, with_default_actions P (<[arn := actions]> (default_actions P)))
        | None => (inl (not_found "Listener"), P)
        end
    | create_rule arn priority conditions actions =>
        match listeners (top P) !! arn with
        | None => (inl (not_found "Listener"), P)
        | Some _ =>
            if existsb (fun r => Z.eqb (rb_priority r.2) priority) (rules_on P arn)
            then (inl (ClientError "PriorityInUse" "Priority"), P)
            else (inr tt,
                  with_rules P (<[fresh (dom (rules P)) :=
                                    {| rb_listener := arn; rb_priority := priority;
                                       rb_conditions := conditions; rb_actions := actions |}]>
                                  (rules P)))
        end
    | c => (inr (quiet c), P)
    end.

End Aws.

(** *** common.py, after the contracts of sections 4.1 and 4.2 *)

Module Common.

(** Modelled from the spec: the tag lookup of
    [common.find_environment_load_balancer], which is not among the source
    files.  The balancer is found by its tag, the name of the environment. *)
Fixpoint tagged_balancer (env_name : string) (lbs : list LoadBalancer) : prog (option string) :=
  match lbs with
  | [] => Ret None
  | lb :: rest =>
      let* descriptions := invoke (describe_tags [LoadBalancerArn lb]) in
      let* description := first_item descriptions in
      if existsb (is_env_tag env_name) (Tags description) then Ret (Some (LoadBalancerArn lb))
      else tagged_balancer env_name rest
  end.

(** Modelled from the spec: [common.find_environment_load_balancer], which is
    not among the source files.  Given an environment name it returns the
    load balancer tagged to that environment, or nothing (not an error) when
    the environment or the balancer does not exist. *)
Definition find_environment_load_balancer (env_name : string) : prog (option string) :=
  let* envs := invoke (describe_environments [env_name] false) in
  if negb (nonempty envs) then Ret None
  else
    let* lbs := invoke describe_load_balancers in
    tagged_balancer env_name lbs.

(** Modelled from the spec: the rules [common.preserve_https_config] keeps,
    those with an authenticate-oidc action. *)
Definition is_oidc_rule (r : Rule) : bool :=
  negb (default false (IsDefault r)) &&
  existsb (fun a => String.eqb (ActionType a) "authenticate-oidc") (Actions r).

(** Modelled from the spec: [common.preserve_https_config], which is not
    among the source files.  It reads the authenticate-oidc rule
    configuration of the balancer's HTTPS listener as the platform describes
    it (so without the secret) and keeps it verbatim; nothing when there is
    no HTTPS listener. *)
Definition preserve_https_config (lb_arn project_name : string) : prog (option HttpsConfig) :=
  let* listeners := invoke (describe_listeners_of lb_arn) in
  match listener_on 443 listeners with
  | None => Ret None
  | Some https_listener =>
      let* rules := invoke (describe_rules (ListenerArn https_listener)) in
      Ret (Some (List.filter is_oidc_rule rules))
  end.

(** Modelled from the spec: [common.restore_https_config], which is not among
    the source files.  It resolves the HTTPS listener of the balancer again
    and re-applies the captured rules with the delete-then-recreate policy of
    section 4.4. *)
Definition restore_https_config (lb_arn : string) (https_config : HttpsConfig)
    (project_name : string) : prog unit :=
  let* listeners := invoke (describe_listeners_of lb_arn) in
  match listener_on 443 listeners with
  | None => Raise (DeploymentError "HTTPS listener not found")
  | Some https_listener =>
      let listener_arn := ListenerArn https_listener in
      let* rules := invoke (describe_rules listener_arn) in
      remove_rules rules 0 >>>
      for_each https_config (fun rule =>
        invoke (create_rule listener_arn (default 0%Z (Priority rule)) (Conditions rule)
                  (Actions rule)))
  end.

End Common.

(** The platform with the helpers of [common.py] on top of its clients. *)
Definition aws : handler Aws.Platform :=
  fun c P =>
    match c with
    | find_environment_load_balancer env_name =>
        let R := run Aws.sdk (Common.find_environment_load_balancer env_name) P in
        (outcome R, final R)
    | preserve_https_config lb_arn project_name =>
        let R := run Aws.sdk (Common.preserve_https_config lb_arn project_name) P in
        (outcome R, final R)
    | restore_https_config lb_arn https_config project_name =>
        let R := run Aws.sdk (Common.restore_https_config lb_arn https_config project_name) P in
        (outcome R, final R)
    | c => Aws.sdk c P
    end.

(** ** Reading traces *)

Definition call_of (ev : event) : call :=
  match ev with Event c _ => c end.

(** Did the call return (rather than raise)? *)
Definition returned (ev : event) : bool :=
  match ev with
  | Event _ (inr _) => true
  | Event _ (inl _) => false
  end.

(** Calls that reach the platform: the three clients and the helpers of
    [common.py] that drive them. *)
Definition is_remote (c : call) : bool :=
  match c with
  | get_env_settings _ | get_old_to_new_env_mapping | get_project_name
  | ensure_env_in_gitignore | logger _ _ | print _ | getpass _ | sleep _ => false
  | _ => true
  end.

Definition remote_calls (tr : list event) : list call :=
  List.filter is_remote (List.map call_of tr).

(** The messages sent to the logger at one level, in order. *)
Fixpoint logged (lvl : level) (tr : list event) : list string :=
  match tr with
  | [] => []
  | Event (logger l msg) _ :: rest =>
      match lvl, l with
      | DEBUG, DEBUG | INFO, INFO | ERROR, ERROR => msg :: logged lvl rest
      | _, _ => logged lvl rest
      end
  | _ :: rest => logged lvl rest
  end.

Definition is_restore (c : call) : bool :=
  match c with restore_https_config _ _ _ => true | _ => false end.

Definition is_ready_report (env_name : string) (ev : event) : bool :=
  match ev with
  | Event (wait_for_env_status e s) (inr _) => String.eqb e env_name && String.eqb s "Ready"
  | _ => false
  end.

(** No restore is issued before the wait step has reported the environment
    ready: [seen] says whether the report has been seen. *)
Fixpoint restore_follows_ready (env_name : string) (seen : bool) (tr : list event) : bool :=
  match tr with
  | [] => true
  | ev :: rest =>
      (if is_restore (call_of ev) then seen else true) &&
      restore_follows_ready env_name (seen || is_ready_report env_name ev) rest
  end.

(** Calls that change a listener or its rules, and the listener or rule they
    name. *)
Definition is_mutation (c : call) : bool :=
  match c with
  | delete_rule _ | modify_listener _ _ | create_rule _ _ _ _ => true
  | _ => false
  end.

(** A callee side on which the calls that stay on the host (the logger,
    [print], the prompt, the [.gitignore] helper, the tables of [setup.py])
    return. *)
Definition local_calls_return {W} (h : handler W) : Prop :=
  forall c w, is_remote c = false -> exists x, (h c w).1 = inr x.

Definition five_missing : list string :=
  ["LB_OIDC_CLIENT_SECRET"; "LB_OIDC_ISSUER"; "LB_OIDC_AUTH_ENDPOINT";
   "LB_OIDC_TOKEN_ENDPOINT"; "LB_OIDC_USERINFO_ENDPOINT"].

(** The answer [common.get_env_settings] gave, when it gave one. *)
Fixpoint answered_settings (tr : list event) : option (list OptionSetting) :=
  match tr with
  | [] => None
  | Event (get_env_settings _) (inr s) :: _ => Some s
  | _ :: rest => answered_settings rest
  end.

(** The answers [common.find_environment_load_balancer] and
    [common.preserve_https_config] gave, when they gave one. *)
Fixpoint answered_balancer (tr : list event) : option (option string) :=
  match tr with
  | [] => None
  | Event (find_environment_load_balancer _) (inr lb) :: _ => Some lb
  | _ :: rest => answered_balancer rest
  end.

Fixpoint answered_snapshot (tr : list event) : option (option HttpsConfig) :=
  match tr with
  | [] => None
  | Event (preserve_https_config _ _) (inr hc) :: _ => Some hc
  | _ :: rest => answered_snapshot rest
  end.

Definition no_restore (tr : list event) : bool :=
  negb (existsb (fun ev => is_restore (call_of ev)) tr).

Definition mutations (tr : list event) : list call :=
  List.filter is_mutation (List.map call_of tr).

(** ** What [configure_oidc_auth] is expected to leave on the platform *)

(** Section 4.4 of the spec: the secret comes from the argument, then from the
    current variable, then from the legacy variable, then from the prompt. *)
Definition chosen_secret (client_secret : option string) (environ : gmap string string)
    (P : Aws.Platform) : string :=
  if truthy_opt_str client_secret then default "" client_secret
  else match env_truthy environ "LB_OIDC_CLIENT_SECRET" with
       | Some s => s
       | None =>
           match env_truthy environ "OIDC_CLIENT_SECRET" with
           | Some s => s
           | None => Aws.typed_secret (Aws.top P)
           end
       end.

(** The rules that are not on the listener. *)
Definition cleared (P : Aws.Platform) (listener_arn : string) : gmap string Aws.RuleBody :=
  filter (fun r => Aws.rb_listener r.2 <> listener_arn) (Aws.rules P).

(** The one rule of the gate: priority 1, all paths, authenticate then
    forward. *)
Definition gate_rule (listener_arn target_group_arn : string) (auth : option Z -> Action)
  : Aws.RuleBody :=
  {| Aws.rb_listener := listener_arn; Aws.rb_priority := 1;
     Aws.rb_conditions := [all_paths];
     Aws.rb_actions := [auth (Some 1%Z); forward_action target_group_arn (Some 2%Z)] |}.

Definition gate_arn (P : Aws.Platform) (listener_arn : string) : string :=
  fresh (dom (cleared P listener_arn)).

(** The platform once the listener is secured. *)
Definition secured (P : Aws.Platform) (listener_arn load_balancer_arn target_group_arn : string)
    (auth : option Z -> Action) : Aws.Platform :=
  let denied := <[listener_arn := [deny_action]]> (Aws.default_actions P) in
  {| Aws.top := Aws.top P;
     Aws.default_actions :=
       match listener_on 80 (Aws.listeners_of P load_balancer_arn) with
       | Some http_listener => <[ListenerArn http_listener := [redirect_action]]> denied
       | None => denied
       end;
     Aws.rules :=
       <[gate_arn P listener_arn := gate_rule listener_arn target_group_arn auth]>
         (cleared P listener_arn) |}.

(** The gate as [describe_rules] shows it. *)
Definition described_gate (arn target_group_arn : string) (auth : option Z -> Action) : Rule :=
  {| RuleArn := arn; Priority := Some 1%Z; Conditions := [all_paths];
     Actions := [Aws.hide_secret (auth (Some 1%Z)); forward_action target_group_arn (Some 2%Z)];
     IsDefault := Some false |}.

Definition described_deny (listener_arn : string) : Rule :=
  {| RuleArn := listener_arn +:+ "/default"; Priority := None; Conditions := [];
     Actions := [deny_action]; IsDefault := Some true |}.

(** Calls answered from the topology alone, which they leave as it is. *)
Definition reads_topology (c : call) : bool :=
  match c with
  | describe_environments _ _ | describe_load_balancers | describe_tags _
  | describe_listeners_of _ | describe_listeners _ | describe_target_groups _
  | describe_certificate _ | get_project_name | getpass _ | logger _ _ | print _ => true
  | _ => false
  end.

(** A program all of whose calls satisfy [Q]. *)
Fixpoint only {A} (Q : call -> bool) (p : prog A) : Prop :=
  match p with
  | Ret _ | Raise _ => True
  | Vis c k => Q c = true /\ forall r, only Q (k r)
  end.

(** Calls of the three clients and of the host, as opposed to the helpers of
    [common.py]. *)
Definition is_client (c : call) : bool :=
  match c with
  | find_environment_load_balancer _ | preserve_https_config _ _
  | restore_https_config _ _ _ => false
  | _ => true
  end.

(** ** The OIDC rule configuration of a listener

    What [describe_rules] shows of the rules that carry an authenticate-oidc
    action, without their ARNs: priority, conditions and actions; the actions
    hold the issuer, the three endpoints and the client id, never the
    secret. *)
Definition rule_content (r : Rule) : option Z * list Condition * list Action :=
  (Priority r, Conditions r, Actions r).

Definition oidc_configuration (P : Aws.Platform) (listener_arn : string)
  : list (option Z * list Condition * list Action) :=
  List.map rule_content
    (List.filter Common.is_oidc_rule (List.map Aws.describe (Aws.rules_on P listener_arn))).

(** The issuer, the endpoints and the client id of an action. *)
Definition oidc_settings (a : Action) : option (string * string * string * string * string) :=
  match OidcConfig a with
  | Some c => Some (Issuer c, AuthorizationEndpoint c, TokenEndpoint c, UserInfoEndpoint c,
                    ClientId c)
  | None => None
  end.

(** The rule [common.restore_https_config] creates for a rule it captured:
    the same priority, conditions and actions, as they were described. *)
Definition recreated (listener_arn : string) (b : Aws.RuleBody) : Aws.RuleBody :=
  {| Aws.rb_listener := listener_arn; Aws.rb_priority := Aws.rb_priority b;
     Aws.rb_conditions := Aws.rb_conditions b;
     Aws.rb_actions := List.map Aws.hide_secret (Aws.rb_actions b) |}.

Definition oidc_body (b : Aws.RuleBody) : bool :=
  existsb (fun a => String.eqb (ActionType a) "authenticate-oidc") (Aws.rb_actions b).

Definition body_content (b : Aws.RuleBody) : option Z * list Condition * list Action :=
  (Some (Aws.rb_priority b), Aws.rb_conditions b, List.map Aws.hide_secret (Aws.rb_actions b)).

(** ** Sample inputs *)

Module Sample.

Definition oidc_section : OidcSection :=
  {| client_id := Some "shop-client"; issuer := Some "https://idp.example.com";
     endpoints :=
       Some {| authorization := Some "https://idp.example.com/authorize";
               token := Some "https://idp.example.com/token";
               userinfo := Some "https://idp.example.com/userinfo" |};
     session :=
       Some {| cookie_name := Some "AWSELBAuthSessionCookie";
               timeout := Some 3600%Z; scope := Some "openid" |} |}.

Definition config : Config :=
  {| application_name := "shop"; application_environment := "prod";
     aws_platform := "64bit Amazon Linux 2023 v4.0.0 running Docker";
     instance_elb_type := "application";
     oidc := Some oidc_section |}.

Definition env_tag : Tag :=
  {| Key := "elasticbeanstalk:environment-name"; TagValue := "prod" |}.

(** Nothing deployed yet. *)
Definition empty : Aws.Platform :=
  {| Aws.top := {| Aws.environments := []; Aws.load_balancers := ∅; Aws.listeners := ∅;
                   Aws.target_groups := []; Aws.certificates := ∅; Aws.project := "shop";
                   Aws.typed_secret := "" |};
     Aws.default_actions := ∅; Aws.rules := ∅ |}.

(** One environment behind an application load balancer with an HTTPS
    listener only, and one forwarding rule left on it. *)
Definition https_only : Aws.Platform :=
  {| Aws.top :=
       {| Aws.environments := [ {| EnvironmentName := "prod"; EnvStatus := "Ready" |} ];
          Aws.load_balancers :=
            {[ "lb-1" := {| Aws.bi_type := "application"; Aws.bi_tags := [env_tag] |} ]};
          Aws.listeners :=
            {[ "ls-443" := {| Aws.li_balancer := "lb-1"; Aws.li_port := 443;
                              Aws.li_certificates := ["cert-1"] |} ]};
          Aws.target_groups := [ ("lb-1", {| TargetGroupArn_ := "tg-1" |}) ];
          Aws.certificates := {[ "cert-1" := {| DomainName := "*.example.com" |} ]};
          Aws.project := "shop";
          Aws.typed_secret := "s3cret" |};
     Aws.default_actions := {[ "ls-443" := [forward_action "tg-1" None] ]};
     Aws.rules :=
       {[ "rule-a" := {| Aws.rb_listener := "ls-443"; Aws.rb_priority := 5;
                         Aws.rb_conditions := [all_paths];
                         Aws.rb_actions := [forward_action "tg-1" (Some 1%Z)] |} ]} |}.

(** The same with a port-80 listener beside the HTTPS one. *)
Definition with_http : Aws.Platform :=
  {| Aws.top :=
       {| Aws.environments := Aws.environments (Aws.top https_only);
          Aws.load_balancers := Aws.load_balancers (Aws.top https_only);
          Aws.listeners :=
            <[ "ls-80" := {| Aws.li_balancer := "lb-1"; Aws.li_port := 80;
                             Aws.li_certificates := [] |} ]>
              (Aws.listeners (Aws.top https_only));
          Aws.target_groups := Aws.target_groups (Aws.top https_only);
          Aws.certificates := Aws.certificates (Aws.top https_only);
          Aws.project := "shop";
          Aws.typed_secret := "s3cret" |};
     Aws.default_actions :=
       <[ "ls-80" := [forward_action "tg-1" None] ]> (Aws.default_actions https_only);
     Aws.rules := Aws.rules https_only |}.

(** Only the client id is set. *)
Definition only_client_id : gmap string string := {[ "LB_OIDC_CLIENT_ID" := "shop-client" ]}.

Definition legacy : list (string * string) :=
  [ ("OIDC_CLIENT_ID", "LB_OIDC_CLIENT_ID");
    ("OIDC_CLIENT_SECRET", "LB_OIDC_CLIENT_SECRET");
    ("OIDC_ISSUER", "LB_OIDC_ISSUER") ].

Definition oidc_rule : Rule :=
  {| RuleArn := "rule-oidc"; Priority := Some 1%Z; Conditions := [all_paths];
     Actions := [forward_action "tg-1" (Some 1%Z)]; IsDefault := Some false |}.

(** The environment exists and has a snapshot to preserve. *)
Definition existing_env : Script :=
  {| existing := ["prod"]; legacy_names := legacy; settings_of := fun _ => [];
     balancer := Some "lb-1"; snapshot := Some [oidc_rule]; ready := true |}.

(** No environment yet. *)
Definition fresh_env : Script :=
  {| existing := []; legacy_names := legacy; settings_of := fun _ => [];
     balancer := None; snapshot := None; ready := true |}.

(** The platform with the gate in place, and the snapshot
    [preserve_env_state] takes of it. *)
(** The dictionary [configure_oidc_auth] builds from [config] when no
    variable is set and no secret is passed, and the action it makes of it
    once the secret was typed in. *)
Definition oidc_dict : OidcDict :=
  {| oc_client_id := "shop-client"; oc_client_secret := "";
     oc_issuer := "https://idp.example.com";
     oc_authorization := "https://idp.example.com/authorize";
     oc_token := "https://idp.example.com/token";
     oc_userinfo := "https://idp.example.com/userinfo";
     oc_session := {| cookie_name := Some "AWSELBAuthSessionCookie";
                      timeout := Some 3600%Z; scope := Some "openid" |} |}.

Definition auth : option Z -> Action :=
  authenticate_oidc (with_client_secret oidc_dict "s3cret")
    "AWSELBAuthSessionCookie" 3600 "openid".

Definition gated : Aws.Platform :=
  secured with_http "ls-443" "lb-1" "tg-1" auth.

Definition taken : EnvState :=
  Eval vm_compute in
    match outcome (run aws (preserve_env_state "prod" "shop") gated) with
    | inr (Some st) => st
    | _ => {| https_config_of := []; load_balancer_arn := "" |}
    end.

(** The environment exists but nothing is tagged with its name. *)
Definition untagged : Aws.Platform :=
  {| Aws.top :=
       {| Aws.environments := Aws.environments (Aws.top https_only);
          Aws.load_balancers :=
            {[ "lb-9" := {| Aws.bi_type := "application"; Aws.bi_tags := [] |} ]};
          Aws.listeners := ∅; Aws.target_groups := []; Aws.certificates := ∅;
          Aws.project := "shop"; Aws.typed_secret := "" |};
     Aws.default_actions := ∅; Aws.rules := ∅ |}.

(** Two polls in progress, then processed; and a version that is not there. *)
Definition processed_at_2 (n : nat) : list ApplicationVersion :=
  match n with
  | 0 | 1 => [ {| VersionLabel := "v1"; Status := "PROCESSING" |} ]
  | _ => [ {| VersionLabel := "v1"; Status := "PROCESSED" |} ]
  end.

Definition absent_at_1 (n : nat) : list ApplicationVersion :=
  match n with
  | 0 => [ {| VersionLabel := "v1"; Status := "PROCESSING" |} ]
  | _ => []
  end.

End Sample.

(** ** Further readings of the two modules *)

(** Lines 39-41 of [check_oidc_vars] as a change of the environment alone. *)
Fixpoint remapped (var_mapping : list (string * string)) (environ : gmap string string)
  : gmap string string :=
  match var_mapping with
  | [] => environ
  | (old_name, new_name) :: rest =>
      match environ !! old_name, environ !! new_name with
      | Some v, None => remapped rest (<[new_name := v]> environ)
      | _, _ => remapped rest environ
      end
  end.

Definition required_names : list string := List.map snd required_vars.

(** The seconds slept, call by call. *)
Fixpoint sleeps (tr : list event) : list Z :=
  match tr with
  | [] => []
  | Event (sleep seconds) _ :: rest => seconds :: sleeps rest
  | _ :: rest => sleeps rest
  end.

(** The polls of the version service: application and labels asked for. *)
Fixpoint polled (tr : list event) : list (string * list string) :=
  match tr with
  | [] => []
  | Event (describe_application_versions app_name labels) _ :: rest =>
      (app_name, labels) :: polled rest
  | _ :: rest => polled rest
  end.

Definition prompt : string := newline +:+ "Please enter your OIDC client secret: ".

(** A line of the ignore file that holds nothing: blank, or a comment. *)
Definition holds_nothing (line : string) : bool :=
  negb (Py.truthy (Py.strip line)) || Py.startswith "#" (Py.strip line).

(** An environment that still uses one legacy name. *)
Definition legacy_environment : gmap string string :=
  <[ "OIDC_ISSUER" := "https://idp.example.com" ]> Sample.only_client_id.

(** ** Reading a run of [configure_oidc_auth] *)

(** The secret that is there without asking for it: the argument, else the
    current variable, else the legacy one; an empty string counts as
    absent. *)
Definition given_secret (client_secret : option string) (environ : gmap string string)
  : option string :=
  if truthy_opt_str client_secret then client_secret
  else match env_truthy environ "LB_OIDC_CLIENT_SECRET" with
       | Some s => Some s
       | None => env_truthy environ "OIDC_CLIENT_SECRET"
       end.

(** The rules line 244 lets through: [not rule.get("IsDefault", False)]. *)
Definition removable (rule : Rule) : bool := negb (default false (IsDefault rule)).

(** The answer that ends the lookups: a target group of the balancer. *)
Definition is_target_group_answer (ev : event) : bool :=
  match ev with
  | Event (describe_target_groups _) (inr (_ :: _)) => true
  | _ => false
  end.

(** No call changes a listener or a rule before a target group was answered:
    [seen] says whether the answer has been seen. *)
Fixpoint mutations_follow_lookup (seen : bool) (tr : list event) : bool :=
  match tr with
  | [] => true
  | ev :: rest =>
      (if is_mutation (call_of ev) then seen else true) &&
      mutations_follow_lookup (seen || is_target_group_answer ev) rest
  end.

Definition is_delete (c : call) : bool :=
  match c with delete_rule _ => true | _ => false end.

(** A section whose ["session"] has no ["cookie_name"]. *)
Definition no_cookie_name : Config :=
  {| application_name := "shop"; application_environment := "prod";
     aws_platform := "64bit Amazon Linux 2023 v4.0.0 running Docker";
     instance_elb_type := "application";
     oidc := Some {| client_id := client_id Sample.oidc_section;
                     issuer := issuer Sample.oidc_section;
                     endpoints := endpoints Sample.oidc_section;
                     session := Some {| cookie_name := None; timeout := Some 3600%Z;
                                        scope := Some "openid" |} |} |}.

(** ** ship.py: the deployment itself

    [ensure_instance_profile], [create_eb_cli_config], the file side of
    [create_app_bundle] and [deploy_application] call the IAM and S3 clients,
    the file system and the helpers of [common.py] and [configure.py] besides
    what the functions above call.  Their programs are [ship_prog]s: trees over
    [ship_call], which holds a [call] of the first kind or one of the further
    ones. *)

(** A file-system path as [pathlib] builds it: a starting point and the names
    joined to it with [/]. *)
Inductive Path : Type :=
| Root (s : string)
| Sub (parent : Path) (name : string).

(** A value of a YAML document. *)
#[warnings="-register-all"]
Inductive yaml : Type :=
| YNull
| YBool (b : bool)
| YInt (n : Z)
| YStr (s : string)
| YSeq (items : list yaml)
| YMap (entries : gmap string yaml).

Record Role := { RoleName : string }.

(** [profile['InstanceProfile']]; the source reads [Roles] with [.get]. *)
Record InstanceProfile := { Roles : option (list Role) }.

Record ApplicationDescription := { AppName : string }.

(** [config['iam']] *)
Record IamSection := {
  service_role_name : string;
  service_role_policies : list string;
  instance_profile_name : string;
  instance_role_name : string;
  instance_role_policies : list string }.

(** [config['elasticbeanstalk_cli']]: a mapping; its entry [global], when
    there is one, is a mapping too. *)
Record CliSection := {
  cli_global : option (gmap string yaml);
  cli_rest : gmap string yaml }.

(** The configuration [deploy_application] reads: what [Config] holds, the
    region, the IAM names, the optional description of the application and
    the optional section for the EB CLI. *)
Record DeployConfig := {
  settings : Config;
  aws_region : string;
  iam : IamSection;
  application_description : option string;
  elasticbeanstalk_cli : option CliSection }.

Inductive ship_call : Type :=
| on_platform (c : call)
(* common.py and configure.py *)
| manage_iam_role (role_name : string) (policies : list string)
| get_project_root
| get_aws_clients (config : DeployConfig)
| get_eb_cli_platform_name (platform : string)
(* the IAM client *)
| get_instance_profile (InstanceProfileName : string)
| remove_role_from_instance_profile (InstanceProfileName role_name : string)
| add_role_to_instance_profile (InstanceProfileName role_name : string)
| create_instance_profile (InstanceProfileName : string)
(* the Elastic Beanstalk client *)
| describe_applications (ApplicationNames : list string)
| create_application (ApplicationName Description : string)
| create_application_version (ApplicationName VersionLabel S3Bucket S3Key : string)
    (Process : bool)
(* the S3 client *)
| head_bucket (Bucket : string)
| create_bucket (Bucket : string) (LocationConstraint : option string)
| upload_fileobj (file : Path) (Bucket Key : string)
(* files, archives, the clock *)
| mkdir (path : Path) (exist_ok : bool)
| write_yaml (path : Path) (document : yaml)
| print_path (text : string) (path : Path)
| path_exists (path : Path)
| read_lines (path : Path)
| gettempdir
| now_stamp
| zip_open (path : Path)
| walk (top : Path)
| zip_write (archive : Path) (rel_path : string)
| zip_close (archive : Path)
| os_remove (path : Path).

Definition ship_response (c : ship_call) : Type :=
  match c with
  | on_platform c => response c
  | get_project_root => Path
  | get_eb_cli_platform_name _ | gettempdir | now_stamp => string
  | get_instance_profile _ => InstanceProfile
  | describe_applications _ => list ApplicationDescription
  | path_exists _ => bool
  | read_lines _ | walk _ => list string
  | manage_iam_role _ _ | get_aws_clients _ | remove_role_from_instance_profile _ _
  | add_role_to_instance_profile _ _ | create_instance_profile _ | create_application _ _
  | create_application_version _ _ _ _ _ | head_bucket _ | create_bucket _ _
  | upload_fileobj _ _ _ | mkdir _ _ | write_yaml _ _ | print_path _ _ | zip_open _
  | zip_write _ _ | zip_close _ | os_remove _ => unit
  end.

Inductive ship_prog (A : Type) : Type :=
| Done (a : A)
| Fail (e : exn)
| Ask (c : ship_call) (k : exn + ship_response c -> ship_prog A).

Arguments Done {A} a.
Arguments Fail {A} e.
Arguments Ask {A} c k.

Fixpoint ship_bind {A B} (m : ship_prog A) (f : A -> ship_prog B) : ship_prog B :=
  match m with
  | Done a => f a
  | Fail e => Fail e
  | Ask c k => Ask c (fun r => ship_bind (k r) f)
  end.

Definition ship_invoke (c : ship_call) : ship_prog (ship_response c) :=
  Ask c (fun r => match r with inl e => Fail e | inr x => Done x end).

Notation "'let+' x ':=' m 'in' k" := (ship_bind m (fun x => k))
  (at level 10, x name, m at level 100, k at level 200).
Notation "m >>+ k" := (ship_bind m (fun _ => k))
  (at level 90, right associativity).

(** A function of the first kind, called from here. *)
Fixpoint lift {A} (p : prog A) : ship_prog A :=
  match p with
  | Ret a => Done a
  | Raise e => Fail e
  | Vis c k => Ask (on_platform c) (fun r => lift (k r))
  end.

(** [try: p except Exception as e: except_ e] *)
Fixpoint attempt {A} (p : ship_prog A) (except_ : exn -> ship_prog A) : ship_prog A :=
  match p with
  | Done a => Done a
  | Fail e => except_ e
  | Ask c k => Ask c (fun r => attempt (k r) except_)
  end.

(** Modelled from the spec: the [aws_handler] decorator, as above. *)
Fixpoint ship_aws_handler {A} (p : ship_prog A) : ship_prog A :=
  match p with
  | Done a => Done a
  | Fail e => Fail (wrap_client_error e)
  | Ask c k => Ask c (fun r => ship_aws_handler (k r))
  end.

Fixpoint ship_for_each {A} (l : list A) (body : A -> ship_prog unit) : ship_prog unit :=
  match l with
  | [] => Done tt
  | x :: rest => body x >>+ ship_for_each rest body
  end.

Inductive ship_event : Type :=
| ShipEvent (c : ship_call) (r : exn + ship_response c).

Definition ship_handler (W : Type) : Type :=
  forall c : ship_call, W -> (exn + ship_response c) * W.

Fixpoint ship_run {W A} (h : ship_handler W) (p : ship_prog A) (w : W)
  : (exn + A) * W * list ship_event :=
  match p with
  | Done a => (inr a, w, [])
  | Fail e => (inl e, w, [])
  | Ask c k =>
      let '(r, w1) := h c w in
      let '(res, w2, tr) := ship_run h (k r) w1 in
      (res, w2, ShipEvent c r :: tr)
  end.

Definition asked (ev : ship_event) : ship_call := match ev with ShipEvent c _ => c end.

(** *** [ensure_instance_profile], lines 95-130 *)

(** [not roles or roles[0]['RoleName'] != role_name] *)
Definition role_missing (roles : list Role) (role_name : string) : bool :=
  match roles with
  | [] => true
  | first :: _ => negb (String.eqb (RoleName first) role_name)
  end.

(** Lines 105-120, the body of the [try]. *)
Definition attach_role (profile_name role_name : string) : ship_prog unit :=
  ship_invoke (get_instance_profile profile_name) >>+
  let+ profile := ship_invoke (get_instance_profile profile_name) in
  let roles := default [] (Roles profile) in
  if role_missing roles role_name then
    ship_for_each roles (fun existing_role =>
      ship_invoke (remove_role_from_instance_profile profile_name (RoleName existing_role))) >>+
    ship_invoke (add_role_to_instance_profile profile_name role_name)
  else Done tt.

(** Lines 121-130, the [except ClientError as e] clause. *)
Definition create_profile (profile_name role_name : string) (e : exn) : ship_prog unit :=
  match e with
  | ClientError code _ =>
      if String.eqb code "NoSuchEntity" then
        ship_invoke (create_instance_profile profile_name) >>+
        ship_invoke (add_role_to_instance_profile profile_name role_name) >>+
        ship_invoke (on_platform (sleep 10))
      else Fail e
  | _ => Fail e
  end.

Definition ensure_instance_profile (config : DeployConfig) : ship_prog unit :=
  ship_aws_handler (
    let profile_name := instance_profile_name (iam config) in
    let role_name := instance_role_name (iam config) in
    ship_invoke (manage_iam_role role_name (instance_role_policies (iam config))) >>+
    attempt (attach_role profile_name role_name) (create_profile profile_name role_name)).

(** *** [create_eb_cli_config], lines 242-292 *)

Definition placeholder : string := "${EB_CLI_PLATFORM}".

(** Lines 257-279: the document written when the configuration has no
    [elasticbeanstalk_cli] section. *)
Definition default_eb_config (config : DeployConfig) (default_platform : string) : yaml :=
  YMap {[
    "branch-defaults" :=
      YMap {[ "main" :=
                YMap {[ "environment" := YStr (application_environment (settings config));
                        "group_suffix" := YNull ]} ]};
    "global" :=
      YMap {[ "application_name" := YStr (application_name (settings config));
              "branch" := YNull;
              "default_ec2_keyname" := YNull;
              "default_platform" := YStr default_platform;
              "default_region" := YStr (aws_region config);
              "include_git_submodules" := YBool true;
              "instance_profile" := YNull;
              "platform_name" := YNull;
              "platform_version" := YNull;
              "profile" := YNull;
              "repository" := YNull;
              "sc" := YStr "git";
              "workspace_type" := YStr "Application" ]} ]}.

(** The section as a document: [cli_rest] holds its entries other than
    [global]. *)
Definition section_yaml (eb_config : CliSection) : yaml :=
  YMap match cli_global eb_config with
       | Some g => <["global" := YMap g]> (cli_rest eb_config)
       | None => delete "global" (cli_rest eb_config)
       end.

(** [document['global']['default_platform']], when there is one. *)
Definition document_platform (document : yaml) : option yaml :=
  match document with
  | YMap entries =>
      match entries !! "global" with
      | Some (YMap g) => g !! "default_platform"
      | _ => None
      end
  | _ => None
  end.

(** The documents written, in order. *)
Fixpoint documents (tr : list ship_event) : list (Path * yaml) :=
  match tr with
  | [] => []
  | ShipEvent (write_yaml path document) (inr _) :: rest => (path, document) :: documents rest
  | _ :: rest => documents rest
  end.

(** The platform names the host gave. *)
Fixpoint platform_names (tr : list ship_event) : list string :=
  match tr with
  | [] => []
  | ShipEvent (get_eb_cli_platform_name _) (inr name) :: rest => name :: platform_names rest
  | _ :: rest => platform_names rest
  end.

(** Line 287: is the value a string that holds the placeholder? *)
Definition holds_placeholder (platform_value : option yaml) : bool :=
  match platform_value with
  | Some (YStr s) => Py.contains placeholder s
  | _ => false
  end.

(** Line 288 assigns into the section, which is part of [config]: the
    configuration of the caller changes with it. *)
Definition set_default_platform (eb_config : CliSection) (g : gmap string yaml)
    (name : string) : CliSection :=
  {| cli_global := Some (<["default_platform" := YStr name]> g);
     cli_rest := cli_rest eb_config |}.

Definition with_section (config : DeployConfig) (eb_config : CliSection) : DeployConfig :=
  {| settings := settings config; aws_region := aws_region config; iam := iam config;
     application_description := application_description config;
     elasticbeanstalk_cli := Some eb_config |}.

(** The result is the configuration as the call leaves it. *)
Definition create_eb_cli_config (config : DeployConfig) (project_root : Path)
  : ship_prog DeployConfig :=
  let eb_dir := Sub project_root ".elasticbeanstalk" in
  ship_invoke (mkdir eb_dir true) >>+
  let+ made :=
    match elasticbeanstalk_cli config with
    | None =>
        ship_invoke (on_platform
          (print "Warning: No elasticbeanstalk_cli section found in config.yml")) >>+
        let+ name := ship_invoke (get_eb_cli_platform_name (aws_platform (settings config))) in
        Done (default_eb_config config name, config)
    | Some eb_config =>
        match cli_global eb_config with
        | Some g =>
            if holds_placeholder (g !! "default_platform") then
              let+ name :=
                ship_invoke (get_eb_cli_platform_name (aws_platform (settings config))) in
              let eb_config := set_default_platform eb_config g name in
              Done (section_yaml eb_config, with_section config eb_config)
            else Done (section_yaml eb_config, config)
        | None => Done (section_yaml eb_config, config)
        end
    end in
  ship_invoke (write_yaml (Sub eb_dir "config.yml") made.1) >>+
  ship_invoke (print_path "Created EB CLI configuration in " (Sub eb_dir "config.yml")) >>+
  Done made.2.

(** *** [create_app_bundle], lines 25-93, with its files

    [walk] answers the relative paths of the files below the project root in
    the order [os.walk] yields them; [zip_write] adds one of them to the
    archive under that name.  Leaving the [with] block closes the archive,
    also when the block raises. *)
Definition closing {A} (archive : Path) (block : ship_prog A) : ship_prog A :=
  let+ a :=
    attempt block (fun e => ship_invoke (zip_close archive) >>+ Fail e) in
  ship_invoke (zip_close archive) >>+
  Done a.

(** Lines 28-41: the lines of [.ebignore], when there is one. *)
Definition read_ebignore (project_root : Path) : ship_prog (option (list string)) :=
  let ebignore_path := Sub project_root ".ebignore" in
  let+ found := ship_invoke (path_exists ebignore_path) in
  if found then let+ lines := ship_invoke (read_lines ebignore_path) in Done (Some lines)
  else Done None.

Definition bundle_report (file_count : nat) : string :=
  "Created application bundle with " +:+ pretty file_count +:+ " files".

(** Lines 44-93. *)
Definition write_bundle (project_root : Path) (ebignore : option (list string))
  : ship_prog Path :=
  let+ tmp := ship_invoke gettempdir in
  let+ stamp := ship_invoke now_stamp in
  let bundle_path := Sub (Root tmp) ("app_bundle_" +:+ stamp +:+ ".zip") in
  ship_invoke (zip_open bundle_path) >>+
  let+ file_count :=
    closing bundle_path (
      let+ files := ship_invoke (walk project_root) in
      let members := Bundle.create_app_bundle ebignore files in
      ship_for_each members (fun rel_path => ship_invoke (zip_write bundle_path rel_path)) >>+
      Done (length members)) in
  ship_invoke (on_platform (print (bundle_report file_count))) >>+
  Done bundle_path.

Definition create_app_bundle : ship_prog Path :=
  let+ project_root := ship_invoke get_project_root in
  let+ ebignore := read_ebignore project_root in
  write_bundle project_root ebignore.

(** *** [deploy_application], lines 294-359 *)

Definition bucket_name (region app_name : string) : string :=
  "elasticbeanstalk-" +:+ region +:+ "-" +:+ Py.lower app_name.

Definition version_label (stamp : string) : string := "v" +:+ stamp.

Definition bundle_key (version : string) : string := "app-" +:+ version +:+ ".zip".

(** Lines 334-342. *)
Definition ensure_bucket (region bucket : string) : ship_prog unit :=
  attempt (ship_invoke (head_bucket bucket))
    (fun e =>
       match e with
       | ClientError _ _ =>
           ship_invoke (create_bucket bucket
             (if negb (String.eqb region "us-east-1") then Some region else None))
       | _ => Fail e
       end).

(** Lines 323-328. *)
Definition ensure_application (config : DeployConfig) : ship_prog unit :=
  let app_name := application_name (settings config) in
  let+ applications := ship_invoke (describe_applications [app_name]) in
  if negb (nonempty applications) then
    ship_invoke (create_application app_name
      (default "Application created by deployment script" (application_description config)))
  else Done tt.

(** Lines 344-356. *)
Definition publish_version (app_name version bucket : string) : ship_prog unit :=
  let+ bundle := create_app_bundle in
  let key := bundle_key version in
  ship_invoke (upload_fileobj bundle bucket key) >>+
  ship_invoke (os_remove bundle) >>+
  ship_invoke (create_application_version app_name version bucket key true).

(** Lines 314-359, once the EB CLI configuration is written.  [fuel] bounds
    the polls of [wait_for_version] that are followed; the result is [None]
    when the version is still being processed then. *)
Definition release (fuel : nat) (region : string) (config : DeployConfig)
    (project_name : string) : ship_prog (option unit) :=
  ship_invoke (manage_iam_role (service_role_name (iam config))
                 (service_role_policies (iam config))) >>+
  ensure_instance_profile config >>+
  let app_name := application_name (settings config) in
  ensure_application config >>+
  let+ stamp := ship_invoke now_stamp in
  let version := version_label stamp in
  let bucket := bucket_name region app_name in
  ensure_bucket region bucket >>+
  publish_version app_name version bucket >>+
  let+ processed := lift (wait_for_version fuel app_name version) in
  match processed with
  | None => Done None
  | Some _ =>
      lift (create_or_update_env (settings config) version project_name) >>+
      Done (Some tt)
  end.

Definition deploy_application (fuel : nat) (config : DeployConfig) : ship_prog (option unit) :=
  let+ project_name := ship_invoke (on_platform get_project_name) in
  let region := aws_region config in
  let platform := aws_platform (settings config) in
  let+ project_root := ship_invoke get_project_root in
  ship_invoke (on_platform (print ("Deploying to region: " +:+ region))) >>+
  ship_invoke (on_platform (print ("Using platform: " +:+ platform))) >>+
  ship_invoke (get_aws_clients config) >>+
  let+ config := create_eb_cli_config config project_root in
  release fuel region config project_name.

(** *** What a run shows *)

Definition ship_calls (tr : list ship_event) : list ship_call := List.map asked tr.

(** The lines the ignore file was read to hold, and the files the walk
    answered, when there was such an answer. *)
Fixpoint lines_read (tr : list ship_event) : option (list string) :=
  match tr with
  | [] => None
  | ShipEvent (read_lines _) (inr lines) :: _ => Some lines
  | _ :: rest => lines_read rest
  end.

Fixpoint walked (tr : list ship_event) : option (list string) :=
  match tr with
  | [] => None
  | ShipEvent (walk _) (inr files) :: _ => Some files
  | _ :: rest => walked rest
  end.

(** The members written to one archive, in order. *)
Fixpoint written (tr : list ship_event) : list string :=
  match tr with
  | [] => []
  | ShipEvent (zip_write _ rel_path) (inr _) :: rest => rel_path :: written rest
  | _ :: rest => written rest
  end.

(** *** An in-memory IAM: the instance profiles with the roles attached to
    each, and the roles that exist.  An instance profile holds one role at
    most. *)
Record Iam := {
  roles_known : gset string;
  profiles : gmap string (list string) }.

Definition no_such_entity (what : string) : exn := ClientError "NoSuchEntity" what.

Definition ship_quiet (c : ship_call) : ship_response c :=
  match c with
  | on_platform c => quiet c
  | get_project_root => Root "/srv/app"
  | get_eb_cli_platform_name _ | gettempdir | now_stamp => ""
  | get_instance_profile _ => {| Roles := None |}
  | describe_applications _ => []
  | path_exists _ => false
  | read_lines _ | walk _ => []
  | manage_iam_role _ _ | get_aws_clients _ | remove_role_from_instance_profile _ _
  | add_role_to_instance_profile _ _ | create_instance_profile _ | create_application _ _
  | create_application_version _ _ _ _ _ | head_bucket _ | create_bucket _ _
  | upload_fileobj _ _ _ | mkdir _ _ | write_yaml _ _ | print_path _ _ | zip_open _
  | zip_write _ _ | zip_close _ | os_remove _ => tt
  end.

Definition with_profiles (s : Iam) (p : gmap string (list string)) : Iam :=
  {| roles_known := roles_known s; profiles := p |}.

Definition iam_client : ship_handler Iam :=
  fun c s =>
    match c with
    | manage_iam_role role_name _ =>
        (inr tt, {| roles_known := {[role_name]} ∪ roles_known s; profiles := profiles s |})
    | get_instance_profile name =>
        (match profiles s !! name with
         | Some roles => inr {| Roles := Some (List.map Build_Role roles) |}
         | None => inl (no_such_entity name)
         end, s)
    | remove_role_from_instance_profile name role =>
        match profiles s !! name with
        | Some roles =>
            if in_list role roles
            then (inr tt, with_profiles s
                            (<[name := List.filter (fun r => negb (String.eqb r role)) roles]>
                               (profiles s)))
            else (inl (no_such_entity role), s)
        | None => (inl (no_such_entity name), s)
        end
    | add_role_to_instance_profile name role =>
        match profiles s !! name with
        | Some roles =>
            if negb (bool_decide (role ∈ roles_known s)) then (inl (no_such_entity role), s)
            else if nonempty roles then (inl (ClientError "LimitExceeded" name), s)
            else (inr tt, with_profiles s (<[name := [role]]> (profiles s)))
        | None => (inl (no_such_entity name), s)
        end
    | create_instance_profile name =>
        match profiles s !! name with
        | Some _ => (inl (ClientError "EntityAlreadyExists" name), s)
        | None => (inr tt, with_profiles s (<[name := []]> (profiles s)))
        end
    | c => (inr (ship_quiet c), s)
    end.

(** A configuration and an account to try the deployment on. *)
Definition sample_iam : IamSection :=
  {| service_role_name := "shop-service"; service_role_policies := ["service-policy"];
     instance_profile_name := "shop-profile"; instance_role_name := "shop-instance";
     instance_role_policies := ["web-tier"] |}.

Definition sample_deploy : DeployConfig :=
  {| settings := Sample.config; aws_region := "eu-west-1"; iam := sample_iam;
     application_description := None;
     elasticbeanstalk_cli :=
       Some {| cli_global := Some {[ "default_platform" := YStr "${EB_CLI_PLATFORM}" ]};
               cli_rest := ∅ |} |}.

Definition other_role_attached : Iam :=
  {| roles_known := {["old-role"]}; profiles := {[ "shop-profile" := ["old-role"] ]} |}.

(** An event of a function of the first kind, seen from here. *)
Definition lifted (ev : event) : ship_event :=
  match ev with Event c r => ShipEvent (on_platform c) r end.

Definition ship_outcome {W A} (x : (exn + A) * W * list ship_event) : exn + A := x.1.1.
Definition ship_final {W A} (x : (exn + A) * W * list ship_event) : W := x.1.2.
Definition ship_trace {W A} (x : (exn + A) * W * list ship_event) : list ship_event := x.2.

(** A host on which every call succeeds; it names the platform [name]. *)
Definition host (name : string) : ship_handler unit :=
  fun c w =>
    match c with
    | get_eb_cli_platform_name _ => (inr name, w)
    | c => (inr (ship_quiet c), w)
    end.

Definition sample_section : CliSection :=
  {| cli_global := Some {[ "default_platform" := YStr "Docker" ]}; cli_rest := ∅ |}.

Definition sample_deployed : DeployConfig := with_section sample_deploy sample_section.

#[global] Instance Path_eq_dec : EqDecision Path.
Proof. solve_decision. Defined.

(** The archives still open at the end of a run, given those open at its
    start: [zip_open] that succeeded opens one, a call of [zip_close] closes
    it. *)
Fixpoint still_open (opened : list Path) (tr : list ship_event) : list Path :=
  match tr with
  | [] => opened
  | ShipEvent (zip_open path) (inr _) :: rest => still_open (path :: opened) rest
  | ShipEvent (zip_close path) _ :: rest =>
      still_open (List.filter (fun p => negb (bool_decide (p = path))) opened) rest
  | _ :: rest => still_open opened rest
  end.

(** *** The order of a deployment *)

(** A program all of whose calls satisfy [Q]. *)
Fixpoint ship_only {A} (Q : ship_call -> bool) (p : ship_prog A) : Prop :=
  match p with
  | Done _ | Fail _ => True
  | Ask c k => Q c = true /\ forall r, ship_only Q (k r)
  end.

Definition is_registration (c : ship_call) : bool :=
  match c with create_application_version _ _ _ _ _ => true | _ => false end.

Definition is_env_change (c : call) : bool :=
  match c with
  | update_environment _ _ _ | create_environment _ _ _ _ _ => true
  | _ => false
  end.

(** The calls the rules of [in_order] say nothing about. *)
Definition plain (c : ship_call) : bool :=
  match c with
  | create_application_version _ _ _ _ _ | create_bucket _ _ | create_application _ _ => false
  | on_platform c => negb (is_env_change c)
  | _ => true
  end.

(** The version was registered, and reported as processed, in [pre]. *)
Definition registered_before (pre : list ship_event) (app_name version : string) : Prop :=
  exists bucket key,
    In (ShipEvent (create_application_version app_name version bucket key true) (inr tt)) pre.

Definition processed_before (pre : list ship_event) (app_name version : string) : Prop :=
  exists versions,
    In (ShipEvent (on_platform (describe_application_versions app_name [version]))
          (inr versions)) pre /\
    has_status "PROCESSED" versions = true.

(** What must have come before a call that creates the application, the
    bucket or the version, or that creates or updates the environment; [pre]
    is the run up to the call. *)
Definition in_order (config : DeployConfig) (pre : list ship_event) (ev : ship_event) : Prop :=
  let app_name := application_name (settings config) in
  let region := aws_region config in
  match ev with
  | ShipEvent (create_application a d) _ =>
      a = app_name /\
      d = default "Application created by deployment script" (application_description config) /\
      In (ShipEvent (describe_applications [app_name]) (inr [])) pre
  | ShipEvent (create_bucket b location) _ =>
      b = bucket_name region app_name /\
      location = (if negb (String.eqb region "us-east-1") then Some region else None) /\
      exists code msg, In (ShipEvent (head_bucket b) (inl (ClientError code msg))) pre
  | ShipEvent (create_application_version a v b k p) _ =>
      a = app_name /\ b = bucket_name region app_name /\ k = bundle_key v /\ p = true /\
      (exists stamp, v = version_label stamp /\ In (ShipEvent now_stamp (inr stamp)) pre) /\
      (exists bundle,
         In (ShipEvent (upload_fileobj bundle b k) (inr tt)) pre /\
         In (ShipEvent (os_remove bundle) (inr tt)) pre) /\
      forall earlier, In earlier pre -> is_registration (asked earlier) = false
  | ShipEvent (on_platform (update_environment e v _)) _ =>
      e = application_environment (settings config) /\
      registered_before pre app_name v /\ processed_before pre app_name v
  | ShipEvent (on_platform (create_environment a e v platform _)) _ =>
      a = app_name /\ e = application_environment (settings config) /\
      platform = aws_platform (settings config) /\
      registered_before pre app_name v /\ processed_before pre app_name v
  | _ => True
  end.

(** Every call of the stretch [t], which follows [before], is in order. *)
Definition all_in_order (config : DeployConfig) (before t : list ship_event) : Prop :=
  forall pre ev post, t = pre ++ ev :: post -> in_order config (before ++ pre) ev.

(** What [create_or_update_env] may send for one configuration and version:
    a call that creates or updates the environment names this environment
    and this version. *)
Definition deploys (config : Config) (version : string) (c : call) : bool :=
  match c with
  | update_environment e v _ =>
      String.eqb e (application_environment config) && String.eqb v version
  | create_environment a e v platform _ =>
      String.eqb a (application_name config) && String.eqb e (application_environment config) &&
      String.eqb v version && String.eqb platform (aws_platform config)
  | _ => true
  end.

(** An account with nothing in it: no application, no bucket, no
    environment; a version is processed as soon as it is registered. *)
Definition processed_feed : handler unit :=
  fun c w =>
    match c with
    | describe_application_versions _ labels =>
        (inr (List.map (fun label => {| VersionLabel := label; Status := "PROCESSED" |}) labels), w)
    | c => (inr (quiet c), w)
    end.

Definition fresh_account : ship_handler unit :=
  fun c w =>
    match c with
    | on_platform c => processed_feed c w
    | head_bucket _ => (inl (ClientError "404" "Not Found"), w)
    | now_stamp => (inr "20240101_120000", w)
    | gettempdir => (inr "/tmp", w)
    | get_eb_cli_platform_name _ => (inr "Docker", w)
    | c => (inr (ship_quiet c), w)
    end.

(** The run of the sample deployment on it. *)
Definition sample_run : list ship_event :=
  ship_trace (ship_run fresh_account (deploy_application 3 sample_deploy) tt).
(** ** Running programs: general facts *)

Section RunFacts.
Context {W : Type} (h : handler W).

Lemma run_bind {A B} (m : prog A) (f : A -> prog B) (w : W) :
  run h (bind m f) w =
  match run h m w with
  | (inr a, w1, t1) =>
      let '(res, w2, t2) := run h (f a) w1 in (res, w2, t1 ++ t2)
  | (inl e, w1, t1) => (inl e, w1, t1)
  end.
Proof.
  revert w. induction m as [a|e|c k IH]; intros w; simpl.
  - destruct (run h (f a) w) as [[res w2] t2]. reflexivity.
  - reflexivity.
  - destruct (h c w) as [r w1]. rewrite IH.
    destruct (run h (k r) w1) as [[[e|a] w2] t1]; [reflexivity|].
    destruct (run h (f a) w2) as [[res w3] t2]. reflexivity.
Qed.

Lemma run_invoke (c : call) (w : W) :
  run h (invoke c) w = ((h c w).1, (h c w).2, [Event c (h c w).1]).
Proof.
  unfold invoke. simpl. destruct (h c w) as [[e|x] w1]; reflexivity.
Qed.

Lemma run_aws_handler {A} (p : prog A) (w : W) :
  run h (aws_handler p) w =
  match run h p w with
  | (inr a, w1, t) => (inr a, w1, t)
  | (inl e, w1, t) => (inl (wrap_client_error e), w1, t)
  end.
Proof.
  revert w. induction p as [a|e|c k IH]; intros w; simpl; try reflexivity.
  destruct (h c w) as [r w1]. rewrite IH.
  destruct (run h (k r) w1) as [[[e|a] w2] t]; reflexivity.
Qed.
End RunFacts.

(** ** The platform: reading *)

Lemma filter_none {A} (f : A -> bool) (l : list A) :
  (forall x, In x l -> f x = false) -> List.filter f l = [].
Proof.
  induction l as [|x l IH]; intros H; [reflexivity|].
  simpl. rewrite (H x) by (left; reflexivity). apply IH.
  intros y Hy. apply H. right. exact Hy.
Qed.

Lemma in_list_single (x y : string) : in_list x [y] = String.eqb x y.
Proof. unfold in_list. simpl. apply orb_false_r. Qed.

Lemma describe_tags_known (P : Aws.Platform) (arn : string) (lb : Aws.BalancerInfo) :
  Aws.load_balancers (Aws.top P) !! arn = Some lb ->
  aws (describe_tags [arn]) P = (inr [ {| Tags := Aws.bi_tags lb |} ], P).
Proof.
  intros H. cbn. unfold Aws.tags_of. rewrite H. reflexivity.
Qed.

Lemma find_env_lb_untagged (P : Aws.Platform) (env_name : string)
    (l : list (string * Aws.BalancerInfo)) :
  (forall x, In x l -> Aws.load_balancers (Aws.top P) !! x.1 = Some x.2) ->
  (forall x, In x l -> Aws.tagged_to env_name x.2 = false) ->
  exists tr, run aws (find_env_lb env_name (List.map Aws.render_balancer l)) P = (inr None, P, tr).
Proof.
  induction l as [|x l IH]; intros Hk Hu; [eexists; reflexivity|].
  destruct IH as [tr IH].
  { intros y Hy. apply Hk. right. exact Hy. }
  { intros y Hy. apply Hu. right. exact Hy. }
  pose proof (Hu x (or_introl eq_refl)) as Hx. unfold Aws.tagged_to in Hx.
  cbn [List.map find_env_lb Aws.render_balancer LbType LoadBalancerArn].
  destruct (String.eqb (Py.lower (Aws.bi_type x.2)) "application") eqn:Ht.
  - cbn [negb]. rewrite run_bind, run_invoke.
    rewrite (describe_tags_known P x.1 x.2) by (apply Hk; left; reflexivity).
    cbn [fst snd]. cbn in Hx. cbn [run bind first_item Tags]. rewrite Hx.
    rewrite IH. eexists. reflexivity.
  - cbn [negb]. rewrite IH. eexists. reflexivity.
Qed.

Lemma elem_of_In {A} (x : A) (l : list A) : x ∈ l <-> In x l.
Proof. apply list_elem_of_In. Qed.

(** ** Programs that only read *)

Lemma only_bind {A B} (Q : call -> bool) (m : prog A) (f : A -> prog B) :
  only Q m -> (forall a, only Q (f a)) -> only Q (bind m f).
Proof.
  induction m as [a|e|c k IH]; simpl; intros Hm Hf; [apply Hf|exact I|].
  destruct Hm as [Hc Hk]. split; [exact Hc|]. intros r. apply IH; [apply Hk|exact Hf].
Qed.

Lemma only_invoke (Q : call -> bool) (c : call) : Q c = true -> only Q (invoke c).
Proof.
  intros H. simpl. split; [exact H|]. intros [e|x]; exact I.
Qed.

Lemma only_aws_handler {A} (Q : call -> bool) (p : prog A) : only Q p -> only Q (aws_handler p).
Proof.
  induction p as [a|e|c k IH]; simpl; intros H; try exact I.
  destruct H as [Hc Hk]. split; [exact Hc|]. intros r. apply IH, Hk.
Qed.

Lemma aws_reads_topology (c : call) (P P' : Aws.Platform) :
  reads_topology c = true -> Aws.top P = Aws.top P' ->
  (aws c P).1 = (aws c P').1 /\ (aws c P).2 = P.
Proof.
  intros Hc Htop.
  destruct c; try discriminate Hc; cbn;
    unfold Aws.tags_of, Aws.has_balancer, Aws.listeners_of, Aws.find_listener;
    rewrite ?Htop; split; reflexivity.
Qed.

(** A program that reads the topology gives the same outcome and the same
    trace on two platforms with the same topology, and changes neither. *)
Lemma run_reads_topology {A} (p : prog A) (P P' : Aws.Platform) :
  only reads_topology p -> Aws.top P = Aws.top P' ->
  outcome (run aws p P) = outcome (run aws p P') /\
  trace (run aws p P) = trace (run aws p P') /\
  final (run aws p P) = P.
Proof.
  intros Hp Htop. induction p as [a|e|c k IH]; simpl; try (repeat split; reflexivity).
  destruct Hp as [Hc Hk].
  destruct (aws_reads_topology c P P' Hc Htop) as [Hr Hs].
  destruct (aws_reads_topology c P' P' Hc eq_refl) as [_ Hs'].
  destruct (aws c P) as [r P1], (aws c P') as [r' P1']. cbn in Hr, Hs, Hs'. subst r' P1 P1'.
  destruct (IH r (Hk r)) as (Ho & Ht & Hf).
  destruct (run aws (k r) P) as [[res w2] tr], (run aws (k r) P') as [[res' w2'] tr'].
  cbn in Ho, Ht, Hf |- *. subst. repeat split; reflexivity.
Qed.

Lemma only_first_item {A} (Q : call -> bool) (l : list A) : only Q (first_item l).
Proof. destruct l; exact I. Qed.

Lemma only_find_env_lb (env_name : string) (lbs : list LoadBalancer) :
  only reads_topology (find_env_lb env_name lbs).
Proof.
  induction lbs as [|lb lbs IH]; [exact I|].
  cbn [find_env_lb]. destruct (negb _); [exact IH|].
  apply only_bind; [apply only_invoke; reflexivity|]. intros ds.
  apply only_bind; [apply only_first_item|]. intros d.
  destruct (existsb _ _); [exact I|exact IH].
Qed.

Lemma only_find_listener_arn (env_name : string) :
  only reads_topology (find_listener_arn env_name).
Proof.
  apply only_aws_handler.
  apply only_bind; [apply only_invoke; reflexivity|]. intros _.
  apply only_bind; [apply only_invoke; reflexivity|]. intros envs.
  destruct (negb _).
  { apply only_bind; [apply only_invoke; reflexivity|]. intros _. exact I. }
  apply only_bind; [apply only_invoke; reflexivity|]. intros lbs.
  apply only_bind; [apply only_find_env_lb|]. intros [lb|].
  - apply only_bind; [apply only_invoke; reflexivity|]. intros ls.
    destruct (listener_on 443 ls); [exact I|].
    apply only_bind; [apply only_invoke; reflexivity|]. intros _. exact I.
  - apply only_bind; [apply only_invoke; reflexivity|]. intros _. exact I.
Qed.

Lemma only_get_domain_from_listener (listener_arn : string) :
  only reads_topology (get_domain_from_listener listener_arn).
Proof.
  apply only_aws_handler.
  apply only_bind; [apply only_invoke; reflexivity|]. intros ls.
  apply only_bind; [apply only_first_item|]. intros l.
  apply only_bind; [apply only_first_item|]. intros cert_arn.
  apply only_bind; [apply only_invoke; reflexivity|]. intros cert.
  apply only_bind; [apply only_invoke; reflexivity|]. intros name. exact I.
Qed.

Lemma only_find_target_group_arn (load_balancer_arn : string) :
  only reads_topology (find_target_group_arn load_balancer_arn).
Proof.
  apply only_aws_handler.
  apply only_bind; [apply only_invoke; reflexivity|]. intros _.
  apply only_bind; [apply only_invoke; reflexivity|]. intros [|tg tgs]; [|exact I].
  apply only_bind; [apply only_invoke; reflexivity|]. intros _. exact I.
Qed.

Lemma only_resolve_listener (env_name : string) :
  only reads_topology (resolve_listener env_name).
Proof.
  apply only_bind; [apply only_find_listener_arn|]. intros [listener_arn lb].
  destruct (negb _); [exact I|].
  apply only_bind; [apply only_get_domain_from_listener|]. intros domain.
  apply only_bind; [apply only_find_target_group_arn|]. intros tg. exact I.
Qed.

(** The secret phase of [configure_oidc_auth] follows the priority of the
    spec and leaves the platform alone. *)
Lemma resolve_secret_run (client_secret : option string) (environ : gmap string string)
    (P : Aws.Platform) :
  let secret :=
    if truthy_opt_str client_secret then default "" client_secret
    else default "" (environ !! "LB_OIDC_CLIENT_SECRET") in
  let chosen := chosen_secret client_secret environ P in
  exists tr,
    run aws (resolve_secret secret environ) P =
      (if Py.truthy chosen then inr chosen
       else inl (DeploymentError "OIDC client secret is required"), P, tr) /\
    mutations tr = [].
Proof.
  cbv zeta. unfold resolve_secret, get_client_secret, chosen_secret, env_truthy.
  destruct client_secret as [[|a s]|]; cbn;
    destruct (environ !! "LB_OIDC_CLIENT_SECRET") as [[|a1 s1]|]; cbn;
    destruct (environ !! "OIDC_CLIENT_SECRET") as [[|a2 s2]|]; cbn;
    try (eexists; split; reflexivity);
    destruct (Aws.typed_secret (Aws.top P)) as [|a3 s3]; cbn; eexists; split; reflexivity.
Qed.

(** ** The platform: rules *)

Lemma lookup_foldl_delete {A} (m : gmap string A) (l : list string) (k : string) :
  foldl (fun m a => delete a m) m l !! k = if decide (k ∈ l) then None else m !! k.
Proof.
  revert m. induction l as [|a l IH]; intros m.
  - cbn. destruct (decide (k ∈ [])) as [H|H]; [inversion H|reflexivity].
  - cbn [foldl]. rewrite IH.
    destruct (decide (k ∈ l)) as [Hl|Hl].
    + rewrite decide_True by (right; exact Hl). reflexivity.
    + destruct (decide (k = a)) as [->|Hne].
      * rewrite decide_True by left. apply lookup_delete_eq.
      * rewrite decide_False.
        -- apply lookup_delete_ne. congruence.
        -- intros Hin. apply elem_of_cons in Hin as [?|?]; contradiction.
Qed.

Lemma rules_on_elem (P : Aws.Platform) (L k : string) (v : Aws.RuleBody) :
  In (k, v) (Aws.rules_on P L) <-> Aws.rules P !! k = Some v /\ Aws.rb_listener v = L.
Proof.
  unfold Aws.rules_on. rewrite filter_In, <- elem_of_In, elem_of_map_to_list.
  unfold Aws.on_listener. cbn. rewrite String.eqb_eq. reflexivity.
Qed.

Lemma foldl_delete_cleared (P : Aws.Platform) (L : string) :
  foldl (fun m a => delete a m) (Aws.rules P) (Aws.rules_on P L).*1 = cleared P L.
Proof.
  apply map_eq. intros k. rewrite lookup_foldl_delete. unfold cleared.
  destruct (decide (k ∈ (Aws.rules_on P L).*1)) as [Hin|Hin].
  - symmetry. apply map_lookup_filter_None. right. intros v Hv Hne. cbn in Hne.
    apply list_elem_of_fmap in Hin as ([k' v'] & -> & Hin). cbn in Hv.
    apply elem_of_In, rules_on_elem in Hin as [Hk HL]. congruence.
  - destruct (Aws.rules P !! k) as [v|] eqn:Hk.
    + symmetry. apply map_lookup_filter_Some. split; [exact Hk|]. cbn. intros HL.
      apply Hin. apply list_elem_of_fmap. exists (k, v). split; [reflexivity|].
      apply elem_of_In, rules_on_elem. split; assumption.
    + symmetry. apply map_lookup_filter_None. left. exact Hk.
Qed.

Lemma with_rules_same (P : Aws.Platform) : Aws.with_rules P (Aws.rules P) = P.
Proof. destruct P. reflexivity. Qed.

(** The loop of lines 243-247 over the description of a listener's rules:
    every rule that is not the default one is deleted, none fails. *)
Lemma remove_rules_run (l : list (string * Aws.RuleBody)) (d : Rule) (P : Aws.Platform) (n : nat) :
  NoDup l.*1 ->
  (forall x, In x l -> Aws.rules P !! x.1 = Some x.2) ->
  IsDefault d = Some true ->
  run aws (remove_rules (List.map Aws.describe l ++ [d]) n) P =
    (inr (n + length l),
     Aws.with_rules P (foldl (fun m a => delete a m) (Aws.rules P) l.*1),
     List.map (fun x => Event (delete_rule x.1) (inr tt)) l).
Proof.
  intros Hnd Hin Hd. revert P n Hnd Hin.
  induction l as [|[a b] l IH]; intros P n Hnd Hin.
  - cbn. rewrite Hd. cbn. rewrite Nat.add_0_r, with_rules_same. reflexivity.
  - change (remove_rules (List.map Aws.describe ((a, b) :: l) ++ [d]) n)
      with (invoke (delete_rule a) >>> remove_rules (List.map Aws.describe l ++ [d]) (S n)).
    cbn [fmap list_fmap] in Hnd. apply NoDup_cons in Hnd as [Ha Hnd].
    rewrite run_bind, run_invoke. cbn [aws Aws.sdk].
    pose proof (Hin (a, b) (or_introl eq_refl)) as Hab. cbn [fst snd] in Hab.
    rewrite Hab. cbn [fst snd].
    rewrite IH.
    + cbn. replace (n + S (length l)) with (S (n + length l)) by lia. reflexivity.
    + exact Hnd.
    + intros [k v] Hx. cbn. rewrite lookup_delete_ne.
      * apply (Hin (k, v)). right. exact Hx.
      * intros ->. apply Ha. apply list_elem_of_fmap. exists (k, v).
        split; [reflexivity|]. apply elem_of_In. exact Hx.
Qed.

Lemma NoDup_rules_on (P : Aws.Platform) (L : string) : NoDup (Aws.rules_on P L).*1.
Proof.
  unfold Aws.rules_on.
  pose proof (NoDup_fst_map_to_list (Aws.rules P)) as H.
  induction (map_to_list (Aws.rules P)) as [|x l IH]; [constructor|].
  cbn in H. apply NoDup_cons in H as [Hx H]. cbn.
  destruct (Aws.on_listener L x); [|apply IH; exact H].
  cbn. apply NoDup_cons. split; [|apply IH; exact H].
  intros Hin. apply Hx. apply list_elem_of_fmap in Hin as (y & -> & Hy).
  apply list_elem_of_fmap. exists y. split; [reflexivity|].
  apply elem_of_In in Hy. apply filter_In in Hy as [Hy _]. apply elem_of_In. exact Hy.
Qed.

Lemma filter_Permutation {A} (f : A -> bool) (l l' : list A) :
  l ≡ₚ l' -> List.filter f l ≡ₚ List.filter f l'.
Proof.
  induction 1 as [|x l l' _ IH|x y l|l l' l'' _ IH1 _ IH2]; cbn.
  - reflexivity.
  - destruct (f x); [constructor|]; exact IH.
  - destruct (f x), (f y); try reflexivity. constructor.
  - etransitivity; eassumption.
Qed.

(** A set of rules without a rule on the listener, plus the gate under a
    fresh ARN: the gate is the only rule on the listener. *)
Lemma rules_on_gate (P : Aws.Platform) (L a : string) (g : Aws.RuleBody)
    (m : gmap string Aws.RuleBody) :
  (forall k v, m !! k = Some v -> Aws.rb_listener v <> L) ->
  m !! a = None -> Aws.rb_listener g = L ->
  Aws.rules_on (Aws.with_rules P (<[a := g]> m)) L = [(a, g)].
Proof.
  intros Hm Ha Hg. unfold Aws.rules_on. cbn [Aws.rules Aws.with_rules].
  apply Permutation_singleton_r.
  rewrite (filter_Permutation _ _ _ (map_to_list_insert m a g Ha)).
  cbn. unfold Aws.on_listener at 1. cbn. rewrite Hg, String.eqb_refl.
  rewrite filter_none; [reflexivity|].
  intros [k v] Hin. apply elem_of_In, elem_of_map_to_list in Hin.
  unfold Aws.on_listener. cbn. apply String.eqb_neq. apply (Hm k v Hin).
Qed.

Lemma cleared_off_listener (P : Aws.Platform) (L k : string) (v : Aws.RuleBody) :
  cleared P L !! k = Some v -> Aws.rb_listener v <> L.
Proof.
  unfold cleared. intros H. apply map_lookup_filter_Some in H as [_ H]. exact H.
Qed.

Lemma gate_arn_fresh (P : Aws.Platform) (L : string) : cleared P L !! gate_arn P L = None.
Proof. apply not_elem_of_dom. unfold gate_arn. apply is_fresh. Qed.

(** ** The platform: listeners *)

Lemma listener_on_info (P : Aws.Platform) (lb : string) (p : Z) (l : Listener) :
  listener_on p (Aws.listeners_of P lb) = Some l ->
  exists info, Aws.listeners (Aws.top P) !! ListenerArn l = Some info /\
               Aws.li_port info = p /\ Aws.li_balancer info = lb.
Proof.
  unfold listener_on. intros H. apply find_some in H as [Hin Hp].
  unfold Aws.listeners_of in Hin. apply in_map_iff in Hin as ([arn info] & <- & Hin).
  apply filter_In in Hin as [Hin Hlb]. apply elem_of_In, elem_of_map_to_list in Hin.
  exists info. cbn in *. split; [exact Hin|]. split.
  - apply Z.eqb_eq. exact Hp.
  - apply String.eqb_eq. exact Hlb.
Qed.

Lemma mutations_app (t1 t2 : list event) : mutations (t1 ++ t2) = mutations t1 ++ mutations t2.
Proof. unfold mutations. rewrite map_app. apply List.filter_app. Qed.

Lemma mutations_deletes (l : list (string * Aws.RuleBody)) :
  mutations (List.map (fun x => Event (delete_rule x.1) (inr tt)) l) =
  List.map (fun x => delete_rule x.1) l.
Proof.
  induction l as [|x l IH]; [reflexivity|].
  unfold mutations in *. cbn. rewrite IH. reflexivity.
Qed.

(** Lines 239-330 on the platform: with the listener and the balancer in
    place the rewriting succeeds and leaves the platform [secured]. *)
Lemma secure_listener_run (P : Aws.Platform) (L lb tg domain : string)
    (c : OidcDict) (auth : option Z -> Action) (info : Aws.ListenerInfo) :
  Aws.listeners (Aws.top P) !! L = Some info ->
  Aws.has_balancer P lb = true ->
  auth_action c = inr auth ->
  exists tr,
    run aws (secure_listener L lb tg domain c) P = (inr tt, secured P L lb tg auth, tr) /\
    mutations tr =
      List.map (fun x => delete_rule x.1) (Aws.rules_on P L) ++
      [ modify_listener L [deny_action];
        create_rule L 1 [all_paths] [auth (Some 1%Z); forward_action tg (Some 2%Z)] ] ++
      match listener_on 80 (Aws.listeners_of P lb) with
      | Some http_listener => [modify_listener (ListenerArn http_listener) [redirect_action]]
      | None => []
      end /\
    (forall x, In x (Aws.rules_on P L) -> In (Event (delete_rule x.1) (inr tt)) tr) /\
    (listener_on 80 (Aws.listeners_of P lb) = None ->
     In (Event (logger INFO "HTTP listener not found") (inr tt)) tr).
Proof.
  intros HL Hlb Hauth. unfold secure_listener. rewrite Hauth. cbn [result bind].
  rewrite run_bind, run_invoke. cbn [aws Aws.sdk quiet fst snd].
  rewrite run_bind, run_invoke. cbn [aws Aws.sdk fst snd]. rewrite HL.
  rewrite run_bind, (remove_rules_run (Aws.rules_on P L) (Aws.default_rule P L) P 0);
    [|apply NoDup_rules_on
     |intros [k v] Hx; apply rules_on_elem in Hx as [Hx _]; exact Hx
     |reflexivity].
  rewrite foldl_delete_cleared.
  set (P1 := Aws.with_rules P (cleared P L)).
  set (deletes := List.map (fun x => Event (delete_rule x.1) (inr tt)) (Aws.rules_on P L)).
  rewrite run_bind.
  assert (exists msg,
    run aws (if (0 <? 0 + length (Aws.rules_on P L))%nat
             then invoke (logger INFO ("Removed " +:+ pretty (0 + length (Aws.rules_on P L)) +:+ " rules"))
             else invoke (logger INFO "No rules to remove")) P1 =
    (inr tt, P1, [Event (logger INFO msg) (inr tt)])) as [msg ->].
  { destruct (0 <? 0 + length (Aws.rules_on P L))%nat; eexists; reflexivity. }
  rewrite run_bind, run_invoke. cbn [aws Aws.sdk quiet fst snd].
  rewrite run_bind, run_invoke. cbn [aws Aws.sdk quiet fst snd].
  rewrite run_bind, run_invoke. cbn [aws Aws.sdk fst snd].
  change (Aws.listeners (Aws.top P1)) with (Aws.listeners (Aws.top P)). rewrite HL.
  cbn [fst snd].
  set (P2 := Aws.with_default_actions P1 (<[L:=[deny_action]]> (Aws.default_actions P1))).
  rewrite run_bind, run_invoke. cbn [aws Aws.sdk quiet fst snd].
  rewrite run_bind, run_invoke. cbn [aws Aws.sdk fst snd].
  change (Aws.listeners (Aws.top P2)) with (Aws.listeners (Aws.top P)). rewrite HL.
  assert (Aws.rules_on P2 L = []) as ->.
  { unfold Aws.rules_on. apply filter_none. intros [k v] Hin.
    apply elem_of_In, elem_of_map_to_list in Hin.
    unfold Aws.on_listener. cbn. apply String.eqb_neq.
    apply (cleared_off_listener P L k v Hin). }
  cbn [existsb fst snd].
  change (fresh (dom (Aws.rules P2))) with (gate_arn P L).
  change (Aws.rules P2) with (cleared P L).
  change {| Aws.rb_listener := L; Aws.rb_priority := 1; Aws.rb_conditions := [all_paths];
            Aws.rb_actions := [auth (Some 1%Z); forward_action tg (Some 2%Z)] |}
    with (gate_rule L tg auth).
  set (P3 := Aws.with_rules P2 (<[gate_arn P L:=gate_rule L tg auth]> (cleared P L))).
  rewrite run_bind, run_invoke. cbn [aws Aws.sdk quiet fst snd].
  rewrite run_bind, run_invoke. cbn [aws Aws.sdk fst snd].
  change (Aws.has_balancer P3 lb) with (Aws.has_balancer P lb). rewrite Hlb.
  change (Aws.listeners_of P3 lb) with (Aws.listeners_of P lb).
  cbn [fst snd]. rewrite run_bind.
  unfold secured. fold P1.
  destruct (listener_on 80 (Aws.listeners_of P lb)) as [http|] eqn:Hhttp.
  - destruct (listener_on_info P lb 80 http Hhttp) as (hinfo & Hh & _ & _).
    rewrite (run_invoke aws (modify_listener (ListenerArn http) [redirect_action])).
    cbn [aws Aws.sdk fst snd].
    change (Aws.listeners (Aws.top P3)) with (Aws.listeners (Aws.top P)). rewrite Hh.
    cbn [fst snd]. rewrite (run_invoke aws (logger INFO _)). cbn [aws Aws.sdk quiet fst snd].
    eexists. split; [reflexivity|]. split; [|split].
    + rewrite !mutations_app. fold deletes. unfold deletes at 1.
      rewrite mutations_deletes. reflexivity.
    + intros x Hx. apply in_or_app. right. apply in_or_app. right.
      apply in_or_app. left. unfold deletes. apply (in_map (fun x => Event (delete_rule x.1) (inr tt))).
      exact Hx.
    + discriminate.
  - rewrite (run_invoke aws (logger INFO "HTTP listener not found")).
    cbn [aws Aws.sdk quiet fst snd].
    rewrite (run_invoke aws (logger INFO _)). cbn [aws Aws.sdk quiet fst snd].
    eexists. split; [reflexivity|]. split; [|split].
    + rewrite !mutations_app. fold deletes. unfold deletes at 1.
      rewrite mutations_deletes. reflexivity.
    + intros x Hx. apply in_or_app. right. apply in_or_app. right.
      apply in_or_app. left. unfold deletes. apply (in_map (fun x => Event (delete_rule x.1) (inr tt))).
      exact Hx.
    + intros _.
      repeat (apply in_or_app; first [left; solve [left; reflexivity] | right]).
Qed.

Lemma run_only_mutations {W A} (h : handler W) (p : prog A) (w : W) :
  only reads_topology p -> mutations (trace (run h p w)) = [].
Proof.
  revert w. induction p as [a|e|c k IH]; intros w Hp; try reflexivity.
  destruct Hp as [Hc Hk]. simpl. destruct (h c w) as [r w1].
  specialize (IH r w1 (Hk r)). destruct (run h (k r) w1) as [[res w2] tr].
  unfold mutations, trace in *. cbn in *.
  destruct c; try discriminate Hc; exact IH.
Qed.

(** A program that reads the topology: its run in one piece. *)
Lemma run_reading {A} (p : prog A) (P : Aws.Platform) :
  only reads_topology p ->
  exists tr, run aws p P = (outcome (run aws p P), P, tr) /\ mutations tr = [].
Proof.
  intros Hp.
  destruct (run_reads_topology p P P Hp eq_refl) as (_ & _ & Hf).
  pose proof (run_only_mutations aws p P Hp) as Hm.
  destruct (run aws p P) as [[res P1] tr]. cbn in Hf, Hm |- *. subst P1.
  exists tr. split; [reflexivity|exact Hm].
Qed.

Lemma find_listener_arn_success (P : Aws.Platform) (env_name L lb : string) :
  outcome (run aws (find_listener_arn env_name) P) = inr (L, lb) ->
  Aws.has_balancer P lb = true /\
  exists l, listener_on 443 (Aws.listeners_of P lb) = Some l /\ ListenerArn l = L.
Proof.
  unfold find_listener_arn. rewrite run_aws_handler.
  rewrite run_bind, run_invoke. cbn [aws Aws.sdk quiet fst snd].
  rewrite run_bind, run_invoke. cbn [aws Aws.sdk fst snd].
  destruct (List.filter _ (Aws.environments (Aws.top P))) as [|e0 es]; [discriminate|].
  cbn [nonempty negb]. rewrite run_bind, run_invoke. cbn [aws Aws.sdk fst snd].
  rewrite run_bind.
  destruct (run_reading (find_env_lb env_name
              (List.map Aws.render_balancer (map_to_list (Aws.load_balancers (Aws.top P))))) P
              (only_find_env_lb _ _)) as (t & -> & _).
  destruct (outcome (run aws (find_env_lb _ _) P)) as [e|[env_lb|]];
    [discriminate| |discriminate].
  rewrite run_bind, run_invoke. cbn [aws Aws.sdk fst snd].
  destruct (Aws.has_balancer P (LoadBalancerArn env_lb)) eqn:Hlb; [|discriminate].
  cbn [fst snd].
  destruct (listener_on 443 (Aws.listeners_of P (LoadBalancerArn env_lb))) as [l|] eqn:Hl;
    [|discriminate].
  cbn. intros H. injection H as <- <-. split; [exact Hlb|]. exists l. split; [exact Hl|reflexivity].
Qed.

Lemma resolve_listener_success (P : Aws.Platform) (env_name L lb tg domain : string) :
  outcome (run aws (resolve_listener env_name) P) = inr (L, lb, tg, domain) ->
  Aws.has_balancer P lb = true /\
  exists info, Aws.listeners (Aws.top P) !! L = Some info /\
               Aws.li_port info = 443%Z /\ Aws.li_balancer info = lb.
Proof.
  unfold resolve_listener. rewrite run_bind.
  destruct (run_reading (find_listener_arn env_name) P (only_find_listener_arn _))
    as (t & Hrun & _).
  rewrite Hrun.
  destruct (outcome (run aws (find_listener_arn env_name) P)) as [e|[L0 lb0]] eqn:Hfind;
    [discriminate|].
  destruct (negb (Py.truthy L0)); [discriminate|].
  rewrite run_bind.
  destruct (run_reading (get_domain_from_listener L0) P (only_get_domain_from_listener _))
    as (t1 & -> & _).
  destruct (outcome (run aws (get_domain_from_listener L0) P)) as [e|d]; [discriminate|].
  rewrite run_bind.
  destruct (run_reading (find_target_group_arn lb0) P (only_find_target_group_arn _))
    as (t2 & -> & _).
  destruct (outcome (run aws (find_target_group_arn lb0) P)) as [e|g]; [discriminate|].
  cbn. intros H. injection H as <- <- <- <-.
  apply find_listener_arn_success in Hfind as (Hlb & l & Hl & <-).
  split; [exact Hlb|]. apply (listener_on_info P lb0 443 l Hl).
Qed.

(** Lines 239-256 on the platform when a key of ["session"] is missing: the
    rules of the listener are removed, then the lookup raises, and nothing
    else is changed. *)
Lemma secure_listener_stops (P : Aws.Platform) (L lb tg domain : string)
    (c : OidcDict) (e : exn) (info : Aws.ListenerInfo) :
  Aws.listeners (Aws.top P) !! L = Some info ->
  auth_action c = inl e ->
  exists tr,
    run aws (secure_listener L lb tg domain c) P =
      (inl e, Aws.with_rules P (cleared P L), tr) /\
    mutations tr = List.map (fun x => delete_rule x.1) (Aws.rules_on P L).
Proof.
  intros HL Hauth. unfold secure_listener. rewrite Hauth. cbn [result bind].
  rewrite run_bind, run_invoke. cbn [aws Aws.sdk quiet fst snd].
  rewrite run_bind, run_invoke. cbn [aws Aws.sdk fst snd]. rewrite HL.
  rewrite run_bind, (remove_rules_run (Aws.rules_on P L) (Aws.default_rule P L) P 0);
    [|apply NoDup_rules_on
     |intros [k v] Hx; apply rules_on_elem in Hx as [Hx _]; exact Hx
     |reflexivity].
  rewrite foldl_delete_cleared.
  set (P1 := Aws.with_rules P (cleared P L)).
  rewrite run_bind.
  assert (exists msg,
    run aws (if (0 <? 0 + length (Aws.rules_on P L))%nat
             then invoke (logger INFO ("Removed " +:+ pretty (0 + length (Aws.rules_on P L)) +:+ " rules"))
             else invoke (logger INFO "No rules to remove")) P1 =
    (inr tt, P1, [Event (logger INFO msg) (inr tt)])) as [msg ->].
  { destruct (0 <? 0 + length (Aws.rules_on P L))%nat; eexists; reflexivity. }
  rewrite run_bind, run_invoke. cbn [aws Aws.sdk quiet fst snd run app].
  eexists. split; [reflexivity|].
  change (mutations (?a :: ?b :: ?t)) with (mutations t).
  rewrite mutations_app, mutations_deletes. apply app_nil_r.
Qed.

(** What [oidc_config] and [auth_action] return is made of the keys of the
    section and of the variables of the environment. *)
Lemma oidc_config_inr (config : Config) (client_secret : option string)
    (environ : gmap string string) (c : OidcDict) :
  oidc_config config client_secret environ = inr c ->
  exists o ends sess cid iss a t u,
    oidc config = Some o /\ client_id o = Some cid /\ issuer o = Some iss /\
    endpoints o = Some ends /\ authorization ends = Some a /\ token ends = Some t /\
    userinfo ends = Some u /\ session o = Some sess /\
    c = {| oc_client_id := default cid (environ !! "LB_OIDC_CLIENT_ID");
           oc_client_secret :=
             if truthy_opt_str client_secret then default "" client_secret
             else default "" (environ !! "LB_OIDC_CLIENT_SECRET");
           oc_issuer := default iss (environ !! "LB_OIDC_ISSUER");
           oc_authorization := default a (environ !! "LB_OIDC_AUTH_ENDPOINT");
           oc_token := default t (environ !! "LB_OIDC_TOKEN_ENDPOINT");
           oc_userinfo := default u (environ !! "LB_OIDC_USERINFO_ENDPOINT");
           oc_session := sess |}.
Proof.
  unfold oidc_config, and_then, item.
  destruct (oidc config) as [o|]; [|discriminate].
  destruct (client_id o) as [cid|] eqn:H1; [|discriminate].
  destruct (issuer o) as [iss|] eqn:H2; [|discriminate].
  destruct (endpoints o) as [ends|] eqn:H3; [|discriminate].
  destruct (authorization ends) as [a|] eqn:H4; [|discriminate].
  destruct (token ends) as [t|] eqn:H5; [|discriminate].
  destruct (userinfo ends) as [u|] eqn:H6; [|discriminate].
  destruct (session o) as [sess|] eqn:H7; [|discriminate].
  intros [= <-]. exists o, ends, sess, cid, iss, a, t, u.
  repeat split; first [assumption | reflexivity].
Qed.

Lemma auth_action_inr (c : OidcDict) (auth : option Z -> Action) :
  auth_action c = inr auth ->
  exists cn tm sc,
    cookie_name (oc_session c) = Some cn /\ timeout (oc_session c) = Some tm /\
    scope (oc_session c) = Some sc /\ auth = authenticate_oidc c cn tm sc.
Proof.
  unfold auth_action, and_then, item.
  destruct (cookie_name (oc_session c)) as [cn|]; [|discriminate].
  destruct (timeout (oc_session c)) as [tm|]; [|discriminate].
  destruct (scope (oc_session c)) as [sc|]; [|discriminate].
  intros [= <-]. exists cn, tm, sc. repeat split; reflexivity.
Qed.

Lemma oidc_config_secret (config : Config) (client_secret : option string)
    (environ : gmap string string) (c : OidcDict) :
  oidc_config config client_secret environ = inr c ->
  oc_client_secret c =
    if truthy_opt_str client_secret then default "" client_secret
    else default "" (environ !! "LB_OIDC_CLIENT_SECRET").
Proof.
  intros H. destruct (oidc_config_inr _ _ _ _ H) as (o & ends & sess & cid & iss & a & t & u & H').
  destruct H' as (_ & _ & _ & _ & _ & _ & _ & _ & ->). reflexivity.
Qed.

(** [configure_oidc_auth] on the platform, when the section has its keys, the
    secret is there and the listener, the domain and the target group
    resolve. *)
Lemma configure_oidc_auth_run (P : Aws.Platform) (config : Config) (c : OidcDict)
    (auth : option Z -> Action)
    (client_secret : option string) (environ : gmap string string) (L lb tg domain : string) :
  oidc_config config client_secret environ = inr c ->
  auth_action (with_client_secret c (chosen_secret client_secret environ P)) = inr auth ->
  Py.truthy (chosen_secret client_secret environ P) = true ->
  outcome (run aws (resolve_listener (application_environment config)) P) =
    inr (L, lb, tg, domain) ->
  exists tr,
    run aws (configure_oidc_auth config client_secret environ) P =
      (inr tt, secured P L lb tg auth, tr) /\
    mutations tr =
      List.map (fun x => delete_rule x.1) (Aws.rules_on P L) ++
      [ modify_listener L [deny_action];
        create_rule L 1 [all_paths] [auth (Some 1%Z); forward_action tg (Some 2%Z)] ] ++
      match listener_on 80 (Aws.listeners_of P lb) with
      | Some http_listener => [modify_listener (ListenerArn http_listener) [redirect_action]]
      | None => []
      end /\
    (forall x, In x (Aws.rules_on P L) -> In (Event (delete_rule x.1) (inr tt)) tr) /\
    (listener_on 80 (Aws.listeners_of P lb) = None ->
     In (Event (logger INFO "HTTP listener not found") (inr tt)) tr).
Proof.
  intros Hc Hauth Hsecret Hres.
  destruct (resolve_listener_success _ _ _ _ _ _ Hres) as (Hlb & info & HL & _ & _).
  unfold configure_oidc_auth. rewrite run_aws_handler, Hc. cbn [result bind].
  rewrite (oidc_config_secret _ _ _ _ Hc).
  rewrite run_bind, run_invoke. cbn [aws Aws.sdk quiet fst snd].
  rewrite run_bind.
  destruct (resolve_secret_run client_secret environ P) as (t1 & -> & Hm1).
  rewrite Hsecret. rewrite run_bind.
  destruct (run_reading (resolve_listener (application_environment config)) P
              (only_resolve_listener _)) as (t2 & -> & Hm2).
  rewrite Hres.
  destruct (secure_listener_run P L lb tg domain
              (with_client_secret c (chosen_secret client_secret environ P)) auth info
              HL Hlb Hauth)
    as (t3 & -> & Hm3 & Hdel & Hlog).
  eexists. split; [reflexivity|]. split; [|split].
  - rewrite !mutations_app, Hm1, Hm2, Hm3. reflexivity.
  - intros x Hx. apply in_or_app. right. apply in_or_app. right. apply in_or_app. right.
    apply Hdel. exact Hx.
  - intros Hn. apply in_or_app. right. apply in_or_app. right. apply in_or_app. right.
    apply Hlog. exact Hn.
Qed.

(** The same when a key of ["session"] is missing: the run fails with the
    [KeyError] after the rules of the listener were removed. *)
Lemma configure_oidc_auth_stops (P : Aws.Platform) (config : Config) (c : OidcDict)
    (e : exn)
    (client_secret : option string) (environ : gmap string string) (L lb tg domain : string) :
  oidc_config config client_secret environ = inr c ->
  auth_action (with_client_secret c (chosen_secret client_secret environ P)) = inl e ->
  Py.truthy (chosen_secret client_secret environ P) = true ->
  outcome (run aws (resolve_listener (application_environment config)) P) =
    inr (L, lb, tg, domain) ->
  exists tr,
    run aws (configure_oidc_auth config client_secret environ) P =
      (inl (wrap_client_error e), Aws.with_rules P (cleared P L), tr) /\
    mutations tr = List.map (fun x => delete_rule x.1) (Aws.rules_on P L).
Proof.
  intros Hc Hauth Hsecret Hres.
  destruct (resolve_listener_success _ _ _ _ _ _ Hres) as (Hlb & info & HL & _ & _).
  unfold configure_oidc_auth. rewrite run_aws_handler, Hc. cbn [result bind].
  rewrite (oidc_config_secret _ _ _ _ Hc).
  rewrite run_bind, run_invoke. cbn [aws Aws.sdk quiet fst snd].
  rewrite run_bind.
  destruct (resolve_secret_run client_secret environ P) as (t1 & -> & Hm1).
  rewrite Hsecret. rewrite run_bind.
  destruct (run_reading (resolve_listener (application_environment config)) P
              (only_resolve_listener _)) as (t2 & -> & Hm2).
  rewrite Hres.
  destruct (secure_listener_stops P L lb tg domain
              (with_client_secret c (chosen_secret client_secret environ P)) e info
              HL Hauth)
    as (t3 & -> & Hm3).
  eexists. split; [reflexivity|].
  rewrite !mutations_app, Hm1, Hm2, Hm3. reflexivity.
Qed.

(** A run of [configure_oidc_auth] that succeeds had the keys of the section
    and a secret, and resolved the listener, the domain and the target
    group. *)
Lemma configure_oidc_auth_success (P : Aws.Platform) (config : Config)
    (client_secret : option string) (environ : gmap string string) :
  outcome (run aws (configure_oidc_auth config client_secret environ) P) = inr tt ->
  exists c auth L lb tg domain,
    oidc_config config client_secret environ = inr c /\
    auth_action (with_client_secret c (chosen_secret client_secret environ P)) = inr auth /\
    Py.truthy (chosen_secret client_secret environ P) = true /\
    outcome (run aws (resolve_listener (application_environment config)) P) =
      inr (L, lb, tg, domain).
Proof.
  intros Hok.
  destruct (oidc_config config client_secret environ) as [e|c] eqn:Hc.
  { revert Hok. unfold configure_oidc_auth. rewrite run_aws_handler, Hc. discriminate. }
  destruct (Py.truthy (chosen_secret client_secret environ P)) eqn:Hsecret.
  2:{ revert Hok. unfold configure_oidc_auth. rewrite run_aws_handler, Hc. cbn [result bind].
      rewrite (oidc_config_secret _ _ _ _ Hc).
      rewrite run_bind, run_invoke. cbn [aws Aws.sdk quiet fst snd]. rewrite run_bind.
      destruct (resolve_secret_run client_secret environ P) as (t1 & -> & _).
      rewrite Hsecret. discriminate. }
  destruct (outcome (run aws (resolve_listener (application_environment config)) P))
    as [e|[[[L lb] tg] domain]] eqn:Hres.
  { revert Hok. unfold configure_oidc_auth. rewrite run_aws_handler, Hc. cbn [result bind].
    rewrite (oidc_config_secret _ _ _ _ Hc).
    rewrite run_bind, run_invoke. cbn [aws Aws.sdk quiet fst snd]. rewrite run_bind.
    destruct (resolve_secret_run client_secret environ P) as (t1 & -> & _).
    rewrite Hsecret, run_bind.
    destruct (run_reading (resolve_listener (application_environment config)) P
                (only_resolve_listener _)) as (t2 & -> & _).
    rewrite Hres. discriminate. }
  destruct (auth_action (with_client_secret c (chosen_secret client_secret environ P)))
    as [e|auth] eqn:Hauth.
  { destruct (configure_oidc_auth_stops P config c e client_secret environ L lb tg domain
                Hc Hauth Hsecret Hres) as (tr & Hrun & _).
    rewrite Hrun in Hok. discriminate. }
  exists c, auth, L, lb, tg, domain. repeat split; first [assumption | reflexivity].
Qed.

Lemma resolve_listener_parts (P : Aws.Platform) (env_name L lb tg domain : string) :
  outcome (run aws (resolve_listener env_name) P) = inr (L, lb, tg, domain) ->
  outcome (run aws (find_listener_arn env_name) P) = inr (L, lb) /\
  outcome (run aws (get_domain_from_listener L) P) = inr domain /\
  outcome (run aws (find_target_group_arn lb) P) = inr tg.
Proof.
  intros H. unfold resolve_listener in H. rewrite run_bind in H.
  destruct (run_reading (find_listener_arn env_name) P (only_find_listener_arn _))
    as (t & Hrun & _).
  rewrite Hrun in H.
  destruct (outcome (run aws (find_listener_arn env_name) P)) as [e|[L0 lb0]];
    [discriminate|].
  destruct (negb (Py.truthy L0)); [discriminate|].
  rewrite run_bind in H.
  destruct (run_reading (get_domain_from_listener L0) P (only_get_domain_from_listener _))
    as (t1 & Hrun1 & _).
  rewrite Hrun1 in H.
  destruct (outcome (run aws (get_domain_from_listener L0) P)) as [e|d] eqn:Hd;
    [discriminate|].
  rewrite run_bind in H.
  destruct (run_reading (find_target_group_arn lb0) P (only_find_target_group_arn _))
    as (t2 & Hrun2 & _).
  rewrite Hrun2 in H.
  destruct (outcome (run aws (find_target_group_arn lb0) P)) as [e|g] eqn:Hg;
    [discriminate|].
  cbn in H. injection H as <- <- <- <-. repeat split; assumption.
Qed.

Lemma find_none_all {A} (f : A -> bool) (l : list A) :
  (forall x, In x l -> f x = false) -> List.find f l = None.
Proof.
  induction l as [|x l IH]; intros H; [reflexivity|].
  cbn. rewrite (H x) by (left; reflexivity). apply IH. intros y Hy. apply H. right. exact Hy.
Qed.

Lemma listener_on_none (P : Aws.Platform) (lb : string) (p : Z) :
  (forall arn info, Aws.listeners (Aws.top P) !! arn = Some info ->
     Aws.li_balancer info = lb -> Aws.li_port info <> p) ->
  listener_on p (Aws.listeners_of P lb) = None.
Proof.
  intros H. unfold listener_on. apply find_none_all. intros l Hin.
  unfold Aws.listeners_of in Hin. apply in_map_iff in Hin as ([arn info] & <- & Hin).
  apply filter_In in Hin as [Hin Hlb]. apply elem_of_In, elem_of_map_to_list in Hin.
  cbn in *. apply Z.eqb_neq. apply (H arn info Hin). apply String.eqb_eq. exact Hlb.
Qed.

(** The secured platform seen through the API: on the listener, the gate and
    the default rule that denies. *)
Lemma secured_view (P : Aws.Platform) (L lb tg : string) (auth : option Z -> Action)
    (info : Aws.ListenerInfo) :
  Aws.listeners (Aws.top P) !! L = Some info -> Aws.li_port info = 443%Z ->
  Aws.default_actions (secured P L lb tg auth) !! L = Some [deny_action] /\
  (aws (describe_rules L) (secured P L lb tg auth)).1 =
    inr [described_gate (gate_arn P L) tg auth; described_deny L].
Proof.
  intros HL Hport.
  assert (Aws.default_actions (secured P L lb tg auth) !! L = Some [deny_action]) as Hd.
  { unfold secured. cbn [Aws.default_actions].
    destruct (listener_on 80 (Aws.listeners_of P lb)) as [http|] eqn:Hhttp.
    - destruct (listener_on_info P lb 80 http Hhttp) as (hinfo & Hh & Hp & _).
      rewrite lookup_insert_ne; [apply lookup_insert_eq|].
      intros Heq. rewrite Heq, HL in Hh. injection Hh as <-. lia.
    - apply lookup_insert_eq. }
  split; [exact Hd|].
  cbn [aws Aws.sdk fst].
  change (Aws.listeners (Aws.top (secured P L lb tg auth))) with (Aws.listeners (Aws.top P)).
  rewrite HL. cbn [fst]. f_equal.
  change (Aws.rules_on (secured P L lb tg auth) L)
    with (Aws.rules_on (Aws.with_rules P (<[gate_arn P L := gate_rule L tg auth]> (cleared P L))) L).
  rewrite rules_on_gate;
    [|apply cleared_off_listener|apply gate_arn_fresh|reflexivity].
  unfold Aws.default_rule. rewrite Hd. reflexivity.
Qed.

Lemma cleared_secured (P : Aws.Platform) (L lb tg : string) (auth : option Z -> Action) :
  cleared (secured P L lb tg auth) L = cleared P L.
Proof.
  unfold cleared at 1. cbn [secured Aws.rules].
  rewrite map_filter_insert_False by (cbn; intros H; apply H; reflexivity).
  rewrite delete_id by apply gate_arn_fresh.
  apply map_filter_id. intros k v Hk. cbn. apply (cleared_off_listener P L k v Hk).
Qed.

(** Securing a secured platform changes nothing. *)
Lemma secured_idempotent (P : Aws.Platform) (L lb tg : string) (auth : option Z -> Action) :
  secured (secured P L lb tg auth) L lb tg auth = secured P L lb tg auth.
Proof.
  unfold secured at 1. unfold gate_arn. rewrite cleared_secured.
  change (Aws.listeners_of (secured P L lb tg auth) lb) with (Aws.listeners_of P lb).
  unfold secured, gate_arn. cbn [Aws.top Aws.default_actions]. f_equal.
  destruct (listener_on 80 (Aws.listeners_of P lb)) as [http|].
  - apply map_eq. intros k. rewrite !lookup_insert.
    repeat case_decide; reflexivity.
  - apply insert_insert_eq.
Qed.

(** ** The helpers of common.py on the platform *)

Lemma only_weaken {A} (Q Q' : call -> bool) (p : prog A) :
  (forall c, Q c = true -> Q' c = true) -> only Q p -> only Q' p.
Proof.
  intros HQ. induction p as [a|e|c k IH]; simpl; try (intros; exact I).
  intros [Hc Hk]. split; [apply HQ, Hc|]. intros r. apply IH, Hk.
Qed.

Lemma run_aws_sdk {A} (p : prog A) (P : Aws.Platform) :
  only is_client p -> run aws p P = run Aws.sdk p P.
Proof.
  revert P. induction p as [a|e|c k IH]; intros P Hp; try reflexivity.
  destruct Hp as [Hc Hk]. simpl.
  assert (aws c P = Aws.sdk c P) as -> by (destruct c; try discriminate Hc; reflexivity).
  destruct (Aws.sdk c P) as [r P1]. rewrite IH by apply Hk. reflexivity.
Qed.

Lemma reads_topology_client (c : call) : reads_topology c = true -> is_client c = true.
Proof. destruct c; intros H; try discriminate H; reflexivity. Qed.

Lemma only_tagged_balancer (env_name : string) (lbs : list LoadBalancer) :
  only reads_topology (Common.tagged_balancer env_name lbs).
Proof.
  induction lbs as [|lb lbs IH]; [exact I|].
  cbn [Common.tagged_balancer].
  apply only_bind; [apply only_invoke; reflexivity|]. intros ds.
  apply only_bind; [apply only_first_item|]. intros d.
  destruct (existsb _ _); [exact I|exact IH].
Qed.

Lemma only_find_environment_load_balancer (env_name : string) :
  only reads_topology (Common.find_environment_load_balancer env_name).
Proof.
  apply only_bind; [apply only_invoke; reflexivity|]. intros envs.
  destruct (negb _); [exact I|].
  apply only_bind; [apply only_invoke; reflexivity|]. intros lbs.
  apply only_tagged_balancer.
Qed.

Lemma find_environment_load_balancer_reads (P : Aws.Platform) (env_name : string) :
  (aws (find_environment_load_balancer env_name) P).2 = P.
Proof.
  cbn [aws snd].
  rewrite <- run_aws_sdk
    by (apply (only_weaken reads_topology); [apply reads_topology_client|];
        apply only_find_environment_load_balancer).
  apply (run_reads_topology _ P P (only_find_environment_load_balancer env_name) eq_refl).
Qed.

Lemma is_oidc_rule_default (P : Aws.Platform) (L : string) :
  Common.is_oidc_rule (Aws.default_rule P L) = false.
Proof. reflexivity. Qed.

(** [common.preserve_https_config] on the platform. *)
Lemma preserve_https_config_run (P : Aws.Platform) (lb project_name : string) :
  aws (preserve_https_config lb project_name) P =
    (if Aws.has_balancer P lb then
       match listener_on 443 (Aws.listeners_of P lb) with
       | Some l =>
           inr (Some (List.filter Common.is_oidc_rule
                        (List.map Aws.describe (Aws.rules_on P (ListenerArn l)))))
       | None => inr None
       end
     else inl (Aws.not_found "LoadBalancer"), P).
Proof.
  cbn [aws]. unfold Common.preserve_https_config.
  rewrite run_bind, run_invoke. cbn [Aws.sdk fst snd].
  destruct (Aws.has_balancer P lb); [|reflexivity].
  cbn [fst snd].
  destruct (listener_on 443 (Aws.listeners_of P lb)) as [l|] eqn:Hl; [|reflexivity].
  destruct (listener_on_info P lb 443 l Hl) as (info & Hinfo & _).
  rewrite run_bind, run_invoke. cbn [Aws.sdk fst snd]. rewrite Hinfo.
  cbn [fst snd run outcome final].
  rewrite List.filter_app. cbn [List.filter]. rewrite is_oidc_rule_default, app_nil_r.
  reflexivity.
Qed.

Lemma hide_secret_twice (a : Action) : Aws.hide_secret (Aws.hide_secret a) = Aws.hide_secret a.
Proof. unfold Aws.hide_secret. cbn. destruct (OidcConfig a); reflexivity. Qed.

Lemma existsb_map {A B} (f : B -> bool) (g : A -> B) (l : list A) :
  existsb f (List.map g l) = existsb (fun x => f (g x)) l.
Proof. induction l as [|x l IH]; [reflexivity|]. cbn. rewrite IH. reflexivity. Qed.

Lemma is_oidc_rule_describe (x : string * Aws.RuleBody) :
  Common.is_oidc_rule (Aws.describe x) = oidc_body x.2.
Proof.
  unfold Common.is_oidc_rule, oidc_body. cbn. apply existsb_map.
Qed.

Lemma filter_map_comm {A B} (f : B -> bool) (g : A -> B) (l : list A) :
  List.filter f (List.map g l) = List.map g (List.filter (fun x => f (g x)) l).
Proof.
  induction l as [|x l IH]; [reflexivity|]. cbn. rewrite IH. destruct (f (g x)); reflexivity.
Qed.

Lemma oidc_configuration_bodies (P : Aws.Platform) (L : string) :
  oidc_configuration P L =
  List.map body_content (List.filter oidc_body (List.map snd (Aws.rules_on P L))).
Proof.
  unfold oidc_configuration. rewrite !filter_map_comm, !map_map.
  f_equal. apply filter_ext. intros x. apply is_oidc_rule_describe.
Qed.

Lemma oidc_body_recreated (L : string) (b : Aws.RuleBody) :
  oidc_body (recreated L b) = oidc_body b.
Proof. unfold oidc_body. cbn. apply existsb_map. Qed.

Lemma body_content_recreated (L : string) (b : Aws.RuleBody) :
  body_content (recreated L b) = body_content b.
Proof.
  unfold body_content. cbn. f_equal. rewrite map_map. apply map_ext.
  intros a. apply hide_secret_twice.
Qed.

Lemma existsb_none {A} (f : A -> bool) (l : list A) :
  (forall x, In x l -> f x = false) -> existsb f l = false.
Proof.
  induction l as [|x l IH]; intros H; [reflexivity|].
  cbn. rewrite (H x) by (left; reflexivity). apply IH. intros y Hy. apply H. right. exact Hy.
Qed.

Lemma rules_on_insert (P : Aws.Platform) (L a : string) (b : Aws.RuleBody) :
  Aws.rules P !! a = None -> Aws.rb_listener b = L ->
  Aws.rules_on (Aws.with_rules P (<[a := b]> (Aws.rules P))) L ≡ₚ (a, b) :: Aws.rules_on P L.
Proof.
  intros Ha Hb. unfold Aws.rules_on. cbn [Aws.rules Aws.with_rules].
  rewrite (filter_Permutation _ _ _ (map_to_list_insert (Aws.rules P) a b Ha)).
  cbn. unfold Aws.on_listener at 1. cbn. rewrite Hb, String.eqb_refl. reflexivity.
Qed.

(** The loop of [common.restore_https_config] that creates the captured rules
    again: with distinct priorities, none of them in use on the listener,
    every creation succeeds. *)
Lemma recreate_rules_run (l : list (string * Aws.RuleBody)) (P : Aws.Platform) (L : string)
    (info : Aws.ListenerInfo) :
  Aws.listeners (Aws.top P) !! L = Some info ->
  NoDup (List.map (fun x => Aws.rb_priority x.2) l) ->
  (forall x y, In x l -> In y (Aws.rules_on P L) ->
     Aws.rb_priority y.2 <> Aws.rb_priority x.2) ->
  exists P' tr,
    run Aws.sdk
      (for_each (List.map Aws.describe l) (fun rule =>
         invoke (create_rule L (default 0%Z (Priority rule)) (Conditions rule) (Actions rule))))
      P = (inr tt, P', tr) /\
    Aws.top P' = Aws.top P /\
    Aws.default_actions P' = Aws.default_actions P /\
    List.map snd (Aws.rules_on P' L) ≡ₚ
      List.map snd (Aws.rules_on P L) ++ List.map (fun x => recreated L x.2) l.
Proof.
  set (body := fun rule : Rule =>
         invoke (create_rule L (default 0%Z (Priority rule)) (Conditions rule) (Actions rule))).
  revert P. induction l as [|[k b] l IH]; intros P HL Hnd Hfree.
  - exists P, []. cbn. rewrite app_nil_r. repeat split; reflexivity.
  - cbn [List.map snd] in Hnd. apply NoDup_cons in Hnd as [Hx Hnd].
    change (for_each (List.map Aws.describe ((k, b) :: l)) body)
      with (invoke (create_rule L (Aws.rb_priority b) (Aws.rb_conditions b)
                      (List.map Aws.hide_secret (Aws.rb_actions b))) >>>
            for_each (List.map Aws.describe l) body).
    rewrite run_bind, (run_invoke Aws.sdk (create_rule _ _ _ _)).
    cbn [Aws.sdk fst snd]. rewrite HL.
    rewrite existsb_none.
    2:{ intros y Hy. apply Z.eqb_neq. apply (Hfree (k, b) y); [left; reflexivity|exact Hy]. }
    cbn [fst snd].
    set (a := fresh (dom (Aws.rules P))).
    assert (Aws.rules P !! a = None) as Ha by (apply not_elem_of_dom, is_fresh).
    change {| Aws.rb_listener := L; Aws.rb_priority := Aws.rb_priority b;
              Aws.rb_conditions := Aws.rb_conditions b;
              Aws.rb_actions := List.map Aws.hide_secret (Aws.rb_actions b) |}
      with (recreated L b).
    set (P1 := Aws.with_rules P (<[a := recreated L b]> (Aws.rules P))).
    pose proof (rules_on_insert P L a (recreated L b) Ha eq_refl) as Hperm. fold P1 in Hperm.
    destruct (IH P1) as (P' & tr & Hrun & Htop & Hdef & Hrules).
    + exact HL.
    + exact Hnd.
    + intros x' y Hx' Hy. apply elem_of_In in Hy. rewrite Hperm in Hy.
      apply elem_of_cons in Hy as [->|Hy].
      * cbn. intros Heq. apply Hx. apply elem_of_In. apply in_map_iff.
        exists x'. split; [symmetry; exact Heq|exact Hx'].
      * apply (Hfree x' y); [right; exact Hx'|apply elem_of_In; exact Hy].
    + rewrite Hrun. eexists P', _.
      split; [reflexivity|]. split; [exact Htop|]. split; [exact Hdef|].
      rewrite Hrules, Hperm. cbn [List.map snd app].
      apply Permutation_middle.
Qed.

Lemma only_remove_rules (rules : list Rule) (n : nat) : only is_client (remove_rules rules n).
Proof.
  revert n. induction rules as [|r rules IH]; intros n; [exact I|].
  cbn [remove_rules]. destruct (negb _); [|apply IH].
  apply only_bind; [apply only_invoke; reflexivity|]. intros _. apply IH.
Qed.

Lemma filter_all {A} (f : A -> bool) (l : list A) :
  (forall x, In x l -> f x = true) -> List.filter f l = l.
Proof.
  induction l as [|x l IH]; intros H; [reflexivity|].
  cbn. rewrite (H x) by (left; reflexivity). f_equal. apply IH.
  intros y Hy. apply H. right. exact Hy.
Qed.

(** [common.restore_https_config] on the platform, for a snapshot of rules
    with distinct priorities: the rules of the HTTPS listener are deleted and
    the captured ones created again, so the listener ends with exactly
    these. *)
Lemma restore_https_config_run (P : Aws.Platform) (lb project_name : string) (l : Listener)
    (kept : list (string * Aws.RuleBody)) :
  Aws.has_balancer P lb = true ->
  listener_on 443 (Aws.listeners_of P lb) = Some l ->
  NoDup (List.map (fun x => Aws.rb_priority x.2) kept) ->
  let L := ListenerArn l in
  exists P',
    aws (restore_https_config lb (List.map Aws.describe kept) project_name) P = (inr tt, P') /\
    Aws.top P' = Aws.top P /\
    Aws.default_actions P' = Aws.default_actions P /\
    List.map snd (Aws.rules_on P' L) ≡ₚ List.map (fun x => recreated L x.2) kept.
Proof.
  intros Hlb Hl Hnd L.
  destruct (listener_on_info P lb 443 l Hl) as (info & HL & _). fold L in HL.
  cbn [aws]. unfold Common.restore_https_config.
  rewrite run_bind, run_invoke. cbn [Aws.sdk fst snd]. rewrite Hlb. cbn [fst snd].
  rewrite Hl. fold L.
  rewrite run_bind, run_invoke. cbn [Aws.sdk fst snd]. rewrite HL. cbn [fst snd].
  rewrite run_bind, <- run_aws_sdk by apply only_remove_rules.
  rewrite (remove_rules_run (Aws.rules_on P L) (Aws.default_rule P L) P 0);
    [|apply NoDup_rules_on
     |intros [k v] Hx; apply rules_on_elem in Hx as [Hx _]; exact Hx
     |reflexivity].
  rewrite foldl_delete_cleared.
  set (Pc := Aws.with_rules P (cleared P L)).
  assert (Aws.rules_on Pc L = []) as Hnone.
  { unfold Aws.rules_on. apply filter_none. intros [k v] Hin.
    apply elem_of_In, elem_of_map_to_list in Hin.
    unfold Aws.on_listener. cbn. apply String.eqb_neq.
    apply (cleared_off_listener P L k v Hin). }
  destruct (recreate_rules_run kept Pc L info HL Hnd) as (P' & tr & Hrun & Htop & Hdef & Hrules).
  { intros x y _ Hy. rewrite Hnone in Hy. destruct Hy. }
  rewrite Hrun. exists P'. unfold outcome, final. cbn [fst snd].
  split; [reflexivity|]. split; [exact Htop|]. split; [exact Hdef|].
  rewrite Hnone in Hrules. exact Hrules.
Qed.

(** A listener that holds the captured OIDC rules, created again, has their
    configuration. *)
Lemma oidc_configuration_recreated (P' : Aws.Platform) (L : string)
    (kept : list (string * Aws.RuleBody)) :
  List.map snd (Aws.rules_on P' L) ≡ₚ List.map (fun x => recreated L x.2) kept ->
  (forall x, In x kept -> oidc_body x.2 = true) ->
  oidc_configuration P' L ≡ₚ List.map (fun x => body_content x.2) kept.
Proof.
  intros Hrules Hoidc. rewrite oidc_configuration_bodies.
  rewrite (filter_Permutation _ _ _ Hrules).
  rewrite filter_all.
  2:{ intros b Hb. apply in_map_iff in Hb as (x & <- & Hx).
      rewrite oidc_body_recreated. apply Hoidc. exact Hx. }
  rewrite map_map.
  rewrite (map_ext (fun x => body_content (recreated L x.2)) (fun x => body_content x.2))
    by (intros x; apply body_content_recreated).
  reflexivity.
Qed.

Lemma oidc_configuration_kept (P : Aws.Platform) (L : string) :
  oidc_configuration P L =
  List.map (fun x => body_content x.2)
    (List.filter (fun x => oidc_body x.2) (Aws.rules_on P L)).
Proof.
  rewrite oidc_configuration_bodies, (filter_map_comm oidc_body snd), map_map. reflexivity.
Qed.

(** A snapshot was taken: the balancer is there, it has an HTTPS listener,
    the snapshot holds the OIDC rules described on it, and nothing changed. *)
Lemma preserve_env_state_success (P : Aws.Platform) (env_name project_name : string)
    (st : EnvState) :
  outcome (run aws (preserve_env_state env_name project_name) P) = inr (Some st) ->
  final (run aws (preserve_env_state env_name project_name) P) = P /\
  Aws.has_balancer P (load_balancer_arn st) = true /\
  exists l,
    listener_on 443 (Aws.listeners_of P (load_balancer_arn st)) = Some l /\
    https_config_of st =
      List.map Aws.describe
        (List.filter (fun x => oidc_body x.2) (Aws.rules_on P (ListenerArn l))) /\
    nonempty (https_config_of st) = true.
Proof.
  unfold preserve_env_state. rewrite run_aws_handler, run_bind, run_invoke.
  pose proof (find_environment_load_balancer_reads P env_name) as Hread.
  destruct (aws (find_environment_load_balancer env_name) P) as [r P1].
  cbn [fst snd] in Hread |- *. subst P1.
  destruct r as [e|[arn|]]; [discriminate| |discriminate].
  destruct (Py.truthy arn); [|discriminate]. cbn [negb].
  rewrite run_bind, run_invoke, preserve_https_config_run. cbn [fst snd].
  destruct (Aws.has_balancer P arn) eqn:Hlb; [|discriminate].
  destruct (listener_on 443 (Aws.listeners_of P arn)) as [l|] eqn:Hl; [|discriminate].
  destruct (nonempty (List.filter Common.is_oidc_rule _)) eqn:Hne; [|discriminate].
  cbn. intros H. injection H as <-. cbn.
  split; [reflexivity|]. split; [exact Hlb|]. exists l. split; [exact Hl|].
  rewrite filter_map_comm in Hne |- *.
  rewrite (filter_ext _ (fun x => oidc_body x.2)) in Hne |- * by apply is_oidc_rule_describe.
  split; [reflexivity|exact Hne].
Qed.

Lemma NoDup_map_Some {A B} (g : A -> B) (l : list A) :
  NoDup (List.map (fun x => Some (g x)) l) -> NoDup (List.map g l).
Proof.
  induction l as [|x l IH]; intros H; [constructor|].
  cbn in H |- *. apply NoDup_cons in H as [Hx H]. apply NoDup_cons. split; [|apply IH, H].
  intros Hin. apply Hx. apply elem_of_In in Hin. apply in_map_iff in Hin as (y & Hy & Hin).
  apply elem_of_In. apply in_map_iff. exists y. split; [congruence|exact Hin].
Qed.

(** ** Bundling ([create_app_bundle]) *)

Lemma create_app_bundle_filter (lines files : list string) :
  Bundle.create_app_bundle (Some lines) files =
  List.filter (Bundle.bundled (Bundle.parse_ebignore lines).1 (Bundle.parse_ebignore lines).2) files.
Proof.
  unfold Bundle.create_app_bundle. destruct (Bundle.parse_ebignore lines). reflexivity.
Qed.

Lemma bundled_not_ebignore (patterns negated : list string) :
  Bundle.bundled patterns negated ".ebignore" = false.
Proof.
  unfold Bundle.bundled. rewrite String.eqb_refl. apply andb_false_r.
Qed.

(** C6: with the ignore lines [build/], [*.log] and [!keep.log], the tree
    [build/out.txt], [app.log], [keep.log], [src/main.py] (with or without the
    ignore file itself, which real trees contain) is bundled as exactly
    [keep.log] and [src/main.py]; the decision is taken file by file, so the
    order of the walk does not matter; and [.ebignore] is in no bundle,
    whatever the ignore file holds and whatever the tree. *)
Theorem bundle_exclusion :
  let lines := ["build/"; "*.log"; "!keep.log"] in
  Bundle.create_app_bundle (Some lines)
    ["build/out.txt"; "app.log"; "keep.log"; "src/main.py"] = ["keep.log"; "src/main.py"] /\
  Bundle.create_app_bundle (Some lines)
    [".ebignore"; "app.log"; "keep.log"; "build/out.txt"; "src/main.py"]
    = ["keep.log"; "src/main.py"] /\
  (forall files f, In f (Bundle.create_app_bundle (Some lines) files) <->
     In f files /\
     Bundle.bundled ["build/"; "*.log"] ["keep.log"] f = true) /\
  (forall ebignore files, ~ In ".ebignore" (Bundle.create_app_bundle ebignore files)).
Proof.
  cbv zeta. split; [vm_compute; reflexivity|]. split; [vm_compute; reflexivity|]. split.
  - intros files f. rewrite create_app_bundle_filter.
    change (Bundle.parse_ebignore ["build/"; "*.log"; "!keep.log"])
      with (["build/"; "*.log"], ["keep.log"]).
    simpl fst. simpl snd. apply filter_In.
  - intros ebignore files Hin.
    assert (exists p n, In ".ebignore" (List.filter (Bundle.bundled p n) files)) as (p & n & H).
    { unfold Bundle.create_app_bundle in Hin.
      destruct ebignore as [lines|].
      - destruct (Bundle.parse_ebignore lines) as [p n]. eauto.
      - eauto. }
    apply filter_In in H as [_ H]. rewrite bundled_not_ebignore in H. discriminate.
Qed.

(** ** Polling the version ([wait_for_version]) *)

Section VersionPolls.
Variable script : nat -> list ApplicationVersion.
Variables app_name version : string.

Let poll (fuel k : nat) : exn + option unit :=
  outcome (run (version_feed script) (wait_for_version_loop fuel app_name version) k).

Lemma poll_absent (fuel k : nat) :
  script k = [] ->
  poll (S fuel) k = inl (DeploymentError ("Version " +:+ version +:+ " not found")).
Proof.
  intros H. unfold poll. cbn. rewrite H. reflexivity.
Qed.

Lemma poll_processed (fuel k : nat) :
  has_status "PROCESSED" (script k) = true -> poll (S fuel) k = inr (Some tt).
Proof.
  intros H. unfold poll. cbn. destruct (script k) as [|v0 vs]; [discriminate|].
  cbn in H |- *. rewrite H. reflexivity.
Qed.

Lemma poll_failed (fuel k : nat) :
  has_status "FAILED" (script k) = true ->
  poll (S fuel) k = inl (DeploymentError ("Version " +:+ version +:+ " processing failed")).
Proof.
  intros H. unfold poll. cbn. destruct (script k) as [|v0 vs]; [discriminate|].
  cbn in H |- *. apply String.eqb_eq in H. rewrite H. reflexivity.
Qed.

Lemma poll_pending (fuel k : nat) :
  pending (script k) = true -> poll (S fuel) k = poll fuel (S k).
Proof.
  intros H. unfold poll. cbn. destruct (script k) as [|v0 vs]; [discriminate|].
  cbn in H |- *. apply andb_true_iff in H as [H1 H2].
  apply negb_true_iff in H1, H2. rewrite H1, H2. cbn.
  destruct (run (version_feed script) (wait_for_version_loop fuel app_name version) (S k))
    as [[res w] tr]. reflexivity.
Qed.

Lemma poll_skip (n fuel k : nat) :
  (forall i, i < n -> pending (script (k + i)) = true) ->
  poll (n + fuel) k = poll fuel (k + n).
Proof.
  revert k. induction n as [|n IH]; intros k H.
  - rewrite Nat.add_0_r. reflexivity.
  - change (S n + fuel) with (S (n + fuel)). rewrite poll_pending.
    + rewrite IH.
      * f_equal. lia.
      * intros i Hi. replace (S k + i) with (k + S i) by lia. apply H. lia.
    + rewrite <- (Nat.add_0_r k). apply H. lia.
Qed.

Lemma poll_returns_only_processed (fuel k : nat) :
  poll fuel k = inr (Some tt) ->
  exists n, n < fuel /\ (forall i, i < n -> pending (script (k + i)) = true) /\
            has_status "PROCESSED" (script (k + n)) = true.
Proof.
  revert k. induction fuel as [|fuel IH]; intros k H.
  - discriminate.
  - destruct (pending (script k)) eqn:Hp.
    + rewrite poll_pending in H by exact Hp. apply IH in H as (n & Hn & Hpre & Hlast).
      exists (S n). split; [lia|]. split.
      * intros [|i] Hi; [rewrite Nat.add_0_r; exact Hp|].
        replace (k + S i) with (S k + i) by lia. apply Hpre. lia.
      * replace (k + S n) with (S k + n) by lia. exact Hlast.
    + exists 0. split; [lia|]. split; [intros i Hi; lia|].
      rewrite Nat.add_0_r. unfold poll in H. cbn in H.
      destruct (script k) as [|v0 vs]; [discriminate|]. cbn in Hp, H |- *.
      destruct (String.eqb (Status v0) "PROCESSED"); [reflexivity|].
      destruct (String.eqb (Status v0) "FAILED"); [discriminate|]. discriminate.
Qed.

Lemma wait_for_version_poll (fuel : nat) :
  outcome (run (version_feed script) (wait_for_version fuel app_name version) 0) = poll fuel 0.
Proof.
  unfold poll, wait_for_version. cbn.
  destruct (run (version_feed script) (wait_for_version_loop fuel app_name version) 0)
    as [[res w] tr]. reflexivity.
Qed.

End VersionPolls.

Lemma append_cancel (s a b : string) : s +:+ a = s +:+ b -> a = b.
Proof.
  induction s as [|c s IH]; intros H; [exact H|].
  apply IH. change (String c (s +:+ a) = String c (s +:+ b)) in H. congruence.
Qed.

(** C10: against a version service whose answers to the successive polls are
    [script 0], [script 1], ... (earlier ones still being processed), the
    first answer that is empty makes [wait_for_version] raise "not found",
    the first with status PROCESSED makes it return, the first with status
    FAILED makes it raise "processing failed"; it returns only after an
    answer with status PROCESSED; and the two exceptions differ. *)
Theorem wait_for_version_outcomes (script : nat -> list ApplicationVersion)
    (app_name version : string) (fuel : nat) :
  let result := outcome (run (version_feed script) (wait_for_version fuel app_name version) 0) in
  (forall n, n < fuel -> (forall i, i < n -> pending (script i) = true) ->
     (script n = [] ->
        result = inl (DeploymentError ("Version " +:+ version +:+ " not found"))) /\
     (has_status "PROCESSED" (script n) = true -> result = inr (Some tt)) /\
     (has_status "FAILED" (script n) = true ->
        result = inl (DeploymentError ("Version " +:+ version +:+ " processing failed")))) /\
  (result = inr (Some tt) ->
     exists n, n < fuel /\ (forall i, i < n -> pending (script i) = true) /\
               has_status "PROCESSED" (script n) = true) /\
  DeploymentError ("Version " +:+ version +:+ " not found") <>
  DeploymentError ("Version " +:+ version +:+ " processing failed").
Proof.
  cbv zeta. rewrite wait_for_version_poll. split; [|split].
  - intros n Hn Hpre.
    replace fuel with (n + S (fuel - S n)) by lia.
    rewrite poll_skip by exact Hpre. simpl.
    split; [apply poll_absent|split; [apply poll_processed|apply poll_failed]].
  - intros H. apply poll_returns_only_processed in H. exact H.
  - intros H. injection H as H. apply append_cancel in H. apply append_cancel in H.
    discriminate.
Qed.

(** ** Validation of the OIDC variables ([check_oidc_vars]) *)

Lemma map_old_names_unset (var_mapping : list (string * string)) (environ : gmap string string) :
  (forall o n, In (o, n) var_mapping -> environ !! o = None) ->
  map_old_names var_mapping environ = Ret environ.
Proof.
  induction var_mapping as [|[o n] rest IH]; intros H; [reflexivity|].
  simpl. rewrite (H o n) by (left; reflexivity).
  apply IH. intros o' n' Hin. apply (H o' n'). right. exact Hin.
Qed.

Lemma missing_vars_all_but_client_id (environ : gmap string string) :
  is_missing environ "LB_OIDC_CLIENT_ID" = false ->
  is_missing environ "LB_OIDC_CLIENT_SECRET" = true ->
  is_missing environ "LB_OIDC_ISSUER" = true ->
  is_missing environ "LB_OIDC_AUTH_ENDPOINT" = true ->
  is_missing environ "LB_OIDC_TOKEN_ENDPOINT" = true ->
  is_missing environ "LB_OIDC_USERINFO_ENDPOINT" = true ->
  missing_vars environ =
    ["LB_OIDC_CLIENT_SECRET"; "LB_OIDC_ISSUER"; "LB_OIDC_AUTH_ENDPOINT";
     "LB_OIDC_TOKEN_ENDPOINT"; "LB_OIDC_USERINFO_ENDPOINT"].
Proof.
  intros H1 H2 H3 H4 H5 H6. unfold missing_vars, required_vars.
  cbn [List.filter List.map snd]. rewrite H1, H2, H3, H4, H5, H6. reflexivity.
Qed.

(** One call of a program that stays on the host: it returns. *)
Ltac local_step h Hlocal :=
  match goal with
  | |- context [h ?c ?w] =>
      let x := fresh "x" in
      let Hx := fresh "Hx" in
      let r := fresh "r" in
      let w' := fresh "w" in
      destruct (Hlocal c w eq_refl) as [x Hx];
      destruct (h c w) as [r w'];
      cbn in Hx; subst r; cbn
  end.

Lemma check_oidc_vars_run {W} (h : handler W) (w : W) (config : Config)
    (environ : gmap string string) :
  local_calls_return h ->
  (forall m, (h get_old_to_new_env_mapping w).1 = inr m ->
     forall o n, In (o, n) m -> environ !! o = None) ->
  missing_vars environ = five_missing ->
  exists w' tr,
    run h (check_oidc_vars config environ) w = (inr (false, environ), w', tr) /\
    logged ERROR tr =
      "Missing required OIDC configuration variables:" ::
      List.map (fun var => "  - " +:+ var) five_missing /\
    remote_calls tr = [].
Proof.
  intros Hlocal Hmap Hmiss.
  unfold check_oidc_vars. cbn [bind invoke run].
  destruct (Hlocal get_old_to_new_env_mapping w eq_refl) as [m Hm].
  specialize (Hmap m Hm).
  destruct (h get_old_to_new_env_mapping w) as [r w0]. cbn in Hm. subst r.
  cbn [bind]. rewrite (map_old_names_unset m environ Hmap). cbn [bind].
  rewrite Hmiss. cbn.
  repeat local_step h Hlocal.
  eexists _, _. split; [reflexivity|]. split; reflexivity.
Qed.

(** C8: when [LB_OIDC_CLIENT_ID] is set and the five other variables are not
    (and no legacy name of the mapping is set), [check_oidc_vars] leaves the
    environment as it is, returns [False], reports exactly the five other
    names as missing, and calls nothing remote; so does
    [validate_oidc_config] on a configuration with an [oidc] section. *)
Theorem missing_oidc_vars_reported {W} (h : handler W) (w : W) (config : Config)
    (environ : gmap string string) :
  local_calls_return h ->
  (forall m, (h get_old_to_new_env_mapping w).1 = inr m ->
     forall o n, In (o, n) m -> environ !! o = None) ->
  is_missing environ "LB_OIDC_CLIENT_ID" = false ->
  is_missing environ "LB_OIDC_CLIENT_SECRET" = true ->
  is_missing environ "LB_OIDC_ISSUER" = true ->
  is_missing environ "LB_OIDC_AUTH_ENDPOINT" = true ->
  is_missing environ "LB_OIDC_TOKEN_ENDPOINT" = true ->
  is_missing environ "LB_OIDC_USERINFO_ENDPOINT" = true ->
  let five := ["LB_OIDC_CLIENT_SECRET"; "LB_OIDC_ISSUER"; "LB_OIDC_AUTH_ENDPOINT";
               "LB_OIDC_TOKEN_ENDPOINT"; "LB_OIDC_USERINFO_ENDPOINT"] in
  let reported := "Missing required OIDC configuration variables:" ::
                  List.map (fun var => "  - " +:+ var) five in
  let R := run h (check_oidc_vars config environ) w in
  let V := run h (validate_oidc_config config environ) w in
  missing_vars environ = five /\
  outcome R = inr (false, environ) /\
  logged ERROR (trace R) = reported /\
  remote_calls (trace R) = [] /\
  (oidc config <> None ->
   outcome V = inr (false, environ) /\
   logged ERROR (trace V) = reported /\
   remote_calls (trace V) = []).
Proof.
  intros Hlocal Hmap H1 H2 H3 H4 H5 H6. cbv zeta.
  pose proof (missing_vars_all_but_client_id environ H1 H2 H3 H4 H5 H6) as Hmiss.
  split; [exact Hmiss|].
  destruct (check_oidc_vars_run h w config environ Hlocal Hmap Hmiss)
    as (w' & tr & Hrun & Hlog & Hremote).
  rewrite Hrun. split; [reflexivity|]. split; [exact Hlog|]. split; [exact Hremote|].
  intros Hoidc. unfold validate_oidc_config.
  destruct (oidc config) as [o|]; [|congruence].
  rewrite run_bind, Hrun. cbn. rewrite app_nil_r.
  split; [reflexivity|]. split; [exact Hlog|exact Hremote].
Qed.

(** ** Looking up the load balancer *)

(** C7 does not hold of [find_listener_arn]: with no environment deployed,
    the resolver of [shield.py] raises instead of returning "not found". *)
Lemma find_listener_arn_raises :
  outcome (run aws (find_listener_arn "prod") Sample.empty) =
  inl (DeploymentError "Environment prod not found").
Proof. vm_compute. reflexivity. Qed.

(** C7, as the code has it: [preserve_env_state] takes a balancer that was not
    found as "nothing to preserve" and returns [None] without any further
    call; [find_listener_arn] raises a [DeploymentError] when the environment
    does not exist, and when no application load balancer carries its tag. *)
Theorem resolver_not_found (P : Aws.Platform) (env_name project_name : string) :
  (forall W (h : handler W) (w : W) lb,
     (h (find_environment_load_balancer env_name) w).1 = inr lb ->
     truthy_opt_str lb = false ->
     run h (preserve_env_state env_name project_name) w =
       (inr None, (h (find_environment_load_balancer env_name) w).2,
        [Event (find_environment_load_balancer env_name) (inr lb)])) /\
  ((forall e, In e (Aws.environments (Aws.top P)) -> EnvironmentName e <> env_name) ->
   outcome (run aws (find_listener_arn env_name) P) =
     inl (DeploymentError ("Environment " +:+ env_name +:+ " not found"))) /\
  ((exists e, In e (Aws.environments (Aws.top P)) /\ EnvironmentName e = env_name) ->
   (forall arn lb, Aws.load_balancers (Aws.top P) !! arn = Some lb ->
      Aws.tagged_to env_name lb = false) ->
   outcome (run aws (find_listener_arn env_name) P) =
     inl (DeploymentError ("No load balancer found for environment " +:+ env_name))).
Proof.
  split; [|split].
  - intros W h w lb Hlb Hfalsy. unfold preserve_env_state.
    rewrite run_aws_handler. cbn [bind invoke run].
    destruct (h (find_environment_load_balancer env_name) w) as [r w1].
    cbn in Hlb. subst r. cbn.
    destruct lb as [arn|]; [|reflexivity].
    cbn in Hfalsy. rewrite Hfalsy. reflexivity.
  - intros Habs. unfold find_listener_arn. rewrite run_aws_handler.
    rewrite run_bind, run_invoke. cbn [aws Aws.sdk quiet fst snd].
    rewrite run_bind, run_invoke. cbn [aws Aws.sdk fst snd].
    rewrite filter_none; [reflexivity|].
    intros e He. rewrite in_list_single. apply String.eqb_neq. apply Habs. exact He.
  - intros (e & He & Hname) Hnone. unfold find_listener_arn. rewrite run_aws_handler.
    rewrite run_bind, run_invoke. cbn [aws Aws.sdk quiet fst snd].
    rewrite run_bind, run_invoke. cbn [aws Aws.sdk fst snd].
    destruct (List.filter _ (Aws.environments (Aws.top P))) as [|e0 es] eqn:Hf.
    { exfalso. assert (In e []) as []. rewrite <- Hf. apply filter_In. split; [exact He|].
      rewrite in_list_single. apply String.eqb_eq. exact Hname. }
    cbn [nonempty negb]. rewrite run_bind, run_invoke. cbn [aws Aws.sdk fst snd].
    rewrite run_bind.
    destruct (find_env_lb_untagged P env_name (map_to_list (Aws.load_balancers (Aws.top P))))
      as [tr Hrun].
    { intros [arn lb] Hin. apply elem_of_In, elem_of_map_to_list in Hin. exact Hin. }
    { intros [arn lb] Hin. apply elem_of_In, elem_of_map_to_list in Hin.
      apply (Hnone arn lb). exact Hin. }
    rewrite Hrun. reflexivity.
Qed.

(** ** Create or update ([create_or_update_env]) *)

(** Follow the program through one more answer of the callee side. *)
Ltac answer h :=
  match goal with
  | |- context [h ?c ?w] =>
      let e := fresh "e" in
      let x := fresh "x" in
      let w' := fresh "w" in
      destruct (h c w) as [[e|x] w']; cbn
  end.

(** ... and through the cases of a value the program tests. *)
Ltac explore h :=
  first
    [ answer h
    | match goal with
      | |- context [match ?x with _ => _ end] => is_var x; destruct x; cbn
      | |- context [nonempty ?x] => is_var x; destruct x; cbn
      | |- context [Py.truthy ?x] => is_var x; destruct x; cbn
      end ].

Lemma restore_follows_ready_split (env_name : string) (tr pre post : list event)
    (seen : bool) (lb : string) (hc : HttpsConfig) (p : string)
    (r : exn + response (restore_https_config lb hc p)) :
  restore_follows_ready env_name seen tr = true ->
  tr = pre ++ Event (restore_https_config lb hc p) r :: post ->
  seen = true \/ exists ev, In ev pre /\ is_ready_report env_name ev = true.
Proof.
  revert tr seen. induction pre as [|ev pre IH]; intros tr seen H ->.
  - cbn in H. apply andb_true_iff in H as [H _]. left. exact H.
  - cbn [app restore_follows_ready] in H. apply andb_true_iff in H as [_ H].
    destruct (IH _ _ H eq_refl) as [Hs|(ev' & Hin & Hev)].
    + apply orb_true_iff in Hs as [Hs|Hs]; [left; exact Hs|].
      right. exists ev. split; [left; reflexivity|exact Hs].
    + right. exists ev'. split; [right; exact Hin|exact Hev].
Qed.

Lemma create_or_update_env_order {W} (h : handler W) (w : W) (config : Config)
    (version project_name : string) :
  restore_follows_ready (application_environment config) false
    (trace (run h (create_or_update_env config version project_name) w)) = true.
Proof.
  unfold create_or_update_env, preserve_env_state, restore_env_state. cbn.
  repeat explore h; rewrite ?String.eqb_refl; reflexivity.
Qed.

Lemma create_path_never_restores {W} (h : handler W) (w : W) (config : Config)
    (version project_name : string) :
  match trace (run h (create_or_update_env config version project_name) w) with
  | Event (describe_environments _ _) (inr []) :: rest => no_restore rest = true
  | _ => True
  end.
Proof.
  unfold create_or_update_env, preserve_env_state, restore_env_state. cbn.
  repeat explore h; first [exact I | reflexivity].
Qed.

(** C3: in every run of [create_or_update_env], against any callee side, a
    call of [restore_https_config] comes only after the wait step has
    returned for status Ready; when the existence check finds no environment
    (the create path) no restore is issued at all; and [restore_env_state] on
    an empty snapshot returns at once, without a call. *)
Theorem restore_only_after_ready {W} (h : handler W) (w : W) (config : Config)
    (version project_name : string) :
  let env_name := application_environment config in
  let R := run h (create_or_update_env config version project_name) w in
  (forall pre post lb hc p r,
     trace R = pre ++ Event (restore_https_config lb hc p) r :: post ->
     exists ev, In ev pre /\ is_ready_report env_name ev = true) /\
  (forall rest,
     trace R = Event (describe_environments [env_name] false) (inr []) :: rest ->
     forall ev, In ev rest -> is_restore (call_of ev) = false) /\
  (forall W' (h' : handler W') (w' : W'),
     run h' (restore_env_state None project_name) w' = (inr tt, w', [])).
Proof.
  cbv zeta. split; [|split].
  - intros pre post lb hc p r Htr.
    pose proof (create_or_update_env_order h w config version project_name) as Hord.
    destruct (restore_follows_ready_split _ _ _ _ _ _ _ _ _ Hord Htr) as [Hs|Hev];
      [discriminate|exact Hev].
  - intros rest Htr ev Hin.
    pose proof (create_path_never_restores h w config version project_name) as Hno.
    rewrite Htr in Hno. unfold no_restore in Hno. apply negb_true_iff in Hno.
    destruct (is_restore (call_of ev)) eqn:Hev; [|reflexivity].
    assert (existsb (fun ev => is_restore (call_of ev)) rest = true) as Hex.
    { apply existsb_exists. exists ev. split; [exact Hin|exact Hev]. }
    congruence.
  - intros W' h' w'. reflexivity.
Qed.

Ltac pick_settings k :=
  match goal with
  | |- context [Event (get_env_settings _) (inr ?s)] => k s
  | _ => k (@nil OptionSetting)
  end.

Ltac pick_balancer k :=
  match goal with
  | |- context [Event (find_environment_load_balancer _) (inr ?lb)] => k lb
  | _ => k (@None string)
  end.

Ltac pick_snapshot k :=
  match goal with
  | |- context [Event (preserve_https_config _ _) (inr ?hc)] => k hc
  | _ => k (@None HttpsConfig)
  end.

(** C2: [create_or_update_env] first asks for the environment by name,
    deleted ones excluded.  When none is found, the remote calls that follow
    are the create call, whose option settings are the settings
    [get_env_settings] answered with the [LoadBalancerType] setting appended,
    and the wait.  When one is found, they are: the lookup of the balancer
    and, when it answers a balancer, the snapshot (the preserve calls); the
    update call with exactly the settings answered, so without
    [LoadBalancerType]; the wait for [Ready]; and, when the snapshot answered
    is not empty, the restore of that snapshot on that balancer.  The
    settings, the balancer and the snapshot are the ones the callee side
    answered in this run.  A run that fails stops somewhere along that
    sequence. *)
Theorem create_or_update_branches {W} (h : handler W) (w : W) (config : Config)
    (version project_name : string) :
  let env_name := application_environment config in
  let R := run h (create_or_update_env config version project_name) w in
  exists r rest,
    trace R = Event (describe_environments [env_name] false) r :: rest /\
    match r with
    | inl e => outcome R = inl e /\ rest = []
    | inr environments =>
        exists settings lb hc,
          let load_balancer_type :=
            {| Namespace := "aws:elasticbeanstalk:environment";
               OptionName := "LoadBalancerType";
               Value := instance_elb_type config |} in
          let expected :=
            if nonempty environments
            then
              find_environment_load_balancer env_name ::
              (if truthy_opt_str lb
               then [preserve_https_config (default "" lb) project_name] else []) ++
              [ update_environment env_name version settings;
                wait_for_env_status env_name "Ready" ] ++
              (if truthy_opt_str lb && truthy_opt_list hc
               then [restore_https_config (default "" lb) (default [] hc) project_name]
               else [])
            else
              [ create_environment (application_name config) env_name version
                  (aws_platform config) (settings ++ [load_balancer_type]);
                wait_for_env_status env_name "Ready" ] in
          remote_calls rest `prefix_of` expected /\
          (outcome R = inr tt ->
           remote_calls rest = expected /\ answered_settings rest = Some settings /\
           (nonempty environments = true ->
            answered_balancer rest = Some lb /\
            (truthy_opt_str lb = true -> answered_snapshot rest = Some hc))) /\
          (forall s, answered_settings rest = Some s -> s = settings) /\
          (forall b, answered_balancer rest = Some b -> b = lb) /\
          (forall s, answered_snapshot rest = Some s -> s = hc)
    end.
Proof.
  cbv zeta.
  unfold create_or_update_env, preserve_env_state, restore_env_state. cbn.
  answer h; [eexists _, _; split; [reflexivity|split; reflexivity]|].
  repeat explore h;
    (eexists _, _; split; [reflexivity|]);
    pick_settings ltac:(fun s => pick_balancer ltac:(fun lb => pick_snapshot ltac:(fun hc =>
      exists s, lb, hc)));
    cbn;
    (split;
     [ first [ apply prefix_nil | eexists; reflexivity ]
     | split;
       [ let Hout := fresh "Hout" in
         intros Hout;
         first
           [ discriminate Hout
           | split; [reflexivity|]; split; [reflexivity|];
             let Hex := fresh "Hex" in
             intros Hex;
             first
               [ discriminate Hex
               | split; [reflexivity|];
                 let Hlb := fresh "Hlb" in
                 intros Hlb; first [ discriminate Hlb | reflexivity ] ] ]
       | split; [|split];
         let s := fresh "s" in let Hs := fresh "Hs" in
         intros s Hs; cbn in Hs; congruence ] ]).
Qed.

(** ** The authentication gate ([configure_oidc_auth]) *)

(** C5: after a run of [configure_oidc_auth] that succeeds, where [L] is the
    HTTPS listener [find_listener_arn] resolves and [tg] the target group of
    its balancer: every rule that was on [L] has been deleted by a call that
    succeeded; [describe_rules] lists exactly two rules on [L].  The first is
    the gate: priority 1, the one condition path-pattern [/*], and two
    actions, authenticate-oidc at order 1 (issuer, endpoints and client id
    from the variables of the environment or else from the section, the
    session keys from the section, the secret never shown) and forward to
    [tg] at order 2.  The second is the default rule, whose only action is
    the fixed 503 response "Unauthorized Access".  The rule the platform
    keeps holds the secret that was chosen. *)
Theorem gate_after_configure (P : Aws.Platform) (config : Config)
    (client_secret : option string) (environ : gmap string string) :
  let R := run aws (configure_oidc_auth config client_secret environ) P in
  outcome R = inr tt ->
  exists o ends sess cid iss a t u cn tm sc L lb tg arn,
    oidc config = Some o /\ client_id o = Some cid /\ issuer o = Some iss /\
    endpoints o = Some ends /\ authorization ends = Some a /\ token ends = Some t /\
    userinfo ends = Some u /\ session o = Some sess /\
    cookie_name sess = Some cn /\ timeout sess = Some tm /\ scope sess = Some sc /\
    outcome (run aws (find_listener_arn (application_environment config)) P) = inr (L, lb) /\
    outcome (run aws (find_target_group_arn lb) P) = inr tg /\
    (forall x, In x (Aws.rules_on P L) -> In (Event (delete_rule x.1) (inr tt)) (trace R)) /\
    let authenticate (secret : option string) : Action :=
      {| ActionType := "authenticate-oidc";
         Order := Some 1%Z;
         OidcConfig := Some
           {| Issuer := default iss (environ !! "LB_OIDC_ISSUER");
              AuthorizationEndpoint := default a (environ !! "LB_OIDC_AUTH_ENDPOINT");
              TokenEndpoint := default t (environ !! "LB_OIDC_TOKEN_ENDPOINT");
              UserInfoEndpoint := default u (environ !! "LB_OIDC_USERINFO_ENDPOINT");
              ClientId := default cid (environ !! "LB_OIDC_CLIENT_ID");
              ClientSecret := secret;
              SessionCookieName := cn;
              SessionTimeout := tm;
              Scope := sc;
              OnUnauthenticatedRequest := "authenticate" |};
         TargetGroupArn := None; FixedResponse := None; Redirect := None |} in
    let forward : Action :=
      {| ActionType := "forward"; Order := Some 2%Z; OidcConfig := None;
         TargetGroupArn := Some tg; FixedResponse := None; Redirect := None |} in
    let deny : Action :=
      {| ActionType := "fixed-response"; Order := None; OidcConfig := None;
         TargetGroupArn := None;
         FixedResponse := Some {| MessageBody := "Unauthorized Access"; StatusCode := "503";
                                  ContentType := "text/plain" |};
         Redirect := None |} in
    let every_path : Condition := {| Field := "path-pattern"; Values := ["/*"] |} in
    let shown : list Rule :=
      [ {| RuleArn := arn; Priority := Some 1%Z; Conditions := [every_path];
           Actions := [authenticate None; forward]; IsDefault := Some false |};
        {| RuleArn := L +:+ "/default"; Priority := None; Conditions := [];
           Actions := [deny]; IsDefault := Some true |} ] in
    (aws (describe_rules L) (final R)).1 = inr shown /\
    Aws.default_actions (final R) !! L = Some [deny] /\
    Aws.rules_on (final R) L =
      [ (arn, {| Aws.rb_listener := L; Aws.rb_priority := 1;
                 Aws.rb_conditions := [every_path];
                 Aws.rb_actions :=
                   [authenticate (Some (chosen_secret client_secret environ P)); forward] |}) ].
Proof.
  cbv zeta. intros Hok.
  destruct (configure_oidc_auth_success P config client_secret environ Hok)
    as (c & auth & L & lb & tg & domain & Hc & Hauth & Hsecret & Hres).
  destruct (configure_oidc_auth_run P config c auth client_secret environ L lb tg domain
              Hc Hauth Hsecret Hres) as (tr & Hrun & _ & Hdel & _).
  destruct (resolve_listener_parts _ _ _ _ _ _ Hres) as (Hfind & _ & Htg).
  destruct (resolve_listener_success _ _ _ _ _ _ Hres) as (_ & info & HL & Hport & _).
  destruct (oidc_config_inr _ _ _ _ Hc)
    as (o & ends & sess & cid & iss & a & t & u & Ho & H1 & H2 & H3 & H4 & H5 & H6 & H7 & ->).
  destruct (auth_action_inr _ _ Hauth) as (cn & tm & sc & H8 & H9 & H10 & ->).
  cbn [with_client_secret oc_session] in H8, H9, H10.
  exists o, ends, sess, cid, iss, a, t, u, cn, tm, sc, L, lb, tg, (gate_arn P L).
  rewrite Hrun. unfold final, trace. cbn [fst snd].
  set (auth := authenticate_oidc _ cn tm sc) in *.
  destruct (secured_view P L lb tg auth info HL Hport) as [Hd Hview].
  do 11 (split; [assumption|]).
  split; [exact Hfind|]. split; [exact Htg|]. split; [exact Hdel|].
  split; [exact Hview|]. split; [exact Hd|].
  change (Aws.rules_on (secured P L lb tg auth) L)
    with (Aws.rules_on (Aws.with_rules P
            (<[gate_arn P L := gate_rule L tg auth]> (cleared P L))) L).
  apply rules_on_gate; [apply cleared_off_listener|apply gate_arn_fresh|reflexivity].
Qed.

(** C9: on a platform where the section has its keys, the secret is
    available and the listener, the domain and the target group resolve, and
    the balancer has no listener on port 80, [configure_oidc_auth] succeeds;
    it logs that the HTTP listener was not found; the calls that change
    anything are the deletions of the rules of the HTTPS listener [L], one
    [modify_listener] on [L] and one [create_rule] on [L]; and the default
    actions of the other listeners and the rules of the other listeners are
    as before. *)
Theorem no_http_listener_tolerated (P : Aws.Platform) (config : Config) (c : OidcDict)
    (auth : option Z -> Action)
    (client_secret : option string) (environ : gmap string string) (L lb tg domain : string) :
  oidc_config config client_secret environ = inr c ->
  auth_action (with_client_secret c (chosen_secret client_secret environ P)) = inr auth ->
  Py.truthy (chosen_secret client_secret environ P) = true ->
  outcome (run aws (resolve_listener (application_environment config)) P) =
    inr (L, lb, tg, domain) ->
  (forall arn info, Aws.listeners (Aws.top P) !! arn = Some info ->
     Aws.li_balancer info = lb -> Aws.li_port info <> 80%Z) ->
  let R := run aws (configure_oidc_auth config client_secret environ) P in
  outcome R = inr tt /\
  In (Event (logger INFO "HTTP listener not found") (inr tt)) (trace R) /\
  mutations (trace R) =
    List.map (fun x => delete_rule x.1) (Aws.rules_on P L) ++
    [ modify_listener L [deny_action];
      create_rule L 1 [all_paths] [auth (Some 1%Z); forward_action tg (Some 2%Z)] ] /\
  Aws.top (final R) = Aws.top P /\
  (forall arn, arn <> L -> Aws.default_actions (final R) !! arn = Aws.default_actions P !! arn) /\
  (forall k v, Aws.rules P !! k = Some v -> Aws.rb_listener v <> L ->
     Aws.rules (final R) !! k = Some v).
Proof.
  intros Hc Hauth Hsecret Hres Hno. cbv zeta.
  pose proof (listener_on_none P lb 80 Hno) as Hhttp.
  destruct (configure_oidc_auth_run P config c auth client_secret environ L lb tg domain
              Hc Hauth Hsecret Hres) as (tr & Hrun & Hmut & _ & Hlog).
  rewrite Hrun. unfold outcome, final, trace. cbn [fst snd].
  rewrite Hhttp in Hmut. rewrite app_nil_r in Hmut.
  split; [reflexivity|]. split; [apply Hlog; exact Hhttp|]. split; [exact Hmut|].
  split; [reflexivity|]. split.
  - intros arn Hne. unfold secured. cbn [Aws.default_actions]. rewrite Hhttp.
    apply lookup_insert_ne. congruence.
  - intros k v Hk Hv. unfold secured. cbn [Aws.rules].
    assert (cleared P L !! k = Some v) as Hcl.
    { unfold cleared. apply map_lookup_filter_Some. split; [exact Hk|exact Hv]. }
    rewrite lookup_insert_ne; [exact Hcl|].
    intros Heq. pose proof (gate_arn_fresh P L) as Hf. rewrite Heq in Hf. congruence.
Qed.

(** C4: when a run of [configure_oidc_auth] has succeeded, a second run with
    the same configuration, secret and environment succeeds as well and
    leaves the platform exactly as the first one left it.  On the HTTPS
    listener [L], [describe_rules] lists after either run the same two
    rules: the one gate rule, priority 1, path-pattern [/*], with the two
    actions authenticate-oidc at order 1 and forward to the target group at
    order 2, and the default rule with the fixed 503 response. *)
Theorem configure_twice (P : Aws.Platform) (config : Config)
    (client_secret : option string) (environ : gmap string string) :
  let R1 := run aws (configure_oidc_auth config client_secret environ) P in
  let R2 := run aws (configure_oidc_auth config client_secret environ) (final R1) in
  outcome R1 = inr tt ->
  outcome R2 = inr tt /\
  final R2 = final R1 /\
  exists o ends sess cid iss a t u cn tm sc L lb tg arn,
    oidc config = Some o /\ client_id o = Some cid /\ issuer o = Some iss /\
    endpoints o = Some ends /\ authorization ends = Some a /\ token ends = Some t /\
    userinfo ends = Some u /\ session o = Some sess /\
    cookie_name sess = Some cn /\ timeout sess = Some tm /\ scope sess = Some sc /\
    outcome (run aws (find_listener_arn (application_environment config)) P) = inr (L, lb) /\
    outcome (run aws (find_target_group_arn lb) P) = inr tg /\
    let authenticate (secret : option string) : Action :=
      {| ActionType := "authenticate-oidc";
         Order := Some 1%Z;
         OidcConfig := Some
           {| Issuer := default iss (environ !! "LB_OIDC_ISSUER");
              AuthorizationEndpoint := default a (environ !! "LB_OIDC_AUTH_ENDPOINT");
              TokenEndpoint := default t (environ !! "LB_OIDC_TOKEN_ENDPOINT");
              UserInfoEndpoint := default u (environ !! "LB_OIDC_USERINFO_ENDPOINT");
              ClientId := default cid (environ !! "LB_OIDC_CLIENT_ID");
              ClientSecret := secret;
              SessionCookieName := cn;
              SessionTimeout := tm;
              Scope := sc;
              OnUnauthenticatedRequest := "authenticate" |};
         TargetGroupArn := None; FixedResponse := None; Redirect := None |} in
    let forward : Action :=
      {| ActionType := "forward"; Order := Some 2%Z; OidcConfig := None;
         TargetGroupArn := Some tg; FixedResponse := None; Redirect := None |} in
    let deny : Action :=
      {| ActionType := "fixed-response"; Order := None; OidcConfig := None;
         TargetGroupArn := None;
         FixedResponse := Some {| MessageBody := "Unauthorized Access"; StatusCode := "503";
                                  ContentType := "text/plain" |};
         Redirect := None |} in
    let every_path : Condition := {| Field := "path-pattern"; Values := ["/*"] |} in
    let shown : list Rule :=
      [ {| RuleArn := arn; Priority := Some 1%Z; Conditions := [every_path];
           Actions := [authenticate None; forward]; IsDefault := Some false |};
        {| RuleArn := L +:+ "/default"; Priority := None; Conditions := [];
           Actions := [deny]; IsDefault := Some true |} ] in
    (aws (describe_rules L) (final R1)).1 = inr shown /\
    (aws (describe_rules L) (final R2)).1 = inr shown /\
    Aws.default_actions (final R1) !! L = Some [deny] /\
    Aws.default_actions (final R2) !! L = Some [deny].
Proof.
  cbv zeta. intros Hok.
  destruct (configure_oidc_auth_success P config client_secret environ Hok)
    as (c & auth & L & lb & tg & domain & Hc & Hauth & Hsecret & Hres).
  destruct (configure_oidc_auth_run P config c auth client_secret environ L lb tg domain
              Hc Hauth Hsecret Hres) as (tr & Hrun & _).
  rewrite Hrun. unfold final. cbn [fst snd].
  set (P1 := secured P L lb tg auth).
  assert (outcome (run aws (resolve_listener (application_environment config)) P1) =
          inr (L, lb, tg, domain)) as Hres1.
  { rewrite <- Hres. symmetry.
    apply (run_reads_topology _ P P1 (only_resolve_listener _) eq_refl). }
  destruct (configure_oidc_auth_run P1 config c auth client_secret environ L lb tg domain
              Hc Hauth Hsecret Hres1) as (tr1 & Hrun1 & _).
  unfold P1 in Hrun1 at 2. rewrite secured_idempotent in Hrun1.
  fold P1 in Hrun1. rewrite Hrun1. unfold outcome at 1. cbn [fst snd].
  split; [reflexivity|]. split; [reflexivity|].
  destruct (resolve_listener_parts _ _ _ _ _ _ Hres) as (Hfind & _ & Htg).
  destruct (resolve_listener_success _ _ _ _ _ _ Hres) as (_ & info & HL & Hport & _).
  destruct (oidc_config_inr _ _ _ _ Hc)
    as (o & ends & sess & cid & iss & a & t & u & Ho & H1 & H2 & H3 & H4 & H5 & H6 & H7 & Hcv).
  destruct (auth_action_inr _ _ Hauth) as (cn & tm & sc & H8 & H9 & H10 & Hav).
  cbn [with_client_secret oc_session] in H8, H9, H10.
  assert (oc_session c = sess) as Hs by (rewrite Hcv; reflexivity).
  rewrite Hs in H8, H9, H10.
  destruct (secured_view P L lb tg auth info HL Hport) as [Hd Hview].
  exists o, ends, sess, cid, iss, a, t, u, cn, tm, sc, L, lb, tg, (gate_arn P L).
  do 11 (split; [assumption|]).
  split; [exact Hfind|]. split; [exact Htg|].
  fold P1 in Hd, Hview. rewrite Hav, Hcv in Hview.
  split; [exact Hview|]. split; [exact Hview|]. split; [exact Hd|exact Hd].
Qed.

(** ** Snapshot and restore ([preserve_env_state], [restore_env_state]) *)

(** C1: on the platform, with [common.preserve_https_config] and
    [common.restore_https_config] as sections 4.1 and 4.2 of the spec describe
    them: when [preserve_env_state] returns a snapshot (the balancer of the
    environment has an HTTPS listener with OIDC rules) whose rules have
    distinct priorities, the platform is as it was, [restore_env_state] on
    that snapshot succeeds, and the OIDC rule configuration of the HTTPS
    listener (priority, conditions and actions of every rule with an
    authenticate-oidc action, so the issuer, the endpoints and the client id,
    the secret being hidden) is the one it had, up to the order in which the
    rules are listed; the topology and the default actions are untouched; and
    restoring the same snapshot a second time succeeds and leaves the same
    configuration. *)
Theorem snapshot_round_trip (P : Aws.Platform) (env_name project_name : string)
    (st : EnvState) :
  let R1 := run aws (preserve_env_state env_name project_name) P in
  let R2 := run aws (restore_env_state (Some st) project_name) (final R1) in
  let R3 := run aws (restore_env_state (Some st) project_name) (final R2) in
  outcome R1 = inr (Some st) ->
  NoDup (List.map Priority (https_config_of st)) ->
  final R1 = P /\
  outcome R2 = inr tt /\
  exists l,
    let L := ListenerArn l in
    listener_on 443 (Aws.listeners_of P (load_balancer_arn st)) = Some l /\
    oidc_configuration P L <> [] /\
    oidc_configuration (final R2) L ≡ₚ oidc_configuration P L /\
    List.map (fun c => List.map oidc_settings c.2) (oidc_configuration (final R2) L) ≡ₚ
      List.map (fun c => List.map oidc_settings c.2) (oidc_configuration P L) /\
    Aws.top (final R2) = Aws.top P /\
    Aws.default_actions (final R2) = Aws.default_actions P /\
    outcome R3 = inr tt /\
    oidc_configuration (final R3) L ≡ₚ oidc_configuration (final R2) L.
Proof.
  cbv zeta. intros Hok Hnd.
  destruct (preserve_env_state_success P env_name project_name st Hok)
    as (Hfinal & Hlb & l & Hl & Hcfg & Hne).
  rewrite Hfinal. split; [reflexivity|].
  set (L := ListenerArn l) in *.
  set (kept := List.filter (fun x => oidc_body x.2) (Aws.rules_on P L)) in *.
  rewrite Hcfg, map_map in Hnd. cbn [Aws.describe Priority] in Hnd.
  apply NoDup_map_Some in Hnd.
  assert (forall x, In x kept -> oidc_body x.2 = true) as Hoidc.
  { intros x Hx. apply filter_In in Hx as [_ Hx]. exact Hx. }
  destruct (restore_https_config_run P (load_balancer_arn st) project_name l kept Hlb Hl Hnd)
    as (P' & Hrun & Htop & Hdef & Hrules).
  fold L in Hrules.
  pose proof (oidc_configuration_kept P L) as HP. fold kept in HP.
  pose proof (oidc_configuration_recreated P' L kept Hrules Hoidc) as Hconf.
  rewrite <- HP in Hconf.
  assert (Aws.has_balancer P' (load_balancer_arn st) = true) as Hlb'.
  { unfold Aws.has_balancer. rewrite Htop. exact Hlb. }
  assert (listener_on 443 (Aws.listeners_of P' (load_balancer_arn st)) = Some l) as Hl'.
  { unfold Aws.listeners_of. rewrite Htop. exact Hl. }
  destruct (restore_https_config_run P' (load_balancer_arn st) project_name l kept Hlb' Hl' Hnd)
    as (P'' & Hrun' & _ & _ & Hrules').
  fold L in Hrules'.
  pose proof (oidc_configuration_recreated P'' L kept Hrules' Hoidc) as Hconf'.
  rewrite <- HP in Hconf'.
  unfold restore_env_state. rewrite Hne.
  rewrite run_bind, run_invoke. cbn [aws Aws.sdk quiet fst snd].
  rewrite (run_invoke aws (restore_https_config _ _ _)), Hcfg, Hrun.
  unfold outcome at 1, final. cbn [fst snd].
  rewrite run_bind, run_invoke. cbn [aws Aws.sdk quiet fst snd].
  rewrite (run_invoke aws (restore_https_config _ _ _)), Hrun'.
  unfold outcome. cbn [fst snd].
  split; [reflexivity|]. exists l. cbv zeta. fold L.
  split; [exact Hl|]. split.
  { rewrite HP. rewrite Hcfg in Hne. intros Hnil.
    destruct kept; [discriminate Hne|discriminate Hnil]. }
  split; [exact Hconf|]. split; [apply Permutation_map; exact Hconf|].
  split; [exact Htop|]. split; [exact Hdef|]. split; [reflexivity|].
  rewrite Hconf', Hconf. reflexivity.
Qed.

(** ** The theorems at the sample inputs *)

Lemma scripted_local_calls_return (s : Script) : local_calls_return (scripted s).
Proof.
  intros c w H. destruct c; try discriminate H; eexists; reflexivity.
Qed.

(** C8 at the sample: only [LB_OIDC_CLIENT_ID] is set, the legacy table names
    three variables, none of them set. *)
Lemma missing_oidc_vars_witness :
  let R := run (scripted Sample.fresh_env)
             (check_oidc_vars Sample.config Sample.only_client_id) tt in
  is_missing Sample.only_client_id "LB_OIDC_CLIENT_ID" = false /\
  is_missing Sample.only_client_id "LB_OIDC_CLIENT_SECRET" = true /\
  missing_vars Sample.only_client_id = five_missing /\
  outcome R = inr (false, Sample.only_client_id) /\
  logged ERROR (trace R) =
    [ "Missing required OIDC configuration variables:";
      "  - LB_OIDC_CLIENT_SECRET"; "  - LB_OIDC_ISSUER"; "  - LB_OIDC_AUTH_ENDPOINT";
      "  - LB_OIDC_TOKEN_ENDPOINT"; "  - LB_OIDC_USERINFO_ENDPOINT" ] /\
  remote_calls (trace R) = [].
Proof.
  cbv zeta. split; [reflexivity|]. split; [reflexivity|].
  destruct (missing_oidc_vars_reported (scripted Sample.fresh_env) tt Sample.config
              Sample.only_client_id) as (H1 & H2 & H3 & H4 & _).
  - apply scripted_local_calls_return.
  - intros m Hm o n Hin. cbn in Hm. injection Hm as <-.
    cbn in Hin. destruct Hin as [H|[H|[H|[]]]]; injection H as <- <-; reflexivity.
  - reflexivity.
  - reflexivity.
  - reflexivity.
  - reflexivity.
  - reflexivity.
  - reflexivity.
  - split; [exact H1|]. split; [exact H2|]. split; [exact H3|exact H4].
Defined.

(** C5 at the sample with both listeners: the run succeeds, and then the
    gate is in place on the listener ["ls-443"], in front of the target group
    ["tg-1"]. *)
Lemma gate_after_configure_witness :
  let R := run aws (configure_oidc_auth Sample.config None ∅) Sample.with_http in
  outcome R = inr tt /\
  exists arn,
    (aws (describe_rules "ls-443") (final R)).1 =
      inr [ {| RuleArn := arn; Priority := Some 1%Z;
               Conditions := [ {| Field := "path-pattern"; Values := ["/*"] |} ];
               Actions :=
                 [ {| ActionType := "authenticate-oidc";
                      Order := Some 1%Z;
                      OidcConfig := Some
                        {| Issuer := "https://idp.example.com";
                           AuthorizationEndpoint := "https://idp.example.com/authorize";
                           TokenEndpoint := "https://idp.example.com/token";
                           UserInfoEndpoint := "https://idp.example.com/userinfo";
                           ClientId := "shop-client";
                           ClientSecret := None;
                           SessionCookieName := "AWSELBAuthSessionCookie";
                           SessionTimeout := 3600;
                           Scope := "openid";
                           OnUnauthenticatedRequest := "authenticate" |};
                      TargetGroupArn := None; FixedResponse := None; Redirect := None |};
                   {| ActionType := "forward"; Order := Some 2%Z; OidcConfig := None;
                      TargetGroupArn := Some "tg-1"; FixedResponse := None;
                      Redirect := None |} ];
               IsDefault := Some false |};
            {| RuleArn := "ls-443/default"; Priority := None; Conditions := [];
               Actions :=
                 [ {| ActionType := "fixed-response"; Order := None; OidcConfig := None;
                      TargetGroupArn := None;
                      FixedResponse := Some {| MessageBody := "Unauthorized Access";
                                               StatusCode := "503";
                                               ContentType := "text/plain" |};
                      Redirect := None |} ];
               IsDefault := Some true |} ] /\
    In (Event (delete_rule "rule-a") (inr tt)) (trace R).
Proof.
  cbv zeta. split; [vm_compute; reflexivity|].
  destruct (gate_after_configure Sample.with_http Sample.config None ∅)
    as (o & ends & sess & cid & iss & a & t & u & cn & tm & sc & L & lb & tg & arn & H).
  { vm_compute. reflexivity. }
  destruct H as (Ho & H1 & H2 & H3 & H4 & H5 & H6 & H7 & H8 & H9 & H10 & Hfind & Htg & Hdel
                 & Hshown & _).
  cbn in Ho. injection Ho as <-.
  cbn in H1, H2, H3, H7. injection H1 as <-. injection H2 as <-.
  injection H3 as <-. injection H7 as <-.
  cbn in H4, H5, H6, H8, H9, H10.
  injection H4 as <-. injection H5 as <-. injection H6 as <-.
  injection H8 as <-. injection H9 as <-. injection H10 as <-.
  vm_compute in Hfind. injection Hfind as <- <-.
  vm_compute in Htg. injection Htg as <-.
  exists arn. split; [exact Hshown|].
  apply (Hdel ("rule-a", {| Aws.rb_listener := "ls-443"; Aws.rb_priority := 5;
                            Aws.rb_conditions := [all_paths];
                            Aws.rb_actions := [forward_action "tg-1" (Some 1%Z)] |})).
  vm_compute. left. reflexivity.
Defined.

(** C9 at the sample without a port-80 listener. *)
Lemma no_http_listener_witness :
  let R := run aws (configure_oidc_auth Sample.config None ∅) Sample.https_only in
  outcome (run aws (resolve_listener "prod") Sample.https_only) =
    inr ("ls-443", "lb-1", "tg-1", "shop.example.com") /\
  outcome R = inr tt /\
  In (Event (logger INFO "HTTP listener not found") (inr tt)) (trace R) /\
  mutations (trace R) =
    [ delete_rule "rule-a"; modify_listener "ls-443" [deny_action];
      create_rule "ls-443" 1 [all_paths]
        [ Sample.auth (Some 1%Z); forward_action "tg-1" (Some 2%Z) ] ].
Proof.
  cbv zeta. split; [vm_compute; reflexivity|].
  destruct (no_http_listener_tolerated Sample.https_only Sample.config Sample.oidc_dict
              Sample.auth None ∅ "ls-443" "lb-1" "tg-1" "shop.example.com")
    as (H1 & H2 & H3 & _).
  - reflexivity.
  - reflexivity.
  - reflexivity.
  - vm_compute. reflexivity.
  - intros arn info H _. cbn in H. apply lookup_singleton_Some in H as [_ <-]. discriminate.
  - split; [exact H1|]. split; [exact H2|]. exact H3.
Defined.

(** C4 at the sample with both listeners: the first run succeeds, so does the
    second, and the platform is the same after both. *)
Lemma configure_twice_witness :
  let R1 := run aws (configure_oidc_auth Sample.config None ∅) Sample.with_http in
  let R2 := run aws (configure_oidc_auth Sample.config None ∅) (final R1) in
  outcome R1 = inr tt /\ outcome R2 = inr tt /\ final R2 = final R1.
Proof.
  cbv zeta.
  assert (outcome (run aws (configure_oidc_auth Sample.config None ∅) Sample.with_http)
          = inr tt) as H by (vm_compute; reflexivity).
  split; [exact H|].
  destruct (configure_twice Sample.with_http Sample.config None ∅ H) as (H1 & H2 & _).
  split; [exact H1|exact H2].
Defined.

(** C1 at the sample with the gate in place. *)
Lemma snapshot_round_trip_witness :
  let R1 := run aws (preserve_env_state "prod" "shop") Sample.gated in
  let R2 := run aws (restore_env_state (Some Sample.taken) "shop") (final R1) in
  outcome R1 = inr (Some Sample.taken) /\
  NoDup (List.map Priority (https_config_of Sample.taken)) /\
  final R1 = Sample.gated /\
  outcome R2 = inr tt /\
  exists l,
    listener_on 443 (Aws.listeners_of Sample.gated (load_balancer_arn Sample.taken)) = Some l /\
    oidc_configuration Sample.gated (ListenerArn l) <> [] /\
    oidc_configuration (final R2) (ListenerArn l) ≡ₚ
      oidc_configuration Sample.gated (ListenerArn l).
Proof.
  cbv zeta.
  assert (outcome (run aws (preserve_env_state "prod" "shop") Sample.gated)
          = inr (Some Sample.taken)) as H by (vm_compute; reflexivity).
  assert (NoDup (List.map Priority (https_config_of Sample.taken))) as Hnd
    by (apply NoDup_singleton).
  split; [exact H|]. split; [exact Hnd|].
  destruct (snapshot_round_trip Sample.gated "prod" "shop" Sample.taken H Hnd)
    as (H1 & H2 & l & H3 & H4 & H5 & _).
  cbv zeta in H3, H4, H5.
  split; [exact H1|]. split; [exact H2|]. exists l.
  split; [exact H3|]. split; [exact H4|exact H5].
Defined.

(** ** The programs at the sample inputs *)

Example update_path_calls :
  remote_calls (trace (run (scripted Sample.existing_env)
                         (create_or_update_env Sample.config "v1" "shop") tt)) =
  [ describe_environments ["prod"] false;
    find_environment_load_balancer "prod";
    preserve_https_config "lb-1" "shop";
    update_environment "prod" "v1" [];
    wait_for_env_status "prod" "Ready";
    restore_https_config "lb-1" [Sample.oidc_rule] "shop" ].
Proof. vm_compute. reflexivity. Qed.

Example create_path_calls :
  remote_calls (trace (run (scripted Sample.fresh_env)
                         (create_or_update_env Sample.config "v1" "shop") tt)) =
  [ describe_environments ["prod"] false;
    create_environment "shop" "prod" "v1" (aws_platform Sample.config)
      [load_balancer_type_setting Sample.config];
    wait_for_env_status "prod" "Ready" ].
Proof. vm_compute. reflexivity. Qed.

Example polls_until_processed :
  outcome (run (version_feed Sample.processed_at_2) (wait_for_version 5 "shop" "v1") 0)
  = inr (Some tt).
Proof. vm_compute. reflexivity. Qed.

Example polls_until_absent :
  outcome (run (version_feed Sample.absent_at_1) (wait_for_version 5 "shop" "v1") 0)
  = inl (DeploymentError "Version v1 not found").
Proof. vm_compute. reflexivity. Qed.

Example no_balancer_raises :
  outcome (run aws (find_listener_arn "prod") Sample.untagged) =
  inl (DeploymentError "No load balancer found for environment prod").
Proof. vm_compute. reflexivity. Qed.

Example nothing_to_preserve :
  outcome (run aws (preserve_env_state "prod" "shop") Sample.empty) = inr None.
Proof. vm_compute. reflexivity. Qed.

Example fnmatch_samples :
  Fnmatch.fnmatch "build/out.txt" "build/**" = true /\
  Fnmatch.fnmatch "src/main.py" "*.log" = false /\
  Fnmatch.fnmatch "abc" "a[a-c]c" = true /\
  Fnmatch.fnmatch "abc" "a[!a-c]c" = false /\
  Fnmatch.fnmatch "a[" "a[" = true /\
  Fnmatch.fnmatch "ab" "a?" = true.
Proof. vm_compute. repeat split; reflexivity. Qed.

(** ** More about shield.py *)

Lemma logged_app (lvl : level) (t1 t2 : list event) :
  logged lvl (t1 ++ t2) = logged lvl t1 ++ logged lvl t2.
Proof.
  induction t1 as [|[c r] t1 IH]; [reflexivity|].
  cbn [app logged]. destruct c; try exact IH.
  destruct lvl, lvl0; cbn; rewrite ?IH; reflexivity.
Qed.

Lemma remote_calls_app (t1 t2 : list event) :
  remote_calls (t1 ++ t2) = remote_calls t1 ++ remote_calls t2.
Proof. unfold remote_calls. rewrite map_app. apply List.filter_app. Qed.

Lemma concat_map_nil {A B} (l : list A) : concat (List.map (fun _ : A => @nil B) l) = [].
Proof. induction l as [|x l IH]; [reflexivity|exact IH]. Qed.

Section LocalLogging.
Context {W : Type} (h : handler W) (Hlocal : local_calls_return h).

Lemma run_logger (lvl : level) (msg : string) (w : W) :
  exists w', run h (invoke (logger lvl msg)) w = (inr tt, w', [Event (logger lvl msg) (inr tt)]).
Proof.
  rewrite run_invoke. destruct (Hlocal (logger lvl msg) w eq_refl) as [[] Hx].
  destruct (h (logger lvl msg) w) as [r w']. cbn in Hx. subst r. exists w'. reflexivity.
Qed.

(** A loop whose body only logs: it returns, and logs what its bodies log. *)
Lemma for_each_logging {A} (body : A -> prog unit) (lines : level -> A -> list string)
    (l : list A) (w : W) :
  (forall x w, exists w' tr, run h (body x) w = (inr tt, w', tr) /\
                             (forall lvl, logged lvl tr = lines lvl x) /\
                             remote_calls tr = []) ->
  exists w' tr, run h (for_each l body) w = (inr tt, w', tr) /\
                (forall lvl, logged lvl tr = concat (List.map (lines lvl) l)) /\
                remote_calls tr = [].
Proof.
  intros Hbody. revert w. induction l as [|x l IH]; intros w.
  - exists w, []. repeat split; reflexivity.
  - cbn [for_each]. rewrite run_bind.
    destruct (Hbody x w) as (w1 & t1 & -> & He1 & Hr1).
    destruct (IH w1) as (w2 & t2 & -> & He2 & Hr2).
    exists w2, (t1 ++ t2). split; [reflexivity|]. split.
    + intros lvl. rewrite logged_app, He1, He2. reflexivity.
    + rewrite remote_calls_app, Hr1, Hr2. reflexivity.
Qed.

Lemma map_old_names_run (var_mapping : list (string * string)) (environ : gmap string string)
    (w : W) :
  exists w' tr,
    run h (map_old_names var_mapping environ) w = (inr (remapped var_mapping environ), w', tr) /\
    logged ERROR tr = [] /\ logged INFO tr = [] /\ remote_calls tr = [].
Proof.
  revert environ w. induction var_mapping as [|[o n] rest IH]; intros environ w.
  - exists w, []. repeat split; reflexivity.
  - cbn [map_old_names remapped].
    destruct (environ !! o) as [v|]; [|apply IH].
    destruct (environ !! n) as [v'|]; [apply IH|].
    rewrite run_bind.
    destruct (run_logger DEBUG ("Mapped " +:+ o +:+ " to " +:+ n +:+ " in environment") w)
      as (w1 & ->).
    destruct (IH (<[n := v]> environ) w1) as (w2 & tr & -> & He & Hi & Hr).
    eexists _, _. split; [reflexivity|]. split; [|split].
    + rewrite logged_app, He. reflexivity.
    + rewrite logged_app, Hi. reflexivity.
    + rewrite remote_calls_app, Hr. reflexivity.
Qed.

(** [check_oidc_vars] in one piece, for any environment and any table of
    legacy names. *)
Lemma check_oidc_vars_outcome (config : Config) (environ : gmap string string) (w : W)
    (m : list (string * string)) :
  (h get_old_to_new_env_mapping w).1 = inr m ->
  let environ' := remapped m environ in
  let missing := missing_vars environ' in
  exists w' tr,
    run h (check_oidc_vars config environ) w = (inr (negb (nonempty missing), environ'), w', tr) /\
    logged ERROR tr =
      (if nonempty missing
       then "Missing required OIDC configuration variables:" ::
            List.map (fun var => "  - " +:+ var) missing
       else []) /\
    logged INFO tr =
      (if nonempty missing
       then [ newline +:+ "Please set these variables in your .env file or environment.";
              "Example .env file format:";
              "----------------------------------------------------" ] ++
            List.map (fun p => p.2 +:+ "=your-value-here")
              (List.filter (fun p => in_list p.2 missing) required_vars) ++
            [ "----------------------------------------------------" ]
       else []) /\
    remote_calls tr = [].
Proof.
  intros Hm. cbv zeta. unfold check_oidc_vars.
  rewrite run_bind, run_invoke.
  destruct (h get_old_to_new_env_mapping w) as [r w0]. cbn in Hm. subst r. cbn [fst snd].
  rewrite run_bind.
  destruct (map_old_names_run m environ w0) as (w1 & t1 & -> & He1 & Hi1 & Hr1).
  destruct (nonempty (missing_vars (remapped m environ))) eqn:Hne; cbn [negb].
  2:{ eexists _, _. split; [reflexivity|]. split; [|split].
      - rewrite !logged_app, He1. reflexivity.
      - rewrite !logged_app, Hi1. reflexivity.
      - rewrite !remote_calls_app, Hr1. reflexivity. }
  rewrite run_bind. destruct (run_logger ERROR "Missing required OIDC configuration variables:" w1)
    as (w2 & ->).
  rewrite run_bind.
  destruct (for_each_logging (fun var => invoke (logger ERROR ("  - " +:+ var)))
              (fun lvl var => match lvl with ERROR => ["  - " +:+ var] | _ => [] end)
              (missing_vars (remapped m environ)) w2)
    as (w3 & t3 & -> & He3 & Hr3).
  { intros x w'. cbv beta. destruct (run_logger ERROR ("  - " +:+ x) w') as (w'' & Hx).
    eexists _, _. split; [exact Hx|]. split; [intros []|]; reflexivity. }
  rewrite run_bind. destruct (run_logger INFO (newline +:+ "Please set these variables in your .env file or environment.") w3)
    as (w4 & ->).
  rewrite run_bind. destruct (run_logger INFO "Example .env file format:" w4) as (w5 & ->).
  rewrite run_bind.
  destruct (run_logger INFO "----------------------------------------------------" w5) as (w6 & ->).
  rewrite run_bind.
  destruct (for_each_logging
              (fun p : string * string =>
                 if in_list p.2 (missing_vars (remapped m environ))
                 then invoke (logger INFO (p.2 +:+ "=your-value-here")) else Ret tt)
              (fun lvl p =>
                 match lvl with
                 | INFO => if in_list p.2 (missing_vars (remapped m environ))
                           then [p.2 +:+ "=your-value-here"] else []
                 | _ => []
                 end) required_vars w6) as (w7 & t7 & -> & He7 & Hr7).
  { intros x w'. cbv beta. destruct (in_list x.2 (missing_vars (remapped m environ))).
    - destruct (run_logger INFO (x.2 +:+ "=your-value-here") w') as (w'' & Hx).
      eexists _, _. split; [exact Hx|]. split; [intros []|]; reflexivity.
    - exists w', []. split; [reflexivity|]. split; [intros []|]; reflexivity. }
  rewrite run_bind.
  destruct (run_logger INFO "----------------------------------------------------" w7) as (w8 & ->).
  rewrite run_bind, run_invoke.
  destruct (Hlocal ensure_env_in_gitignore w8 eq_refl) as [[] Hx].
  destruct (h ensure_env_in_gitignore w8) as [r w9]. cbn in Hx. subst r. cbn [fst snd run].
  eexists _, _. split; [reflexivity|]. split; [|split].
  - rewrite !logged_app, He1, He3, He7.
    generalize (missing_vars (remapped m environ)) as ms. intros ms.
    generalize required_vars as rv. intros rv. cbn [logged app].
    f_equal. rewrite concat_map_nil, !app_nil_r.
    induction ms as [|x l IH]; [reflexivity|]. cbn. rewrite IH. reflexivity.
  - rewrite !logged_app, Hi1, He3, He7.
    generalize (missing_vars (remapped m environ)) as ms. intros ms.
    assert (forall rv : list (string * string),
              concat (List.map (fun p => if in_list p.2 ms
                                         then [p.2 +:+ "=your-value-here"] else []) rv) =
              List.map (fun p => p.2 +:+ "=your-value-here")
                (List.filter (fun p => in_list p.2 ms) rv)) as Hc.
    { induction rv as [|x l IH]; [reflexivity|]. cbn [List.map concat List.filter].
      rewrite IH. destruct (in_list x.2 ms); reflexivity. }
    rewrite Hc, concat_map_nil. reflexivity.
  - rewrite !remote_calls_app, Hr1, Hr3, Hr7. reflexivity.
Qed.
End LocalLogging.

Lemma missing_vars_filter (environ : gmap string string) :
  missing_vars environ = List.filter (is_missing environ) required_names.
Proof. unfold missing_vars, required_names. symmetry. apply filter_map_comm. Qed.

Lemma is_missing_false (environ : gmap string string) (name : string) :
  is_missing environ name = false <-> exists v, environ !! name = Some v /\ v <> "".
Proof.
  unfold is_missing. destruct (environ !! name) as [v|].
  - destruct v; cbn; split.
    + discriminate.
    + intros (v & [= <-] & H). congruence.
    + intros _. eexists. split; [reflexivity|discriminate].
    + reflexivity.
  - split; [discriminate|]. intros (v & H & _). discriminate.
Qed.

Lemma remapped_keeps (m : list (string * string)) (environ : gmap string string)
    (k v : string) :
  environ !! k = Some v -> remapped m environ !! k = Some v.
Proof.
  revert environ. induction m as [|[o n] rest IH]; intros environ H; [exact H|].
  cbn [remapped]. destruct (environ !! o) as [x|]; [|apply IH, H].
  destruct (environ !! n) as [y|] eqn:Hn; [apply IH, H|].
  apply IH. rewrite lookup_insert_ne; [exact H|]. intros ->. congruence.
Qed.

Lemma remapped_legacy (m : list (string * string)) (environ : gmap string string)
    (o n v : string) :
  NoDup (List.map snd m) -> In (o, n) m ->
  environ !! o = Some v -> environ !! n = None ->
  remapped m environ !! n = Some v.
Proof.
  revert environ. induction m as [|[o' n'] rest IH]; intros environ Hnd Hin Ho Hn; [destruct Hin|].
  cbn [List.map snd] in Hnd. apply NoDup_cons in Hnd as [Hfresh Hnd].
  cbn [remapped]. destruct Hin as [[= -> ->]|Hin].
  - rewrite Ho, Hn. apply remapped_keeps, lookup_insert_eq.
  - assert (n' <> n) as Hne.
    { intros ->. apply Hfresh. apply list_elem_of_In.
      change n with (o, n).2. apply in_map, Hin. }
    destruct (environ !! o') as [x|]; [|apply IH; assumption].
    destruct (environ !! n') as [y|] eqn:Hn'; [apply IH; assumption|].
    apply IH; [assumption..| |].
    + rewrite lookup_insert_ne; [exact Ho|]. intros ->. congruence.
    + rewrite lookup_insert_ne; [exact Hn|exact Hne].
Qed.

Lemma remapped_origin (m : list (string * string)) (environ : gmap string string)
    (k v : string) :
  remapped m environ !! k = Some v ->
  environ !! k = Some v \/
  (environ !! k = None /\ In k (List.map snd m) /\ exists o, In o (List.map fst m) /\
                                                     remapped m environ !! o = Some v).
Proof.
  revert environ. induction m as [|[o n] rest IH]; intros environ H; [left; exact H|].
  cbn [remapped] in *.
  assert (forall e, e = environ -> remapped rest e !! k = Some v ->
            environ !! k = Some v \/
            environ !! k = None /\ In k (List.map snd ((o, n) :: rest)) /\
            exists o0, In o0 (List.map fst ((o, n) :: rest)) /\ remapped rest e !! o0 = Some v)
    as Hsame.
  { intros e -> H'. destruct (IH _ H') as [Hk|(Hk & Hin & o0 & Ho0 & Hv)]; [left; exact Hk|].
    right. split; [exact Hk|]. split; [right; exact Hin|]. exists o0. split; [right; exact Ho0|exact Hv]. }
  destruct (environ !! o) as [x|] eqn:Ho; [|apply (Hsame environ eq_refl H)].
  destruct (environ !! n) as [y|] eqn:Hn; [apply (Hsame environ eq_refl H)|].
  destruct (IH _ H) as [Hk|(Hk & Hin & o0 & Ho0 & Hv)].
  - destruct (decide (n = k)) as [->|Hne].
    + rewrite lookup_insert_eq in Hk. injection Hk as ->. right.
      split; [exact Hn|]. split; [left; reflexivity|]. exists o. split; [left; reflexivity|].
      apply remapped_keeps. rewrite lookup_insert_ne; [exact Ho|]. intros ->. congruence.
    + rewrite lookup_insert_ne in Hk by exact Hne. left. exact Hk.
  - destruct (decide (n = k)) as [->|Hne].
    + rewrite lookup_insert_eq in Hk. discriminate.
    + rewrite lookup_insert_ne in Hk by exact Hne. right.
      split; [exact Hk|]. split; [right; exact Hin|]. exists o0. split; [right; exact Ho0|exact Hv].
Qed.

(** X2: whatever the environment and the table of legacy names,
    [check_oidc_vars] returns, and it returns [True] exactly when each of the
    six required variables is there and not empty once the legacy names have
    been copied; otherwise the error log names exactly the variables that
    are not, in the order of the list.  It never calls the platform. *)
Theorem check_oidc_vars_verdict {W} (h : handler W) (w : W) (config : Config)
    (environ : gmap string string) (m : list (string * string)) :
  local_calls_return h ->
  (h get_old_to_new_env_mapping w).1 = inr m ->
  let R := run h (check_oidc_vars config environ) w in
  exists ok environ',
    outcome R = inr (ok, environ') /\
    (ok = true <->
     forall name, In name required_names -> exists v, environ' !! name = Some v /\ v <> "") /\
    logged ERROR (trace R) =
      (if ok then []
       else "Missing required OIDC configuration variables:" ::
            List.map (fun var => "  - " +:+ var)
              (List.filter (is_missing environ') required_names)) /\
    remote_calls (trace R) = [].
Proof.
  intros Hlocal Hm. cbv zeta.
  destruct (check_oidc_vars_outcome h Hlocal config environ w m Hm)
    as (w' & tr & -> & He & _ & Hr).
  eexists _, _. split; [reflexivity|]. cbn [trace snd].
  rewrite missing_vars_filter in *. split; [|split; [|exact Hr]].
  - split.
    + intros Hok name Hin. apply is_missing_false.
      destruct (is_missing (remapped m environ) name) eqn:Hmiss; [|reflexivity].
      assert (In name (List.filter (is_missing (remapped m environ)) required_names)) as Hx
        by (apply filter_In; split; assumption).
      destruct (List.filter _ required_names); [destruct Hx|discriminate Hok].
    + intros Hall.
      destruct (List.filter _ required_names) as [|x l] eqn:Hf; [reflexivity|].
      assert (In x (List.filter (is_missing (remapped m environ)) required_names)) as Hx
        by (rewrite Hf; left; reflexivity).
      apply filter_In in Hx as [Hin Hmiss].
      apply Hall, is_missing_false in Hin. congruence.
  - rewrite He. destruct (List.filter _ required_names); reflexivity.
Qed.

(** X3: the environment [check_oidc_vars] leaves behind.  A variable that was
    set keeps its value; a legacy name that is set while its new name is not
    gives the new name its value (the new names of the table being distinct);
    and a variable that is set afterwards but was not before is a new name of
    the table and holds the value of one of its legacy names. *)
Theorem check_oidc_vars_remaps {W} (h : handler W) (w : W) (config : Config)
    (environ : gmap string string) (m : list (string * string)) :
  local_calls_return h ->
  (h get_old_to_new_env_mapping w).1 = inr m ->
  exists ok environ',
    outcome (run h (check_oidc_vars config environ) w) = inr (ok, environ') /\
    (forall k v, environ !! k = Some v -> environ' !! k = Some v) /\
    (NoDup (List.map snd m) ->
     forall o n v, In (o, n) m -> environ !! o = Some v -> environ !! n = None ->
                   environ' !! n = Some v) /\
    (forall k v, environ' !! k = Some v -> environ !! k = None ->
                 In k (List.map snd m) /\
                 exists o, In o (List.map fst m) /\ environ' !! o = Some v).
Proof.
  intros Hlocal Hm.
  destruct (check_oidc_vars_outcome h Hlocal config environ w m Hm) as (w' & tr & -> & _).
  eexists _, _. split; [reflexivity|]. split; [|split].
  - intros k v. apply remapped_keeps.
  - intros Hnd o n v. apply remapped_legacy, Hnd.
  - intros k v Hk Hnone. destruct (remapped_origin _ _ _ _ Hk) as [H|(_ & H)]; [congruence|exact H].
Qed.

Lemma check_oidc_vars_verdict_witness :
  let R := run (scripted Sample.fresh_env)
             (check_oidc_vars Sample.config legacy_environment) tt in
  exists ok environ',
    outcome R = inr (ok, environ') /\
    (ok = true <->
     forall name, In name required_names -> exists v, environ' !! name = Some v /\ v <> "") /\
    logged ERROR (trace R) =
      (if ok then []
       else "Missing required OIDC configuration variables:" ::
            List.map (fun var => "  - " +:+ var)
              (List.filter (is_missing environ') required_names)) /\
    remote_calls (trace R) = [].
Proof.
  apply (check_oidc_vars_verdict (scripted Sample.fresh_env) tt Sample.config
           legacy_environment Sample.legacy).
  - apply scripted_local_calls_return.
  - reflexivity.
Defined.

Lemma check_oidc_vars_remaps_witness :
  NoDup (List.map snd Sample.legacy) /\
  In ("OIDC_ISSUER", "LB_OIDC_ISSUER") Sample.legacy /\
  legacy_environment !! "OIDC_ISSUER" = Some "https://idp.example.com" /\
  legacy_environment !! "LB_OIDC_ISSUER" = None /\
  exists ok environ',
    outcome (run (scripted Sample.fresh_env)
               (check_oidc_vars Sample.config legacy_environment) tt) = inr (ok, environ') /\
    environ' !! "LB_OIDC_ISSUER" = Some "https://idp.example.com".
Proof.
  assert (NoDup (List.map snd Sample.legacy)) as Hnd.
  { apply (bool_decide_unpack _). vm_compute. exact I. }
  split; [exact Hnd|]. split; [cbn; tauto|]. split; [reflexivity|]. split; [reflexivity|].
  destruct (check_oidc_vars_remaps (scripted Sample.fresh_env) tt Sample.config
              legacy_environment Sample.legacy (scripted_local_calls_return _) eq_refl)
    as (ok & environ' & Hout & _ & Hcopy & _).
  exists ok, environ'. split; [exact Hout|].
  apply (Hcopy Hnd "OIDC_ISSUER"); [cbn; tauto|reflexivity|reflexivity].
Defined.



Lemma find_env_lb_run (P : Aws.Platform) (env_name : string)
    (l : list (string * Aws.BalancerInfo)) :
  (forall x, In x l -> Aws.load_balancers (Aws.top P) !! x.1 = Some x.2) ->
  exists r tr,
    run aws (find_env_lb env_name (List.map Aws.render_balancer l)) P = (inr r, P, tr) /\
    match r with
    | Some lb => exists x, In x l /\ lb = Aws.render_balancer x /\
                           Aws.tagged_to env_name x.2 = true
    | None => forall x, In x l -> Aws.tagged_to env_name x.2 = false
    end.
Proof.
  induction l as [|x l IH]; intros Hk.
  { exists None, []. split; [reflexivity|]. intros x []. }
  destruct IH as (r & tr & IH & Hr).
  { intros y Hy. apply Hk. right. exact Hy. }
  assert (match r with
          | Some lb => exists y, In y (x :: l) /\ lb = Aws.render_balancer y /\
                                 Aws.tagged_to env_name y.2 = true
          | None => forall y, In y l -> Aws.tagged_to env_name y.2 = false
          end) as Hr'.
  { destruct r as [lb|]; [|exact Hr]. destruct Hr as (y & Hy & H). exists y.
    split; [right; exact Hy|exact H]. }
  cbn [List.map find_env_lb Aws.render_balancer LbType LoadBalancerArn].
  destruct (String.eqb (Py.lower (Aws.bi_type x.2)) "application") eqn:Ht; cbn [negb].
  - rewrite run_bind, run_invoke.
    rewrite (describe_tags_known P x.1 x.2) by (apply Hk; left; reflexivity).
    cbn [fst snd]. cbn [run bind first_item Tags].
    destruct (existsb (is_env_tag env_name) (Aws.bi_tags x.2)) eqn:Htag.
    + eexists (Some _), _. split; [reflexivity|]. exists x. split; [left; reflexivity|].
      split; [reflexivity|]. unfold Aws.tagged_to. rewrite Ht, Htag. reflexivity.
    + rewrite IH. exists r. eexists. split; [reflexivity|].
      destruct r as [lb|]; [exact Hr'|]. intros y [<-|Hy]; [|apply Hr', Hy].
      unfold Aws.tagged_to. rewrite Ht, Htag. reflexivity.
  - rewrite IH. exists r. eexists. split; [reflexivity|].
    destruct r as [lb|]; [exact Hr'|]. intros y [<-|Hy]; [|apply Hr', Hy].
    unfold Aws.tagged_to. rewrite Ht. reflexivity.
Qed.

(** X6: [find_listener_arn] on the platform always ends, in one of four
    ways, and changes nothing.  When it returns a listener and a balancer, the
    environment exists, the balancer is an application load balancer tagged
    with the environment's name, and the listener is a listener of that
    balancer on port 443.  Otherwise it raises one of its three
    [DeploymentError]s; the lookups of tags and listeners never fail on the
    way. *)
Theorem find_listener_arn_sound (P : Aws.Platform) (env_name : string) :
  let R := run aws (find_listener_arn env_name) P in
  final R = P /\
  match outcome R with
  | inr (L, lb) =>
      (exists e, In e (Aws.environments (Aws.top P)) /\ EnvironmentName e = env_name) /\
      exists b l,
        Aws.load_balancers (Aws.top P) !! lb = Some b /\
        Aws.tagged_to env_name b = true /\
        Aws.listeners (Aws.top P) !! L = Some l /\
        Aws.li_port l = 443%Z /\ Aws.li_balancer l = lb
  | inl e =>
      e = DeploymentError ("Environment " +:+ env_name +:+ " not found") \/
      e = DeploymentError ("No load balancer found for environment " +:+ env_name) \/
      e = DeploymentError "HTTPS listener not found. Run 'secure' command first."
  end.
Proof.
  cbv zeta. unfold find_listener_arn. rewrite run_aws_handler.
  rewrite run_bind, run_invoke. cbn [aws Aws.sdk quiet fst snd].
  rewrite run_bind, run_invoke. cbn [aws Aws.sdk fst snd].
  destruct (List.filter _ (Aws.environments (Aws.top P))) as [|e0 es] eqn:Hf.
  { split; [reflexivity|]. left. reflexivity. }
  assert (exists e, In e (Aws.environments (Aws.top P)) /\ EnvironmentName e = env_name) as Henv.
  { exists e0. assert (In e0 (e0 :: es)) as Hin by (left; reflexivity).
    rewrite <- Hf in Hin. apply filter_In in Hin as [Hin Hn]. split; [exact Hin|].
    rewrite in_list_single in Hn. apply String.eqb_eq. exact Hn. }
  cbn [nonempty negb]. rewrite run_bind, run_invoke. cbn [aws Aws.sdk fst snd].
  rewrite run_bind.
  destruct (find_env_lb_run P env_name (map_to_list (Aws.load_balancers (Aws.top P))))
    as (r & tr & -> & Hr).
  { intros [arn lb] Hin. apply elem_of_In, elem_of_map_to_list in Hin. exact Hin. }
  destruct r as [lb|]; [|split; [reflexivity|right; left; reflexivity]].
  destruct Hr as ([arn b] & Hin & -> & Htag).
  apply elem_of_In, elem_of_map_to_list in Hin. cbn [fst snd] in *.
  rewrite run_bind, run_invoke. cbn [aws Aws.sdk fst snd Aws.render_balancer LoadBalancerArn].
  unfold Aws.has_balancer. rewrite Hin.
  rewrite bool_decide_eq_true_2 by (eexists; reflexivity). cbn [fst snd].
  destruct (listener_on 443 (Aws.listeners_of P arn)) as [l|] eqn:Hl.
  - cbn. split; [reflexivity|]. split; [exact Henv|].
    destruct (listener_on_info P arn 443 l Hl) as (info & HL & Hp & Hb).
    exists b, info. repeat split; assumption.
  - cbn. split; [reflexivity|]. right. right. reflexivity.
Qed.

Lemma contains_char_app (c : ascii) (a b : string) :
  Py.contains (String c "") (a +:+ b) = Py.contains (String c "") a || Py.contains (String c "") b.
Proof.
  induction a as [|x a IH].
  - cbn. destruct b; reflexivity.
  - change (String x a +:+ b) with (String x (a +:+ b)).
    cbn [Py.contains Py.startswith]. rewrite IH.
    destruct (Py.eqb_ascii c x); cbn; [reflexivity|].
    destruct a; reflexivity.
Qed.

Lemma replace_char_clears (c : ascii) (new s : string) :
  Py.contains (String c "") new = false ->
  Py.contains (String c "") (Py.replace_char c new s) = false.
Proof.
  intros Hnew. induction s as [|x s IH]; [reflexivity|].
  cbn [Py.replace_char]. destruct (Py.eqb_ascii x c) eqn:Hx.
  - rewrite contains_char_app, Hnew, IH. reflexivity.
  - cbn [Py.contains Py.startswith]. rewrite IH.
    unfold Py.eqb_ascii in *. rewrite Ascii.eqb_sym, Hx. reflexivity.
Qed.

Lemma get_domain_from_listener_run (P : Aws.Platform) (listener_arn : string) :
  exists tr,
    run aws (get_domain_from_listener listener_arn) P =
    (match Aws.listeners (Aws.top P) !! listener_arn with
     | None => inl (wrap_client_error (Aws.not_found "Listener"))
     | Some info =>
         match Aws.li_certificates info with
         | [] => inl IndexError
         | cert_arn :: _ =>
             match Aws.certificates (Aws.top P) !! cert_arn with
             | None => inl (wrap_client_error (Aws.not_found "Certificate"))
             | Some cert =>
                 inr (Py.replace_char "*" (Aws.project (Aws.top P)) (DomainName cert))
             end
         end
     end, P, tr).
Proof.
  unfold get_domain_from_listener. rewrite run_aws_handler.
  rewrite run_bind, run_invoke. cbn [aws Aws.sdk Aws.each fst snd]. unfold Aws.find_listener.
  destruct (Aws.listeners (Aws.top P) !! listener_arn) as [info|]; [|eexists; reflexivity].
  cbn [fst snd first_item bind Aws.render_listener Certificates].
  destruct (Aws.li_certificates info) as [|cert_arn others]; [eexists; reflexivity|].
  cbn [first_item bind]. rewrite run_bind, run_invoke. cbn [aws Aws.sdk fst snd].
  destruct (Aws.certificates (Aws.top P) !! cert_arn) as [cert|]; eexists; reflexivity.
Qed.

(** X7: the domain [get_domain_from_listener] reads on the platform is the
    name of the first certificate of the listener with every [*] replaced by
    the project name, and the platform is left as it was; whenever it
    returns and the project name holds no [*], neither does the domain. *)
Theorem get_domain_from_listener_domain (P : Aws.Platform) (listener_arn : string) :
  let R := run aws (get_domain_from_listener listener_arn) P in
  final R = P /\
  (forall info cert_arn others cert,
     Aws.listeners (Aws.top P) !! listener_arn = Some info ->
     Aws.li_certificates info = cert_arn :: others ->
     Aws.certificates (Aws.top P) !! cert_arn = Some cert ->
     outcome R = inr (Py.replace_char "*" (Aws.project (Aws.top P)) (DomainName cert))) /\
  (forall domain, outcome R = inr domain ->
     Py.contains "*" (Aws.project (Aws.top P)) = false -> Py.contains "*" domain = false).
Proof.
  cbv zeta. destruct (get_domain_from_listener_run P listener_arn) as (tr & ->).
  split; [reflexivity|]. unfold outcome. cbn [fst]. split.
  - intros info cert_arn others cert -> -> ->. reflexivity.
  - intros domain H Hp.
    destruct (Aws.listeners (Aws.top P) !! listener_arn) as [info|]; [|discriminate].
    destruct (Aws.li_certificates info) as [|cert_arn others]; [discriminate|].
    destruct (Aws.certificates (Aws.top P) !! cert_arn) as [cert|]; [|discriminate].
    injection H as <-. apply replace_char_clears. exact Hp.
Qed.

Lemma polled_app (t1 t2 : list event) : polled (t1 ++ t2) = polled t1 ++ polled t2.
Proof.
  induction t1 as [|[c r] t1 IH]; [reflexivity|].
  cbn [app polled]. destruct c; rewrite ?IH; reflexivity.
Qed.

Lemma sleeps_app (t1 t2 : list event) : sleeps (t1 ++ t2) = sleeps t1 ++ sleeps t2.
Proof.
  induction t1 as [|[c r] t1 IH]; [reflexivity|].
  cbn [app sleeps]. destruct c; rewrite ?IH; reflexivity.
Qed.

Section VersionPace.
Variable script : nat -> list ApplicationVersion.
Variables app_name version : string.

Let loop (fuel k : nat) :=
  run (version_feed script) (wait_for_version_loop fuel app_name version) k.

Lemma loop_pending (fuel k : nat) :
  pending (script k) = true ->
  exists pre,
    loop (S fuel) k =
      (outcome (loop fuel (S k)), final (loop fuel (S k)), pre ++ trace (loop fuel (S k))) /\
    polled pre = [(app_name, [version])] /\ sleeps pre = [5%Z].
Proof.
  intros H. unfold loop. cbn [wait_for_version_loop].
  rewrite run_bind, run_invoke. cbn [version_feed fst snd].
  destruct (script k) as [|v0 vs]; [discriminate|].
  cbn in H. apply andb_true_iff in H as [H1 H2]. apply negb_true_iff in H1, H2.
  rewrite run_bind, (run_invoke (version_feed script) (print _)). cbn [version_feed fst snd].
  rewrite H1, H2.
  rewrite run_bind, (run_invoke (version_feed script) (sleep 5)). cbn [version_feed fst snd].
  destruct (run (version_feed script) (wait_for_version_loop fuel app_name version) (S k))
    as [[res w] tr].
  exists [ Event (describe_application_versions app_name [version]) (inr (v0 :: vs));
           Event (print ("Version status: " +:+ Status v0)) (inr tt);
           Event (sleep 5) (inr tt) ].
  repeat split; reflexivity.
Qed.

Lemma loop_skip (n fuel k : nat) :
  (forall i, i < n -> pending (script (k + i)) = true) ->
  exists pre,
    loop (n + fuel) k =
      (outcome (loop fuel (k + n)), final (loop fuel (k + n)),
       pre ++ trace (loop fuel (k + n))) /\
    polled pre = repeat (app_name, [version]) n /\ sleeps pre = repeat 5%Z n.
Proof.
  revert k. induction n as [|n IH]; intros k H.
  - exists []. rewrite Nat.add_0_r. cbn [Nat.add app].
    destruct (loop fuel k) as [[res w] tr]. repeat split; reflexivity.
  - destruct (loop_pending (n + fuel) k) as (p1 & H1 & Hp1 & Hs1).
    { rewrite <- (Nat.add_0_r k). apply H. lia. }
    destruct (IH (S k)) as (p2 & H2 & Hp2 & Hs2).
    { intros i Hi. replace (S k + i) with (k + S i) by lia. apply H. lia. }
    replace (S k + n) with (k + S n) in H2 by lia.
    exists (p1 ++ p2). change (S n + fuel) with (S (n + fuel)). rewrite H1, H2.
    unfold outcome, final, trace. cbn [fst snd]. split; [rewrite app_assoc; reflexivity|].
    rewrite polled_app, sleeps_app, Hp1, Hp2, Hs1, Hs2. split; reflexivity.
Qed.

Lemma loop_decides (fuel k : nat) :
  pending (script k) = false ->
  outcome (loop (S fuel) k) <> inr None /\
  polled (trace (loop (S fuel) k)) = [(app_name, [version])] /\
  sleeps (trace (loop (S fuel) k)) = [] /\
  final (loop (S fuel) k) = S k.
Proof.
  intros H. unfold loop. cbn [wait_for_version_loop].
  rewrite run_bind, run_invoke. cbn [version_feed fst snd].
  destruct (script k) as [|v0 vs]; [repeat split; discriminate|].
  cbn in H.
  rewrite run_bind, (run_invoke (version_feed script) (print _)). cbn [version_feed fst snd].
  destruct (String.eqb (Status v0) "PROCESSED"); [repeat split; discriminate|].
  destruct (String.eqb (Status v0) "FAILED"); [repeat split; discriminate|].
  discriminate H.
Qed.

Lemma wait_for_version_loop_run (fuel : nat) :
  run (version_feed script) (wait_for_version fuel app_name version) 0 =
  (outcome (loop fuel 0), final (loop fuel 0),
   Event (print "Waiting for application version to be processed...") (inr tt) ::
   trace (loop fuel 0)).
Proof.
  unfold wait_for_version, loop. rewrite run_bind, (run_invoke (version_feed script) (print _)).
  cbn [version_feed fst snd].
  destruct (run (version_feed script) (wait_for_version_loop fuel app_name version) 0)
    as [[res w] tr]. reflexivity.
Qed.

End VersionPace.

(** X8: the pace of [wait_for_version].  While the answers show a status that
    is neither PROCESSED nor FAILED, every poll asks for the same application
    and version label and is followed by one sleep of five seconds; the poll
    that decides is followed by none.  There is no limit of its own: as long
    as the status stays undecided the loop is still polling, whatever the
    bound on the polls followed. *)
Theorem wait_for_version_pace (script : nat -> list ApplicationVersion)
    (app_name version : string) (fuel n : nat) :
  n <= fuel ->
  (forall i, i < n -> pending (script i) = true) ->
  let R := run (version_feed script) (wait_for_version fuel app_name version) 0 in
  (n < fuel -> pending (script n) = false ->
     outcome R <> inr None /\
     polled (trace R) = repeat (app_name, [version]) (S n) /\
     sleeps (trace R) = repeat 5%Z n /\
     final R = S n) /\
  (n = fuel ->
     outcome R = inr None /\
     polled (trace R) = repeat (app_name, [version]) fuel /\
     sleeps (trace R) = repeat 5%Z fuel).
Proof.
  intros Hn Hpre. cbv zeta. rewrite wait_for_version_loop_run.
  destruct (loop_skip script app_name version n (fuel - n) 0) as (pre & Hrun & Hp & Hs).
  { exact Hpre. }
  replace (n + (fuel - n)) with fuel in Hrun by lia. cbn [Nat.add] in Hrun.
  rewrite Hrun. clear Hrun. split.
  - intros Hlt Hdec. replace (fuel - n) with (S (fuel - S n)) by lia.
    destruct (loop_decides script app_name version (fuel - S n) n Hdec) as (Ho & Hpd & Hsd & Hf).
    remember (run (version_feed script)
                (wait_for_version_loop (S (fuel - S n)) app_name version) n) as X eqn:HX.
    clear HX. destruct X as [[res w] tr]. unfold outcome, final, trace in *.
    cbn [fst snd polled sleeps] in *.
    rewrite polled_app, sleeps_app, Hp, Hs, Hpd, Hsd, app_nil_r.
    split; [exact Ho|]. split; [rewrite <- repeat_cons; reflexivity|].
    split; [reflexivity|exact Hf].
  - intros ->. rewrite Nat.sub_diag. unfold outcome, final, trace.
    cbn [fst snd polled sleeps wait_for_version_loop run].
    rewrite app_nil_r, Hp, Hs. repeat split; reflexivity.
Qed.

Lemma wait_for_version_pace_witness :
  let R := run (version_feed Sample.processed_at_2) (wait_for_version 5 "shop" "v1") 0 in
  outcome R = inr (Some tt) /\
  polled (trace R) = [("shop", ["v1"]); ("shop", ["v1"]); ("shop", ["v1"])] /\
  sleeps (trace R) = [5%Z; 5%Z].
Proof.
  cbv zeta.
  destruct (wait_for_version_pace Sample.processed_at_2 "shop" "v1" 5 2) as [H _].
  - lia.
  - intros [|[|i]] Hi; [reflexivity|reflexivity|lia].
  - destruct H as (_ & Hp & Hs & _); [lia|reflexivity|].
    split; [vm_compute; reflexivity|]. split; [exact Hp|exact Hs].
Defined.

(** ** Python strings: prefixes, suffixes, reversal *)

Lemma append_cons (c : ascii) (a b : string) : String c a +:+ b = String c (a +:+ b).
Proof. reflexivity. Qed.

Lemma append_nil_l (s : string) : "" +:+ s = s.
Proof. reflexivity. Qed.

Lemma append_nil_r (s : string) : s +:+ "" = s.
Proof. induction s as [|c s IH]; [reflexivity|]. rewrite append_cons, IH. reflexivity. Qed.

Lemma append_assoc (a b c : string) : (a +:+ b) +:+ c = a +:+ (b +:+ c).
Proof.
  induction a as [|x a IH]; [reflexivity|]. rewrite !append_cons, IH. reflexivity.
Qed.

Lemma eqb_ascii_refl (a : ascii) : Py.eqb_ascii a a = true.
Proof. apply Ascii.eqb_refl. Qed.

Lemma startswith_app (p s : string) : Py.startswith p (p +:+ s) = true.
Proof.
  induction p as [|c p IH]; [reflexivity|].
  rewrite append_cons. cbn [Py.startswith]. rewrite eqb_ascii_refl, IH. reflexivity.
Qed.

Lemma rev_onto_acc (s acc : string) : Py.rev_onto s acc = Py.rev_onto s "" +:+ acc.
Proof.
  revert acc. induction s as [|c s IH]; intros acc; [reflexivity|].
  cbn [Py.rev_onto]. rewrite IH, (IH (String c "")), append_assoc. reflexivity.
Qed.

Lemma rev_onto_app (a b acc : string) :
  Py.rev_onto (a +:+ b) acc = Py.rev_onto b (Py.rev_onto a acc).
Proof.
  revert acc. induction a as [|c a IH]; intros acc; [reflexivity|].
  rewrite append_cons. cbn [Py.rev_onto]. apply IH.
Qed.

Lemma rev_onto_rev_onto (s a b : string) :
  Py.rev_onto (Py.rev_onto s a) b = Py.rev_onto a (s +:+ b).
Proof.
  revert a b. induction s as [|c s IH]; intros a b; [reflexivity|].
  cbn [Py.rev_onto]. rewrite IH. reflexivity.
Qed.

Lemma rev_rev (s : string) : Py.rev (Py.rev s) = s.
Proof.
  unfold Py.rev. rewrite rev_onto_rev_onto. cbn [Py.rev_onto]. apply append_nil_r.
Qed.

Lemma rev_append (a b : string) : Py.rev (a +:+ b) = Py.rev b +:+ Py.rev a.
Proof. unfold Py.rev. rewrite rev_onto_app. apply rev_onto_acc. Qed.

Lemma endswith_app (p q : string) : Py.endswith q (p +:+ q) = true.
Proof. unfold Py.endswith. rewrite rev_append. apply startswith_app. Qed.

Lemma contains_here (sub s : string) : Py.startswith sub s = true -> Py.contains sub s = true.
Proof. intros H. destruct s; cbn [Py.contains]; rewrite H; reflexivity. Qed.

Lemma contains_app (sub a b : string) : Py.contains sub (a +:+ sub +:+ b) = true.
Proof.
  induction a as [|c a IH].
  - rewrite append_nil_l. apply contains_here, startswith_app.
  - rewrite append_cons. cbn [Py.contains]. rewrite IH. apply orb_true_r.
Qed.

(** The first piece of [s.split(sep)] when [sep] occurs in [s]: a prefix of
    what stands before that occurrence. *)
Lemma split_go_first (sep x y cur : string) :
  exists pre z,
    x = pre +:+ z /\
    nth 0 (Py.split_go sep (x +:+ sep +:+ y) 0 cur) "" = Py.rev (Py.rev_onto pre cur).
Proof.
  revert cur. induction x as [|a x IH]; intros cur.
  - exists "", "". split; [reflexivity|]. rewrite append_nil_l.
    pose proof (startswith_app sep y) as Hs.
    destruct (sep +:+ y) as [|c s]; [reflexivity|].
    cbn [Py.split_go]. rewrite Hs. reflexivity.
  - rewrite append_cons. cbn [Py.split_go].
    destruct (Py.startswith sep (String a (x +:+ sep +:+ y))).
    + exists "", (String a x). split; reflexivity.
    + destruct (IH (String a cur)) as (pre & z & -> & H).
      exists (String a pre), z. split; [reflexivity|exact H].
Qed.

Lemma split_first_prefix (sep x y : string) :
  exists z, x = nth 0 (Py.split sep (x +:+ sep +:+ y)) "" +:+ z.
Proof.
  destruct (split_go_first sep x y "") as (pre & z & Hx & H).
  exists z. unfold Py.split. rewrite H. fold (Py.rev pre). rewrite rev_rev. exact Hx.
Qed.

(** ** The bundle *)

Lemma is_excluded_app (ps qs : list string) (f : string) :
  Bundle.is_excluded (ps ++ qs) f = Bundle.is_excluded ps f || Bundle.is_excluded qs f.
Proof.
  induction ps as [|p ps IH]; [reflexivity|].
  cbn [app Bundle.is_excluded]. rewrite IH.
  repeat match goal with |- context [if ?c then _ else _] => destruct c end; reflexivity.
Qed.

Lemma is_excluded_Permutation (ps qs : list string) (f : string) :
  ps ≡ₚ qs -> Bundle.is_excluded ps f = Bundle.is_excluded qs f.
Proof.
  induction 1 as [|x l l' _ IH|x y l|l l' l'' _ IH1 _ IH2].
  - reflexivity.
  - rewrite (is_excluded_app [x] l), (is_excluded_app [x] l'), IH. reflexivity.
  - rewrite (is_excluded_app [y] (x :: l)), (is_excluded_app [x] l),
      (is_excluded_app [x] (y :: l)), (is_excluded_app [y] l).
    rewrite !orb_assoc. f_equal. apply orb_comm.
  - congruence.
Qed.

Lemma is_reincluded_Permutation (ps qs : list string) (f : string) :
  ps ≡ₚ qs -> Bundle.is_reincluded ps f = Bundle.is_reincluded qs f.
Proof.
  unfold Bundle.is_reincluded.
  induction 1 as [|x l l' _ IH|x y l|l l' l'' _ IH1 _ IH2]; cbn.
  - reflexivity.
  - rewrite IH. reflexivity.
  - rewrite !orb_assoc. f_equal. apply orb_comm.
  - congruence.
Qed.

Lemma parse_ebignore_app (l1 l2 : list string) :
  Bundle.parse_ebignore (l1 ++ l2) =
  ((Bundle.parse_ebignore l1).1 ++ (Bundle.parse_ebignore l2).1,
   (Bundle.parse_ebignore l1).2 ++ (Bundle.parse_ebignore l2).2).
Proof.
  induction l1 as [|line l1 IH].
  - cbn. destruct (Bundle.parse_ebignore l2). reflexivity.
  - cbn [app Bundle.parse_ebignore]. rewrite IH.
    destruct (Bundle.parse_ebignore l1) as [p1 n1].
    destruct (Bundle.parse_ebignore l2) as [p2 n2]. cbn [fst snd].
    repeat match goal with |- context [if ?c then _ else _] => destruct c end; reflexivity.
Qed.

Lemma parse_ebignore_Permutation (l1 l2 : list string) :
  l1 ≡ₚ l2 ->
  (Bundle.parse_ebignore l1).1 ≡ₚ (Bundle.parse_ebignore l2).1 /\
  (Bundle.parse_ebignore l1).2 ≡ₚ (Bundle.parse_ebignore l2).2.
Proof.
  induction 1 as [|x l l' _ [IH1 IH2]|x y l|l l' l'' _ [IHa IHb] _ [IHc IHd]].
  - split; reflexivity.
  - change (x :: l) with ([x] ++ l). change (x :: l') with ([x] ++ l').
    rewrite (parse_ebignore_app [x] l), (parse_ebignore_app [x] l'). cbn [fst snd].
    split; apply Permutation_app_head; assumption.
  - change (y :: x :: l) with ([y] ++ [x] ++ l). change (x :: y :: l) with ([x] ++ [y] ++ l).
    rewrite !parse_ebignore_app. cbn [fst snd].
    rewrite !app_assoc. split; apply Permutation_app_tail, Permutation_app_comm.
  - split; etransitivity; eassumption.
Qed.

(** X9: the order of the lines of [.ebignore] does not matter: two ignore
    files with the same lines in a different order give the same bundle,
    whatever the tree.  (No later line overrides an earlier one: a file is
    left out when some pattern excludes it and no negated pattern matches
    it.) *)
Theorem ebignore_order_irrelevant (lines lines' files : list string) :
  lines ≡ₚ lines' ->
  Bundle.create_app_bundle (Some lines) files = Bundle.create_app_bundle (Some lines') files.
Proof.
  intros H. rewrite !create_app_bundle_filter.
  destruct (parse_ebignore_Permutation lines lines' H) as [Hp Hn].
  apply filter_ext. intros f. unfold Bundle.bundled.
  rewrite (is_excluded_Permutation _ _ f Hp), (is_reincluded_Permutation _ _ f Hn).
  reflexivity.
Qed.

Lemma ebignore_order_irrelevant_witness :
  Bundle.create_app_bundle (Some ["!keep.log"; "*.log"; "build/"])
    ["build/out.txt"; "app.log"; "keep.log"; "src/main.py"] =
  Bundle.create_app_bundle (Some ["build/"; "*.log"; "!keep.log"])
    ["build/out.txt"; "app.log"; "keep.log"; "src/main.py"].
Proof.
  apply (ebignore_order_irrelevant ["!keep.log"; "*.log"; "build/"]
           ["build/"; "*.log"; "!keep.log"]).
  apply (Permutation_rev ["!keep.log"; "*.log"; "build/"]).
Defined.

(** X10: a pattern [dir/] leaves out every file below [dir/], whatever
    characters [dir] is made of and whatever the other patterns are; only a
    negated pattern that matches the whole path brings such a file back. *)
Theorem directory_pattern_excludes (dir tail_ : string) (rest negated : list string) :
  let pattern := dir +:+ "/" in
  let rel_path := pattern +:+ tail_ in
  Bundle.is_excluded (pattern :: rest) rel_path = true /\
  Bundle.bundled (pattern :: rest) negated rel_path =
    Bundle.is_reincluded negated rel_path && negb (String.eqb rel_path ".ebignore").
Proof.
  cbv zeta.
  assert (Bundle.is_excluded ((dir +:+ "/") :: rest) ((dir +:+ "/") +:+ tail_) = true) as H.
  { cbn [Bundle.is_excluded]. rewrite endswith_app.
    assert (Py.contains "/" ((dir +:+ "/") +:+ "**") = true) as ->
      by (rewrite append_assoc; apply contains_app).
    cbn [negb andb].
    destruct (Fnmatch.fnmatch _ _); [reflexivity|].
    assert (Py.contains "**" ((dir +:+ "/") +:+ "**") = true) as ->
      by (rewrite <- (append_nil_r "**") at 2; apply contains_app).
    rewrite endswith_app. cbn [andb].
    destruct (split_first_prefix "**" (dir +:+ "/") "") as (z & Hz).
    rewrite (append_nil_r "**") in Hz.
    set (first := nth 0 (Py.split "**" ((dir +:+ "/") +:+ "**")) "") in *.
    assert (Py.startswith first ((dir +:+ "/") +:+ tail_) = true) as ->
      by (rewrite Hz, append_assoc; apply startswith_app).
    rewrite orb_true_r. reflexivity. }
  split; [exact H|]. unfold Bundle.bundled. rewrite H. rewrite negb_involutive. reflexivity.
Qed.

Lemma parse_ebignore_nothing (line : string) (rest : list string) :
  holds_nothing line = true ->
  Bundle.parse_ebignore (line :: rest) = Bundle.parse_ebignore rest.
Proof.
  unfold holds_nothing. intros H. cbn [Bundle.parse_ebignore].
  destruct (Bundle.parse_ebignore rest) as [p n].
  destruct (Py.truthy (Py.strip line)); [|reflexivity].
  cbn [negb orb] in H. rewrite H. reflexivity.
Qed.

Lemma parse_ebignore_filter (lines : list string) :
  Bundle.parse_ebignore (List.filter (fun line => negb (holds_nothing line)) lines) =
  Bundle.parse_ebignore lines.
Proof.
  induction lines as [|line rest IH]; [reflexivity|].
  cbn [List.filter]. destruct (holds_nothing line) eqn:H; cbn [negb].
  - rewrite parse_ebignore_nothing by exact H. exact IH.
  - cbn [Bundle.parse_ebignore]. rewrite IH. reflexivity.
Qed.

Lemma parse_ebignore_all_nothing (lines : list string) :
  (forall line, In line lines -> holds_nothing line = true) ->
  Bundle.parse_ebignore lines = ([], []).
Proof.
  induction lines as [|line rest IH]; intros H; [reflexivity|].
  rewrite parse_ebignore_nothing by (apply H; left; reflexivity).
  apply IH. intros l Hl. apply H. right. exact Hl.
Qed.

Lemma parse_ebignore_negated (lines : list string) (line pat : string) :
  In line lines -> Py.strip line = "!" +:+ pat -> In pat (Bundle.parse_ebignore lines).2.
Proof.
  induction lines as [|l rest IH]; intros Hin Hs; [destruct Hin|].
  cbn [Bundle.parse_ebignore]. destruct (Bundle.parse_ebignore rest) as [p n] eqn:E.
  destruct Hin as [->|Hin].
  - rewrite Hs. cbn. left. reflexivity.
  - specialize (IH Hin Hs). cbn [snd] in IH.
    repeat match goal with |- context [if ?c then _ else _] => destruct c end;
      cbn [snd]; try right; exact IH.
Qed.

(** X11: blank lines and comment lines of [.ebignore] change nothing, and an
    ignore file made of such lines only is as good as none: with no ignore
    file every file of the tree is bundled, in the order of the walk, except
    [.ebignore] itself. *)
Theorem blank_and_comment_lines_ignored (lines files : list string) :
  Bundle.create_app_bundle (Some (List.filter (fun line => negb (holds_nothing line)) lines))
    files = Bundle.create_app_bundle (Some lines) files /\
  ((forall line, In line lines -> holds_nothing line = true) ->
   Bundle.create_app_bundle (Some lines) files = Bundle.create_app_bundle None files) /\
  Bundle.create_app_bundle None files =
    List.filter (fun f => negb (String.eqb f ".ebignore")) files.
Proof.
  split; [|split].
  - rewrite !create_app_bundle_filter, parse_ebignore_filter. reflexivity.
  - intros H. rewrite create_app_bundle_filter, (parse_ebignore_all_nothing lines H). reflexivity.
  - reflexivity.
Qed.

(** X12: a line [!pattern] whose pattern matches the whole relative path of
    a file keeps that file in the bundle, whatever the exclusion patterns and
    wherever the line stands in [.ebignore]. *)
Theorem negated_pattern_rescues (lines files : list string) (line pat f : string) :
  In f files -> f <> ".ebignore" ->
  In line lines -> Py.strip line = "!" +:+ pat ->
  Fnmatch.fnmatch f pat = true ->
  In f (Bundle.create_app_bundle (Some lines) files).
Proof.
  intros Hf Hne Hline Hstrip Hmatch. rewrite create_app_bundle_filter.
  apply filter_In. split; [exact Hf|]. unfold Bundle.bundled.
  assert (Bundle.is_reincluded (Bundle.parse_ebignore lines).2 f = true) as Hre.
  { unfold Bundle.is_reincluded. apply existsb_exists. exists pat.
    split; [|exact Hmatch]. apply (parse_ebignore_negated lines line pat Hline Hstrip). }
  rewrite Hre. apply String.eqb_neq in Hne. rewrite Hne.
  destruct (Bundle.is_excluded _ f); reflexivity.
Qed.

Lemma negated_pattern_rescues_witness :
  In "logs/keep.log"
    (Bundle.create_app_bundle (Some ["logs/"; "  !logs/keep.*  "; "*.log"])
       ["logs/a.log"; "logs/keep.log"; "main.py"]).
Proof.
  apply (negated_pattern_rescues ["logs/"; "  !logs/keep.*  "; "*.log"]
           ["logs/a.log"; "logs/keep.log"; "main.py"] "  !logs/keep.*  " "logs/keep.*"
           "logs/keep.log").
  - right. left. reflexivity.
  - discriminate.
  - right. left. reflexivity.
  - reflexivity.
  - reflexivity.
Defined.

(** ** Validation ([validate_oidc_config]) *)

Lemma in_list_filter (f : string -> bool) (l : list string) (x : string) :
  in_list x (List.filter f l) = f x && in_list x l.
Proof.
  unfold in_list. induction l as [|a l IH]; [rewrite andb_false_r; reflexivity|].
  cbn [List.filter existsb]. destruct (String.eqb x a) eqn:E.
  - apply String.eqb_eq in E. subst a. destruct (f x); cbn [existsb orb andb].
    + rewrite String.eqb_refl. reflexivity.
    + rewrite IH. destruct (f x); [|reflexivity]. destruct (existsb _ l); reflexivity.
  - destruct (f a); cbn [existsb orb]; rewrite ?E; exact IH.
Qed.

Lemma example_lines (environ : gmap string string) :
  List.map (fun p : string * string => p.2 +:+ "=your-value-here")
    (List.filter (fun p => in_list p.2 (missing_vars environ)) required_vars) =
  List.map (fun var => var +:+ "=your-value-here")
    (List.filter (is_missing environ) required_names).
Proof.
  unfold required_names. rewrite filter_map_comm, List.map_map. f_equal.
  apply filter_ext_in. intros p Hp. rewrite missing_vars_filter, in_list_filter.
  assert (in_list p.2 required_names = true) as ->; [|apply andb_true_r].
  unfold in_list. apply existsb_exists. exists p.2. split; [|apply String.eqb_refl].
  unfold required_names. apply in_map. exact Hp.
Qed.

(** X13: [validate_oidc_config].  Without an [oidc] section it logs one error
    and returns [False] at once: no variable is looked at and the legacy names
    are not copied.  With one, its verdict and the environment it leaves are
    those of [check_oidc_vars]; on [True] the only INFO line is the success
    message, on [False] the INFO lines are the instructions with one example
    line for each missing variable, in the order of the list. *)
Theorem validate_oidc_config_verdict {W} (h : handler W) (w : W) (config : Config)
    (environ : gmap string string) (m : list (string * string)) :
  local_calls_return h ->
  (h get_old_to_new_env_mapping w).1 = inr m ->
  let R := run h (validate_oidc_config config environ) w in
  (oidc config = None ->
   outcome R = inr (false, environ) /\
   List.map call_of (trace R) = [logger ERROR "Missing 'oidc' section in configuration."]) /\
  (oidc config <> None ->
   exists ok environ',
     outcome R = inr (ok, environ') /\
     outcome (run h (check_oidc_vars config environ) w) = inr (ok, environ') /\
     logged INFO (trace R) =
       (if ok then ["OIDC configuration validated successfully"]
        else [ newline +:+ "Please set these variables in your .env file or environment.";
               "Example .env file format:";
               "----------------------------------------------------" ] ++
             List.map (fun var => var +:+ "=your-value-here")
               (List.filter (is_missing environ') required_names) ++
             [ "----------------------------------------------------" ]) /\
     remote_calls (trace R) = []).
Proof.
  intros Hlocal Hm. cbv zeta. unfold validate_oidc_config. split.
  - intros ->. destruct (run_logger h Hlocal ERROR "Missing 'oidc' section in configuration." w)
      as (w' & Hrun).
    rewrite run_bind, Hrun. split; reflexivity.
  - intros Ho. destruct (oidc config) as [o|]; [clear Ho|congruence].
    rewrite run_bind.
    destruct (check_oidc_vars_outcome h Hlocal config environ w m Hm)
      as (w' & tr & -> & _ & Hi & Hr).
    rewrite example_lines in Hi.
    destruct (nonempty (missing_vars (remapped m environ))); cbn [negb fst snd run].
    + eexists _, _. split; [reflexivity|]. split; [reflexivity|].
      unfold trace. cbn [snd]. rewrite app_nil_r. split; [exact Hi|exact Hr].
    + destruct (run_logger h Hlocal INFO "OIDC configuration validated successfully" w')
        as (w'' & Hrun).
      rewrite run_bind, Hrun. cbn [run]. eexists _, _. split; [reflexivity|].
      split; [reflexivity|]. unfold trace. cbn [snd]. split.
      * rewrite !logged_app, Hi. reflexivity.
      * rewrite !remote_calls_app, Hr. reflexivity.
Qed.

Lemma validate_oidc_config_verdict_witness :
  let R := run (scripted Sample.fresh_env)
             (validate_oidc_config Sample.config legacy_environment) tt in
  exists ok environ',
    outcome R = inr (ok, environ') /\
    outcome (run (scripted Sample.fresh_env)
               (check_oidc_vars Sample.config legacy_environment) tt) = inr (ok, environ') /\
    logged INFO (trace R) =
      (if ok then ["OIDC configuration validated successfully"]
       else [ newline +:+ "Please set these variables in your .env file or environment.";
              "Example .env file format:";
              "----------------------------------------------------" ] ++
            List.map (fun var => var +:+ "=your-value-here")
              (List.filter (is_missing environ') required_names) ++
            [ "----------------------------------------------------" ]) /\
    remote_calls (trace R) = [].
Proof.
  cbv zeta.
  destruct (validate_oidc_config_verdict (scripted Sample.fresh_env) tt Sample.config
              legacy_environment Sample.legacy (scripted_local_calls_return _) eq_refl)
    as [_ H].
  apply H. discriminate.
Defined.

(** ** [configure_oidc_auth] against any callee side *)

Lemma follow_seen (tr : list event) : mutations_follow_lookup true tr = true.
Proof.
  induction tr as [|ev tr IH]; [reflexivity|].
  cbn [mutations_follow_lookup orb]. rewrite IH. destruct (is_mutation _); reflexivity.
Qed.

Lemma follow_app (seen : bool) (t1 t2 : list event) :
  mutations t1 = [] ->
  mutations_follow_lookup seen (t1 ++ t2) =
  mutations_follow_lookup (seen || existsb is_target_group_answer t1) t2.
Proof.
  revert seen. induction t1 as [|ev t1 IH]; intros seen Hm.
  - cbn. rewrite orb_false_r. reflexivity.
  - unfold mutations in Hm. cbn [List.map List.filter] in Hm.
    cbn [app mutations_follow_lookup existsb].
    destruct (is_mutation (call_of ev)); [discriminate Hm|].
    cbn [andb]. rewrite IH by exact Hm. rewrite orb_assoc. reflexivity.
Qed.

Lemma follow_reading (seen : bool) (tr : list event) :
  mutations tr = [] -> mutations_follow_lookup seen tr = true.
Proof.
  intros Hm. rewrite <- (app_nil_r tr), (follow_app seen tr [] Hm). reflexivity.
Qed.

Section AnyCallee.
Context {W : Type} (h : handler W).

(** One step of a run: the callee side answers, the program goes on or the
    exception ends it. *)
Ltac answered :=
  rewrite ?run_bind, run_invoke;
  match goal with
  | |- context [h ?c ?w] =>
      let e := fresh "e" in
      let x := fresh "x" in
      let w' := fresh "w" in
      destruct (h c w) as [[e|x] w']; cbn [fst snd]
  end.

(** The secret of lines 203 and 221-225: what was given wins, the prompt is
    the last resort, and an empty secret ends the run. *)
Lemma resolve_secret_any (w : W) (client_secret : option string)
    (environ : gmap string string) :
  let secret :=
    if truthy_opt_str client_secret then default "" client_secret
    else default "" (environ !! "LB_OIDC_CLIENT_SECRET") in
  let R := run h (resolve_secret secret environ) w in
  mutations (trace R) = [] /\
  forall s, outcome R = inr s ->
    Py.truthy s = true /\
    match given_secret client_secret environ with
    | Some given => s = given
    | None => In (Event (getpass prompt) (inr s)) (trace R)
    end.
Proof.
  cbv zeta. split.
  - apply run_only_mutations. unfold resolve_secret.
    apply only_bind.
    + destruct (negb _); [|exact I]. unfold get_client_secret. cbn [truthy_opt_str].
      destruct (env_truthy _ _); [exact I|]. destruct (env_truthy _ _); [exact I|].
      apply only_invoke. reflexivity.
    + intros s. destruct (negb _); exact I.
  - unfold resolve_secret, get_client_secret, given_secret, env_truthy.
    destruct client_secret as [[|a s0]|]; cbn;
      destruct (environ !! "LB_OIDC_CLIENT_SECRET") as [[|a1 s1]|]; cbn;
      destruct (environ !! "OIDC_CLIENT_SECRET") as [[|a2 s2]|]; cbn;
      try (intros s [= <-]; split; reflexivity);
      fold prompt;
      destruct (h (getpass prompt) w) as [[e|[|a3 s3]] w1]; cbn;
      intros s Hs; try discriminate Hs;
      injection Hs as <-; (split; [reflexivity|left; reflexivity]).
Qed.

Lemma find_target_group_arn_any (w : W) (lb tg : string) :
  let R := run h (find_target_group_arn lb) w in
  outcome R = inr tg ->
  exists t ts,
    tg = TargetGroupArn_ t /\ In (Event (describe_target_groups lb) (inr (t :: ts))) (trace R).
Proof.
  cbv zeta. unfold find_target_group_arn. rewrite run_aws_handler.
  answered; [discriminate|].
  answered; [discriminate|].
  destruct x0 as [|t ts].
  - answered; discriminate.
  - cbn. intros [= <-]. exists t, ts. split; [reflexivity|]. right. left. reflexivity.
Qed.

(** The lookups of lines 227-237 change nothing, and when they return, the
    target group is the first one the balancer was answered to have. *)
Lemma resolve_listener_any (w : W) (env_name : string) :
  let R := run h (resolve_listener env_name) w in
  mutations (trace R) = [] /\
  forall L lb tg domain, outcome R = inr (L, lb, tg, domain) ->
    exists t ts,
      tg = TargetGroupArn_ t /\
      In (Event (describe_target_groups lb) (inr (t :: ts))) (trace R).
Proof.
  cbv zeta. split; [apply run_only_mutations, only_resolve_listener|].
  intros L lb tg domain. unfold resolve_listener. rewrite run_bind.
  destruct (run h (find_listener_arn env_name) w) as [[[e|[L0 lb0]] w1] t1]; [discriminate|].
  destruct (negb (Py.truthy L0)); [discriminate|].
  rewrite run_bind.
  destruct (run h (get_domain_from_listener L0) w1) as [[[e|d] w2] t2]; [discriminate|].
  rewrite run_bind.
  pose proof (find_target_group_arn_any w2 lb0) as Htg. cbv zeta in Htg.
  destruct (run h (find_target_group_arn lb0) w2) as [[[e|g] w3] t3]; [discriminate|].
  cbn. intros [= <- <- <- <-].
  destruct (Htg g eq_refl) as (t & ts & -> & Hin). exists t, ts. split; [reflexivity|].
  apply in_or_app. right. apply in_or_app. right. apply in_or_app. left. exact Hin.
Qed.

Lemma existsb_In {A} (f : A -> bool) (x : A) (l : list A) :
  In x l -> f x = true -> existsb f l = true.
Proof. intros Hin Hf. apply existsb_exists. exists x. split; assumption. Qed.

(** Lines 243-247 against any callee: the rules that are not default rules
    are deleted in the order they were listed, up to the first failure. *)
Lemma remove_rules_any (rules : list Rule) (n : nat) (w : W) :
  let R := run h (remove_rules rules n) w in
  let deletions := List.map (fun r => delete_rule (RuleArn r)) (List.filter removable rules) in
  mutations (trace R) `prefix_of` deletions /\
  (forall m, outcome R = inr m -> mutations (trace R) = deletions) /\
  forallb is_delete (mutations (trace R)) = true.
Proof.
  cbv zeta. revert n w. induction rules as [|rule rules IH]; intros n w.
  - cbn. split; [apply prefix_nil|]. split; reflexivity.
  - cbn [remove_rules List.filter]. fold (removable rule).
    destruct (removable rule); [|apply IH].
    cbn [List.map]. answered.
    + cbn. split; [eexists; reflexivity|]. split; [discriminate|reflexivity].
    + specialize (IH (S n) w0).
      destruct (run h (remove_rules rules (S n)) w0) as [[res w1] t1].
      unfold mutations, trace, outcome in *. cbn in IH |- *.
      destruct IH as (Hp & Hall & Hdel). split; [|split].
      * apply prefix_cons. exact Hp.
      * intros m Hm. rewrite (Hall m Hm). reflexivity.
      * exact Hdel.
Qed.


(** ... and when a key of ["session"] is missing: whatever the callee side
    answers, the run does not return, and the only calls that change
    anything are deletions of rules. *)
Lemma secure_listener_keyless (w : W) (L lb tg domain : string) (c : OidcDict) (e : exn) :
  auth_action c = inl e ->
  let R := run h (secure_listener L lb tg domain c) w in
  outcome R <> inr tt /\ forallb is_delete (mutations (trace R)) = true.
Proof.
  intros Hauth. cbv zeta. unfold secure_listener. rewrite Hauth. cbn [result bind].
  answered; [split; [discriminate|reflexivity]|].
  answered; [split; [discriminate|reflexivity]|].
  rewrite run_bind.
  pose proof (remove_rules_any x0 0 w1) as Hrm. cbv zeta in Hrm.
  destruct (run h (remove_rules x0 0) w1) as [[[e1|m] w2] t2];
    destruct Hrm as (_ & _ & Hdel); unfold trace in Hdel; cbn [snd] in Hdel.
  { split; [discriminate|]. unfold trace. cbn [snd app].
    change (mutations (?a :: ?b :: ?t)) with (mutations t). exact Hdel. }
  rewrite run_bind.
  assert (exists msg, (if (0 <? m)%nat
                       then invoke (logger INFO ("Removed " +:+ pretty m +:+ " rules"))
                       else invoke (logger INFO "No rules to remove")) =
                      invoke (logger INFO msg)) as [msg ->].
  { destruct (0 <? m)%nat; eexists; reflexivity. }
  rewrite (run_invoke h (logger INFO msg)).
  destruct (h (logger INFO msg) w2) as [[e2|y] w3]; cbn [fst snd].
  { split; [discriminate|]. unfold trace. cbn [snd app].
    change (mutations (?a :: ?b :: ?t)) with (mutations t).
    rewrite mutations_app, forallb_app, Hdel. reflexivity. }
  answered.
  all: split; [discriminate|]; unfold trace; cbn [snd app run];
    change (mutations (?a :: ?b :: ?t)) with (mutations t);
    rewrite mutations_app, forallb_app, Hdel; reflexivity.
Qed.

(** A run of [configure_oidc_auth] whose section has the keys of lines
    200-216: either it ends during the lookups, having changed nothing, or
    the secret, the listener and the target group were found and the run is
    that of the rewriting of lines 239-330. *)
Lemma configure_oidc_auth_any (w : W) (config : Config) (client_secret : option string)
    (environ : gmap string string) (c : OidcDict) :
  oidc_config config client_secret environ = inr c ->
  let R := run h (configure_oidc_auth config client_secret environ) w in
  exists pre,
    mutations pre = [] /\
    ((trace R = pre /\ outcome R <> inr tt) \/
     exists secret L lb domain t ts w1,
       let S := run h (secure_listener L lb (TargetGroupArn_ t) domain
                         (with_client_secret c secret)) w1 in
       Py.truthy secret = true /\
       match given_secret client_secret environ with
       | Some given => secret = given
       | None => In (Event (getpass prompt) (inr secret)) pre
       end /\
       In (Event (describe_target_groups lb) (inr (t :: ts))) pre /\
       trace R = pre ++ trace S /\
       (outcome R = inr tt <-> outcome S = inr tt)).
Proof.
  intros Hc. cbv zeta. unfold configure_oidc_auth.
  rewrite run_aws_handler, Hc. cbn [result bind].
  rewrite (oidc_config_secret _ _ _ _ Hc).
  answered.
  { eexists. split; [|left; split; [reflexivity|discriminate]]. reflexivity. }
  rewrite run_bind.
  pose proof (resolve_secret_any w0 client_secret environ) as Hs. cbv zeta in Hs.
  destruct (run h (resolve_secret _ environ) w0) as [[[e|secret] w1] t1];
    destruct Hs as [Hm1 Hs]; unfold trace, outcome in Hm1, Hs; cbn [fst snd] in Hm1, Hs.
  { eexists. split; [|left; split; [reflexivity|discriminate]].
    unfold trace. cbn [snd app]. change (mutations (?a :: ?t)) with (mutations t).
    exact Hm1. }
  destruct (Hs secret eq_refl) as [Htruthy Hgiven]. clear Hs.
  rewrite run_bind.
  pose proof (resolve_listener_any w1 (application_environment config)) as Hl.
  cbv zeta in Hl.
  destruct (run h (resolve_listener (application_environment config)) w1)
    as [[[e|[[[L lb] tg] domain]] w2] t2];
    destruct Hl as [Hm2 Hl]; unfold trace, outcome in Hm2, Hl; cbn [fst snd] in Hm2, Hl.
  { eexists. split; [|left; split; [reflexivity|discriminate]].
    unfold trace. cbn [snd app]. change (mutations (?a :: ?t)) with (mutations t).
    rewrite mutations_app, Hm1, Hm2. reflexivity. }
  destruct (Hl L lb tg domain eq_refl) as (t & ts & -> & Htg). clear Hl.
  exists ([Event (logger INFO ("Configuring OIDC authentication for " +:+
                                application_environment config)) (inr x)] ++ t1 ++ t2).
  split.
  { cbn [app]. change (mutations (?a :: ?t)) with (mutations t).
    rewrite mutations_app, Hm1, Hm2. reflexivity. }
  right. exists secret, L, lb, domain, t, ts, w2. cbv zeta. cbn [app].
  split; [exact Htruthy|]. split.
  { destruct (given_secret client_secret environ); [exact Hgiven|].
    right. apply in_or_app. left. exact Hgiven. }
  split.
  { right. apply in_or_app. right. exact Htg. }
  destruct (run h (secure_listener L lb (TargetGroupArn_ t) domain
                     (with_client_secret c secret)) w2) as [[[e|[]] w3] t3].
  - unfold trace, outcome. cbn [fst snd app]. rewrite <- app_assoc.
    split; [reflexivity|]. split; discriminate.
  - unfold trace, outcome. cbn [fst snd app]. rewrite <- app_assoc.
    split; [reflexivity|]. split; reflexivity.
Qed.

End AnyCallee.

Lemma oidc_config_inl (config : Config) (client_secret : option string)
    (environ : gmap string string) (e : exn) :
  oidc_config config client_secret environ = inl e -> exists key, e = KeyError key.
Proof.
  unfold oidc_config, and_then, item.
  repeat match goal with
         | |- context [match ?x with Some _ => _ | None => _ end] =>
             destruct x; [|intros [= <-]; eexists; reflexivity]
         end.
  discriminate.
Qed.

Lemma auth_action_keyless (c : OidcDict) (secret : string) :
  cookie_name (oc_session c) = None \/ timeout (oc_session c) = None \/
  scope (oc_session c) = None ->
  exists e, auth_action (with_client_secret c secret) = inl e.
Proof.
  unfold auth_action, and_then, item. cbn [with_client_secret oc_session].
  intros [H|[H|H]]; rewrite H;
    repeat match goal with
           | |- context [match ?x with Some _ => _ | None => _ end] =>
               destruct x; [|eexists; reflexivity]
           end;
    eexists; reflexivity.
Qed.

(** X4: where [configure_oidc_auth] can fail and what it has done by then,
    against any callee side.  When the [oidc] section or one of the keys read
    at lines 200-216 is missing, the lookup raises [KeyError] and the run
    ends at once, without a single call.  In every run, no call that changes a listener or
    a rule is made before the lookups are over, that is, before a target
    group of the balancer was answered.  And when a key of ["session"] is
    missing the run never succeeds, but the only calls it makes that change
    anything are deletions of rules: the [KeyError] of lines 266-268 comes
    after the rules of the listener were removed and before the 503 default
    and the gate are put in place. *)
Theorem configure_oidc_auth_failures {W} (h : handler W) (w : W) (config : Config)
    (client_secret : option string) (environ : gmap string string) :
  let R := run h (configure_oidc_auth config client_secret environ) w in
  (forall e, oidc_config config client_secret environ = inl e ->
     (exists key, e = KeyError key) /\
     outcome R <> inr tt /\ final R = w /\ trace R = []) /\
  mutations_follow_lookup false (trace R) = true /\
  (forall c, oidc_config config client_secret environ = inr c ->
     cookie_name (oc_session c) = None \/ timeout (oc_session c) = None \/
     scope (oc_session c) = None ->
     outcome R <> inr tt /\ forallb is_delete (mutations (trace R)) = true).
Proof.
  cbv zeta. split; [|split].
  - intros e He. split; [exact (oidc_config_inl _ _ _ _ He)|].
    unfold configure_oidc_auth. rewrite run_aws_handler, He.
    split; [discriminate|]. split; reflexivity.
  - destruct (oidc_config config client_secret environ) as [e|c] eqn:Hc.
    { unfold configure_oidc_auth. rewrite run_aws_handler, Hc. reflexivity. }
    destruct (configure_oidc_auth_any h w config client_secret environ c Hc)
      as (pre & Hpre & [[-> _]|H]).
    { apply follow_reading. exact Hpre. }
    destruct H as (secret & L & lb & domain & t & ts & w1 & _ & _ & Htg & -> & _).
    rewrite (follow_app false pre _ Hpre).
    rewrite (existsb_In is_target_group_answer _ pre Htg eq_refl).
    apply follow_seen.
  - intros c Hc Hkey.
    destruct (configure_oidc_auth_any h w config client_secret environ c Hc)
      as (pre & Hpre & [[-> Hno]|H]).
    { split; [exact Hno|]. rewrite Hpre. reflexivity. }
    destruct H as (secret & L & lb & domain & t & ts & w1 & _ & _ & _ & -> & Hiff).
    destruct (auth_action_keyless c secret Hkey) as [e He].
    destruct (secure_listener_keyless h w1 L lb (TargetGroupArn_ t) domain _ e He)
      as [Hno Hdel].
    split.
    + intros Hok. apply Hno, Hiff. exact Hok.
    + rewrite mutations_app, Hpre. exact Hdel.
Qed.

(** X4 on the platform, for a section without ["cookie_name"]: the rule that
    was on the listener is gone, the listener still forwards by default, and
    no gate was put up. *)
Lemma configure_oidc_auth_failures_witness :
  let R := run aws (configure_oidc_auth no_cookie_name None ∅) Sample.with_http in
  outcome R = inl (KeyError "cookie_name") /\
  mutations (trace R) = [delete_rule "rule-a"] /\
  Aws.rules_on (final R) "ls-443" = [] /\
  Aws.default_actions (final R) !! "ls-443" = Some [forward_action "tg-1" None] /\
  outcome R <> inr tt /\
  forallb is_delete (mutations (trace R)) = true.
Proof.
  cbv zeta.
  split; [vm_compute; reflexivity|]. split; [vm_compute; reflexivity|].
  split; [vm_compute; reflexivity|]. split; [vm_compute; reflexivity|].
  destruct (configure_oidc_auth_failures aws Sample.with_http no_cookie_name None ∅)
    as (_ & _ & H).
  apply (H {| oc_client_id := "shop-client"; oc_client_secret := "";
              oc_issuer := "https://idp.example.com";
              oc_authorization := "https://idp.example.com/authorize";
              oc_token := "https://idp.example.com/token";
              oc_userinfo := "https://idp.example.com/userinfo";
              oc_session := {| cookie_name := None; timeout := Some 3600%Z;
                               scope := Some "openid" |} |}).
  - reflexivity.
  - left. reflexivity.
Defined.



(** ** The deployment: running [ship_prog]s *)

Section ShipRunFacts.
Context {W : Type} (h : ship_handler W).

Lemma ship_run_bind {A B} (m : ship_prog A) (f : A -> ship_prog B) (w : W) :
  ship_run h (ship_bind m f) w =
  match ship_run h m w with
  | (inr a, w1, t1) =>
      let '(res, w2, t2) := ship_run h (f a) w1 in (res, w2, t1 ++ t2)
  | (inl e, w1, t1) => (inl e, w1, t1)
  end.
Proof.
  revert w. induction m as [a|e|c k IH]; intros w; simpl.
  - destruct (ship_run h (f a) w) as [[res w2] t2]. reflexivity.
  - reflexivity.
  - destruct (h c w) as [r w1]. rewrite IH.
    destruct (ship_run h (k r) w1) as [[[e|a] w2] t1]; [reflexivity|].
    destruct (ship_run h (f a) w2) as [[res w3] t2]. reflexivity.
Qed.

Lemma ship_run_invoke (c : ship_call) (w : W) :
  ship_run h (ship_invoke c) w = ((h c w).1, (h c w).2, [ShipEvent c (h c w).1]).
Proof.
  unfold ship_invoke. simpl. destruct (h c w) as [[e|x] w1]; reflexivity.
Qed.

Lemma ship_run_aws_handler {A} (p : ship_prog A) (w : W) :
  ship_run h (ship_aws_handler p) w =
  match ship_run h p w with
  | (inr a, w1, t) => (inr a, w1, t)
  | (inl e, w1, t) => (inl (wrap_client_error e), w1, t)
  end.
Proof.
  revert w. induction p as [a|e|c k IH]; intros w; simpl; try reflexivity.
  destruct (h c w) as [r w1]. rewrite IH.
  destruct (ship_run h (k r) w1) as [[[e|a] w2] t]; reflexivity.
Qed.

Lemma ship_run_attempt {A} (p : ship_prog A) (except_ : exn -> ship_prog A) (w : W) :
  ship_run h (attempt p except_) w =
  match ship_run h p w with
  | (inr a, w1, t) => (inr a, w1, t)
  | (inl e, w1, t1) =>
      let '(res, w2, t2) := ship_run h (except_ e) w1 in (res, w2, t1 ++ t2)
  end.
Proof.
  revert w. induction p as [a|e|c k IH]; intros w; simpl.
  - reflexivity.
  - destruct (ship_run h (except_ e) w) as [[res w2] t2]. reflexivity.
  - destruct (h c w) as [r w1]. rewrite IH.
    destruct (ship_run h (k r) w1) as [[[e|a] w2] t1]; [|reflexivity].
    destruct (ship_run h (except_ e) w2) as [[res w3] t2]. reflexivity.
Qed.

(** A function of the first kind runs here as it runs there. *)
Lemma ship_run_lift {A} (p : prog A) (w : W) :
  ship_run h (lift p) w =
  let '(res, w1, tr) := run (fun c => h (on_platform c)) p w in
  (res, w1, List.map lifted tr).
Proof.
  revert w. induction p as [a|e|c k IH]; intros w; simpl; try reflexivity.
  destruct (h (on_platform c) w) as [r w1]. rewrite IH.
  destruct (run (fun c0 => h (on_platform c0)) (k r) w1) as [[res w2] tr]. reflexivity.
Qed.
End ShipRunFacts.

(** ** The instance profile ([ensure_instance_profile]) *)

(** X14: the ways through [ensure_instance_profile], against any callee
    side.  It starts by setting up the role, and stops there when that fails.
    When both reads of the profile succeed and the first role of the profile
    is the instance role, it returns after these three calls.  When the
    profile is reported missing ([NoSuchEntity]), what follows is the creation
    of the profile, the attachment of the role and a sleep of ten seconds, in
    this order and as far as they succeed.  A [ClientError] with another code
    ends the run at once, wrapped by the decorator. *)
Theorem ensure_instance_profile_paths {W} (h : ship_handler W) (w : W) (config : DeployConfig) :
  let p := instance_profile_name (iam config) in
  let r := instance_role_name (iam config) in
  let manage := manage_iam_role r (instance_role_policies (iam config)) in
  let R := ship_run h (ensure_instance_profile config) w in
  (exists a rest,
     ship_trace R = ShipEvent manage a :: rest /\
     forall e, a = inl e -> rest = [] /\ ship_outcome R = inl (wrap_client_error e)) /\
  (forall w1 w2 w3 first roles,
     h manage w = (inr tt, w1) ->
     h (get_instance_profile p) w1 = (inr first, w2) ->
     h (get_instance_profile p) w2 = (inr {| Roles := roles |}, w3) ->
     role_missing (default [] roles) r = false ->
     R = (inr tt, w3,
          [ ShipEvent manage (inr tt);
            ShipEvent (get_instance_profile p) (inr first);
            ShipEvent (get_instance_profile p) (inr {| Roles := roles |}) ])) /\
  (forall w1 w2 msg,
     h manage w = (inr tt, w1) ->
     h (get_instance_profile p) w1 = (inl (ClientError "NoSuchEntity" msg), w2) ->
     let expected :=
       [ manage; get_instance_profile p; create_instance_profile p;
         add_role_to_instance_profile p r; on_platform (sleep 10) ] in
     ship_calls (ship_trace R) `prefix_of` expected /\
     (ship_outcome R = inr tt -> ship_calls (ship_trace R) = expected)) /\
  (forall w1 w2 code msg,
     h manage w = (inr tt, w1) ->
     h (get_instance_profile p) w1 = (inl (ClientError code msg), w2) ->
     code <> "NoSuchEntity" ->
     R = (inl (wrap_client_error (ClientError code msg)), w2,
          [ ShipEvent manage (inr tt);
            ShipEvent (get_instance_profile p) (inl (ClientError code msg)) ])).
Proof.
  cbv zeta. unfold ensure_instance_profile.
  rewrite ship_run_aws_handler, ship_run_bind, ship_run_invoke.
  split; [|split; [|split]].
  - destruct (h _ w) as [[e|[]] w1]; cbn [fst snd].
    + eexists _, _. split; [reflexivity|]. intros e' [= <-]. split; reflexivity.
    + destruct (ship_run h (attempt _ _) w1) as [[[e|a] w2] t];
        eexists _, _; (split; [reflexivity|]); intros e' H; discriminate H.
  - intros w1 w2 w3 first roles -> H1 H2 Hrole. cbn [fst snd].
    rewrite ship_run_attempt. unfold attach_role.
    rewrite ship_run_bind, ship_run_invoke, H1. cbn [fst snd].
    rewrite ship_run_bind, ship_run_invoke, H2. cbn [fst snd Roles].
    rewrite Hrole. reflexivity.
  - intros w1 w2 msg -> H1. cbn [fst snd].
    rewrite ship_run_attempt. unfold attach_role.
    rewrite ship_run_bind, ship_run_invoke, H1. cbn [fst snd create_profile].
    rewrite String.eqb_refl.
    rewrite ship_run_bind, ship_run_invoke.
    destruct (h (create_instance_profile _) w2) as [[e|[]] w3]; cbn [fst snd].
    { split; [eexists; reflexivity|discriminate]. }
    rewrite ship_run_bind, ship_run_invoke.
    destruct (h (add_role_to_instance_profile _ _) w3) as [[e|[]] w4]; cbn [fst snd].
    { split; [eexists; reflexivity|discriminate]. }
    rewrite (ship_run_invoke h (on_platform (sleep 10))).
    destruct (h (on_platform (sleep 10)) w4) as [[e|[]] w5]; cbn [fst snd].
    { split; [eexists; reflexivity|discriminate]. }
    split; [eexists; reflexivity|reflexivity].
  - intros w1 w2 code msg -> H1 Hcode. cbn [fst snd].
    rewrite ship_run_attempt. unfold attach_role.
    rewrite ship_run_bind, ship_run_invoke, H1. cbn [fst snd create_profile].
    apply String.eqb_neq in Hcode. rewrite Hcode. reflexivity.
Qed.

Lemma in_list_refl_head (a : string) (l : list string) : in_list a (a :: l) = true.
Proof. unfold in_list. cbn [existsb]. rewrite String.eqb_refl. reflexivity. Qed.

(** [ensure_instance_profile] on the in-memory IAM, from a state where the
    profile, if it exists, holds one role at most. *)
Lemma ensure_instance_profile_run (s : Iam) (config : DeployConfig) :
  let p := instance_profile_name (iam config) in
  let r := instance_role_name (iam config) in
  (forall roles, profiles s !! p = Some roles -> length roles <= 1) ->
  exists tr,
    ship_run iam_client (ensure_instance_profile config) s =
      (inr tt,
       {| roles_known := {[r]} ∪ roles_known s;
          profiles := <[p := [r]]> (profiles s) |}, tr) /\
    (In (on_platform (sleep 10)) (ship_calls tr) <-> profiles s !! p = None) /\
    (profiles s !! p = Some [r] ->
     ship_calls tr =
       [ manage_iam_role r (instance_role_policies (iam config));
         get_instance_profile p; get_instance_profile p ]).
Proof.
  cbv zeta. intros Hone.
  set (p := instance_profile_name (iam config)) in *.
  set (r := instance_role_name (iam config)) in *.
  unfold ensure_instance_profile. fold p r.
  rewrite ship_run_aws_handler, ship_run_bind, ship_run_invoke.
  cbn [iam_client fst snd]. rewrite ship_run_attempt. unfold attach_role.
  rewrite ship_run_bind, ship_run_invoke. cbn [iam_client fst snd profiles].
  destruct (profiles s !! p) as [roles|] eqn:Hp.
  - rewrite ship_run_bind, ship_run_invoke. cbn [iam_client fst snd profiles]. rewrite Hp.
    cbn [fst snd Roles from_option id].
    specialize (Hone roles eq_refl).
    destruct roles as [|a [|b roles]]; [| |cbn in Hone; lia].
    + cbn [List.map role_missing ship_for_each ship_bind].
      rewrite (ship_run_invoke iam_client (add_role_to_instance_profile p r)). cbn [iam_client fst snd profiles roles_known]. rewrite Hp.
      rewrite bool_decide_eq_true_2 by (apply elem_of_union_l, elem_of_singleton; reflexivity). cbn [negb nonempty].
      eexists. split; [reflexivity|]. split; [|discriminate].
      cbn. split; [|discriminate]. intros H. repeat destruct H as [H|H]; try discriminate H. destruct H.
    + cbn [List.map role_missing RoleName]. destruct (String.eqb a r) eqn:Har; cbn [negb].
      * apply String.eqb_eq in Har. subst a.
        rewrite insert_id by exact Hp.
        eexists. split; [reflexivity|]. split; [|intros _; reflexivity].
        cbn. split; [|discriminate]. intros H. repeat destruct H as [H|H]; try discriminate H. destruct H.
      * cbn [ship_for_each RoleName]. rewrite !ship_run_bind.
        rewrite (ship_run_invoke iam_client (remove_role_from_instance_profile p a)).
        cbn [iam_client fst snd profiles roles_known RoleName]. rewrite Hp, in_list_refl_head.
        cbn [fst snd ship_run List.filter]. rewrite String.eqb_refl. cbn [negb].
        rewrite (ship_run_invoke iam_client (add_role_to_instance_profile p r)). cbn [iam_client fst snd profiles roles_known with_profiles].
        rewrite lookup_insert_eq.
        rewrite bool_decide_eq_true_2 by (apply elem_of_union_l, elem_of_singleton; reflexivity). cbn [negb nonempty].
        rewrite insert_insert_eq.
        eexists. split; [reflexivity|]. split.
        -- cbn. split; [|discriminate]. intros H. repeat destruct H as [H|H]; try discriminate H. destruct H.
        -- intros [= ->]. rewrite String.eqb_refl in Har. discriminate.
  - cbn [fst snd create_profile no_such_entity]. rewrite String.eqb_refl.
    rewrite ship_run_bind, ship_run_invoke. cbn [iam_client fst snd profiles]. rewrite Hp.
    cbn [fst snd]. rewrite ship_run_bind, ship_run_invoke.
    cbn [iam_client fst snd profiles roles_known with_profiles]. rewrite lookup_insert_eq.
    rewrite bool_decide_eq_true_2 by (apply elem_of_union_l, elem_of_singleton; reflexivity). cbn [negb nonempty fst snd].
    rewrite (ship_run_invoke iam_client (on_platform (sleep 10))).
    cbn [iam_client fst snd profiles roles_known with_profiles]. rewrite insert_insert_eq.
    eexists. split; [reflexivity|]. split; [|discriminate].
    split; [reflexivity|]. intros _. cbn. tauto.
Qed.

(** X15: [ensure_instance_profile] on the in-memory IAM.  From any state in
    which the profile, if it exists, holds one role at most, it succeeds and
    leaves the profile holding exactly the instance role, which exists; the
    other profiles are untouched; it sleeps exactly when the profile did not
    exist before.  A second run changes nothing and only sets up the role
    and reads the profile twice. *)
Theorem ensure_instance_profile_attaches (s : Iam) (config : DeployConfig) :
  let p := instance_profile_name (iam config) in
  let r := instance_role_name (iam config) in
  (forall roles, profiles s !! p = Some roles -> length roles <= 1) ->
  let R := ship_run iam_client (ensure_instance_profile config) s in
  let R2 := ship_run iam_client (ensure_instance_profile config) (ship_final R) in
  ship_outcome R = inr tt /\
  profiles (ship_final R) !! p = Some [r] /\
  r ∈ roles_known (ship_final R) /\
  (forall q, q <> p -> profiles (ship_final R) !! q = profiles s !! q) /\
  (In (on_platform (sleep 10)) (ship_calls (ship_trace R)) <-> profiles s !! p = None) /\
  ship_outcome R2 = inr tt /\
  ship_final R2 = ship_final R /\
  ship_calls (ship_trace R2) =
    [ manage_iam_role r (instance_role_policies (iam config));
      get_instance_profile p; get_instance_profile p ].
Proof.
  cbv zeta. intros Hone.
  destruct (ensure_instance_profile_run s config Hone) as (tr & -> & Hsleep & _).
  unfold ship_outcome, ship_final, ship_trace. cbn [fst snd].
  set (s1 := {| roles_known := _; profiles := _ |}).
  destruct (ensure_instance_profile_run s1 config) as (tr2 & -> & _ & Hcalls).
  { intros roles. unfold s1. cbn [profiles]. rewrite lookup_insert_eq.
    intros [= <-]. cbn. lia. }
  cbn [fst snd]. unfold s1. cbn [profiles roles_known].
  split; [reflexivity|]. split; [apply lookup_insert_eq|].
  split; [apply elem_of_union_l, elem_of_singleton; reflexivity|].
  split; [intros q Hq; apply lookup_insert_ne; congruence|]. split; [exact Hsleep|].
  split; [reflexivity|]. split.
  - f_equal; [|apply insert_insert_eq].
    rewrite (assoc_L (∪)), (idemp_L (∪)). reflexivity.
  - apply Hcalls. unfold s1. cbn [profiles]. apply lookup_insert_eq.
Qed.

Lemma ensure_instance_profile_attaches_witness :
  let R := ship_run iam_client (ensure_instance_profile sample_deploy) other_role_attached in
  ship_outcome R = inr tt /\
  profiles (ship_final R) !! "shop-profile" = Some ["shop-instance"] /\
  ~ In (on_platform (sleep 10)) (ship_calls (ship_trace R)).
Proof.
  cbv zeta.
  destruct (ensure_instance_profile_attaches other_role_attached sample_deploy)
    as (Hok & Hp & _ & _ & Hsleep & _).
  - intros roles H. cbn in H. apply lookup_singleton_Some in H as [_ <-]. cbn. lia.
  - split; [exact Hok|]. split; [exact Hp|].
    intros Hin. apply Hsleep in Hin. cbn in Hin.
    apply lookup_singleton_None in Hin. congruence.
Defined.

(** ** The EB CLI configuration ([create_eb_cli_config]) *)

Lemma documents_app (t1 t2 : list ship_event) : documents (t1 ++ t2) = documents t1 ++ documents t2.
Proof.
  induction t1 as [|[c r] t1 IH]; [reflexivity|].
  cbn [app documents]. destruct c; try exact IH. destruct r; [exact IH|].
  rewrite IH. reflexivity.
Qed.

Lemma platform_names_app (t1 t2 : list ship_event) :
  platform_names (t1 ++ t2) = platform_names t1 ++ platform_names t2.
Proof.
  induction t1 as [|[c r] t1 IH]; [reflexivity|].
  cbn [app platform_names]. destruct c; try exact IH. destruct r; [exact IH|].
  rewrite IH. reflexivity.
Qed.

(** A run of [create_eb_cli_config] that returns: the one document it wrote,
    the platform names it was given, and the configuration it leaves. *)
Lemma create_eb_cli_config_run {W} (h : ship_handler W) (w : W) (config config' : DeployConfig)
    (project_root : Path) :
  let R := ship_run h (create_eb_cli_config config project_root) w in
  let path := Sub (Sub project_root ".elasticbeanstalk") "config.yml" in
  ship_outcome R = inr config' ->
  exists document,
    documents (ship_trace R) = [(path, document)] /\
    match elasticbeanstalk_cli config with
    | None =>
        exists name, platform_names (ship_trace R) = [name] /\
                     document = default_eb_config config name /\ config' = config
    | Some eb_config =>
        match cli_global eb_config with
        | Some g =>
            if holds_placeholder (g !! "default_platform") then
              exists name, platform_names (ship_trace R) = [name] /\
                           document = section_yaml (set_default_platform eb_config g name) /\
                           config' = with_section config (set_default_platform eb_config g name)
            else platform_names (ship_trace R) = [] /\
                 document = section_yaml eb_config /\ config' = config
        | None => platform_names (ship_trace R) = [] /\
                  document = section_yaml eb_config /\ config' = config
        end
    end.
Proof.
  cbv zeta. unfold create_eb_cli_config.
  rewrite ship_run_bind, ship_run_invoke.
  destruct (h (mkdir _ _) w) as [[e|[]] w1]; cbn [fst snd]; [discriminate|].
  rewrite ship_run_bind.
  assert (forall (made : yaml * DeployConfig) w2,
            ship_outcome
              (ship_run h
                 (ship_invoke (write_yaml (Sub (Sub project_root ".elasticbeanstalk") "config.yml")
                                 made.1) >>+
                  ship_invoke (print_path "Created EB CLI configuration in "
                                 (Sub (Sub project_root ".elasticbeanstalk") "config.yml")) >>+
                  Done made.2) w2) = inr config' ->
            config' = made.2 /\
            documents (ship_trace
              (ship_run h
                 (ship_invoke (write_yaml (Sub (Sub project_root ".elasticbeanstalk") "config.yml")
                                 made.1) >>+
                  ship_invoke (print_path "Created EB CLI configuration in "
                                 (Sub (Sub project_root ".elasticbeanstalk") "config.yml")) >>+
                  Done made.2) w2)) =
              [(Sub (Sub project_root ".elasticbeanstalk") "config.yml", made.1)] /\
            platform_names (ship_trace
              (ship_run h
                 (ship_invoke (write_yaml (Sub (Sub project_root ".elasticbeanstalk") "config.yml")
                                 made.1) >>+
                  ship_invoke (print_path "Created EB CLI configuration in "
                                 (Sub (Sub project_root ".elasticbeanstalk") "config.yml")) >>+
                  Done made.2) w2)) = []) as Htail.
  { intros made w2. rewrite ship_run_bind, ship_run_invoke.
    destruct (h (write_yaml _ _) w2) as [[e|[]] w3]; cbn [fst snd]; [discriminate|].
    rewrite ship_run_bind, ship_run_invoke.
    destruct (h (print_path _ _) w3) as [[e|[]] w4]; cbn [fst snd]; [discriminate|].
    cbn. intros [= <-]. repeat split; reflexivity. }
  destruct (elasticbeanstalk_cli config) as [eb_config|].
  - destruct (cli_global eb_config) as [g|].
    + destruct (holds_placeholder (g !! "default_platform")).
      * rewrite ship_run_bind, ship_run_invoke.
        destruct (h (get_eb_cli_platform_name _) w1) as [[e|name] w2]; cbn [fst snd];
          [discriminate|].
        cbn [ship_run].
        specialize (Htail (section_yaml (set_default_platform eb_config g name),
                           with_section config (set_default_platform eb_config g name)) w2).
        destruct (ship_run h _ w2) as [[res w3] t3].
        unfold ship_outcome, ship_trace in *. cbn [fst snd] in *.
        intros Hok. destruct (Htail Hok) as (-> & Hd & Hn).
        eexists. rewrite !documents_app, Hd. split; [reflexivity|].
        exists name. rewrite !platform_names_app, Hn. repeat split; reflexivity.
      * cbn [ship_run]. specialize (Htail (section_yaml eb_config, config) w1).
        destruct (ship_run h _ w1) as [[res w3] t3].
        unfold ship_outcome, ship_trace in *. cbn [fst snd] in *.
        intros Hok. destruct (Htail Hok) as (-> & Hd & Hn).
        eexists. rewrite !documents_app, Hd. split; [reflexivity|].
        rewrite !platform_names_app, Hn. repeat split; reflexivity.
    + cbn [ship_run]. specialize (Htail (section_yaml eb_config, config) w1).
      destruct (ship_run h _ w1) as [[res w3] t3].
      unfold ship_outcome, ship_trace in *. cbn [fst snd] in *.
      intros Hok. destruct (Htail Hok) as (-> & Hd & Hn).
      eexists. rewrite !documents_app, Hd. split; [reflexivity|].
      rewrite !platform_names_app, Hn. repeat split; reflexivity.
  - rewrite ship_run_bind, (ship_run_invoke h (on_platform (print _))).
    destruct (h (on_platform (print _)) w1) as [[e|[]] w2]; cbn [fst snd]; [discriminate|].
    rewrite ship_run_bind, ship_run_invoke.
    destruct (h (get_eb_cli_platform_name _) w2) as [[e|name] w3]; cbn [fst snd];
      [discriminate|].
    cbn [ship_run]. specialize (Htail (default_eb_config config name, config) w3).
    destruct (ship_run h _ w3) as [[res w4] t4].
    unfold ship_outcome, ship_trace in *. cbn [fst snd] in *.
    intros Hok. destruct (Htail Hok) as (-> & Hd & Hn).
    eexists. rewrite !documents_app, Hd. split; [reflexivity|].
    exists name. rewrite !platform_names_app, Hn. repeat split; reflexivity.
Qed.

Lemma default_eb_config_platform (config : DeployConfig) (name : string) :
  document_platform (default_eb_config config name) = Some (YStr name).
Proof.
  unfold document_platform, default_eb_config.
  rewrite lookup_insert_ne by discriminate. rewrite lookup_singleton_eq.
  repeat (rewrite lookup_insert_ne by discriminate). apply lookup_insert_eq.
Qed.

Lemma section_yaml_platform (eb_config : CliSection) :
  document_platform (section_yaml eb_config) =
  match cli_global eb_config with
  | Some g => g !! "default_platform"
  | None => None
  end.
Proof.
  unfold document_platform, section_yaml. destruct (cli_global eb_config) as [g|].
  - rewrite lookup_insert_eq. reflexivity.
  - rewrite lookup_delete_eq. reflexivity.
Qed.

(** X16: what [create_eb_cli_config] writes.  A run that returns has written
    one document, to [.elasticbeanstalk/config.yml] below the project root.
    When the platform names given by [get_eb_cli_platform_name] do not hold
    the placeholder themselves, the [default_platform] of that document does
    not hold it either.  With an [elasticbeanstalk_cli] section, the document
    is the section as the call leaves it in the configuration: only
    [global.default_platform] may differ from what it was, and it is replaced
    as a whole, not edited. *)
Theorem create_eb_cli_config_document {W} (h : ship_handler W) (w : W)
    (config config' : DeployConfig) (project_root : Path) :
  let R := ship_run h (create_eb_cli_config config project_root) w in
  let path := Sub (Sub project_root ".elasticbeanstalk") "config.yml" in
  ship_outcome R = inr config' ->
  exists document,
    documents (ship_trace R) = [(path, document)] /\
    ((forall name, In name (platform_names (ship_trace R)) ->
                   Py.contains placeholder name = false) ->
     holds_placeholder (document_platform document) = false) /\
    (forall eb_config, elasticbeanstalk_cli config = Some eb_config ->
       exists eb_config',
         elasticbeanstalk_cli config' = Some eb_config' /\
         document = section_yaml eb_config' /\
         cli_rest eb_config' = cli_rest eb_config /\
         match cli_global eb_config, cli_global eb_config' with
         | Some g, Some g' =>
             (forall k, k <> "default_platform" -> g' !! k = g !! k) /\
             if holds_placeholder (g !! "default_platform")
             then exists name, platform_names (ship_trace R) = [name] /\
                               g' !! "default_platform" = Some (YStr name)
             else g' = g
         | None, None => True
         | _, _ => False
         end) /\
    (elasticbeanstalk_cli config = None ->
     config' = config /\
     exists name, platform_names (ship_trace R) = [name] /\
                  document = default_eb_config config name).
Proof.
  cbv zeta. intros Hok.
  destruct (create_eb_cli_config_run h w config config' project_root Hok) as (document & Hd & H).
  exists document. split; [exact Hd|].
  destruct (elasticbeanstalk_cli config) as [eb_config|] eqn:Hsec.
  - destruct (cli_global eb_config) as [g|] eqn:Hg.
    + destruct (holds_placeholder (g !! "default_platform")) eqn:Hph.
      * destruct H as (name & Hn & -> & ->). split; [|split; [|discriminate]].
        -- intros Hclean. rewrite section_yaml_platform. cbn [set_default_platform cli_global].
           rewrite lookup_insert_eq. cbn [holds_placeholder]. apply Hclean.
           rewrite Hn. left. reflexivity.
        -- intros ? [= <-]. eexists. split; [reflexivity|]. split; [reflexivity|].
           split; [reflexivity|]. rewrite Hg. cbn [set_default_platform cli_global].
           split; [intros k Hk; apply lookup_insert_ne; congruence|].
           rewrite Hph. exists name. split; [exact Hn|apply lookup_insert_eq].
      * destruct H as (Hn & -> & ->). split; [|split; [|discriminate]].
        -- intros _. rewrite section_yaml_platform, Hg. exact Hph.
        -- intros ? [= <-]. exists eb_config. rewrite Hsec, Hg, Hph. repeat split; reflexivity.
    + destruct H as (Hn & -> & ->). split; [|split; [|discriminate]].
      * intros _. rewrite section_yaml_platform, Hg. reflexivity.
      * intros ? [= <-]. exists eb_config. rewrite Hsec, Hg. repeat split; reflexivity.
  - destruct H as (name & Hn & -> & ->). split; [|split; [discriminate|]].
    + intros Hclean. rewrite default_eb_config_platform. cbn [holds_placeholder].
      apply Hclean. rewrite Hn. left. reflexivity.
    + intros _. split; [reflexivity|]. exists name. split; [exact Hn|reflexivity].
Qed.

(** X17: [create_eb_cli_config] changes the configuration it is given, so a
    second call is not the first one again.  After a call that replaced the
    placeholder of the section (by a name that does not hold the placeholder),
    a second call on the configuration left behind, against any callee side,
    does not ask for the platform name any more: it makes the directory,
    writes the same document and reports it, as far as these calls succeed,
    and leaves the configuration as it is. *)
Theorem create_eb_cli_config_twice {W} (h : ship_handler W) (w : W)
    (config config' : DeployConfig) (project_root : Path) :
  let R := ship_run h (create_eb_cli_config config project_root) w in
  let eb_dir := Sub project_root ".elasticbeanstalk" in
  let path := Sub eb_dir "config.yml" in
  ship_outcome R = inr config' ->
  elasticbeanstalk_cli config <> None ->
  (forall name, In name (platform_names (ship_trace R)) ->
                Py.contains placeholder name = false) ->
  forall W2 (h2 : ship_handler W2) (w2 : W2),
    let R2 := ship_run h2 (create_eb_cli_config config' project_root) w2 in
    exists document,
      documents (ship_trace R) = [(path, document)] /\
      ship_calls (ship_trace R2) `prefix_of`
        [ mkdir eb_dir true; write_yaml path document;
          print_path "Created EB CLI configuration in " path ] /\
      forall c, ship_outcome R2 = inr c ->
                c = config' /\ documents (ship_trace R2) = [(path, document)].
Proof.
  cbv zeta. intros Hok Hsec Hclean W2 h2 w2.
  destruct (create_eb_cli_config_run h w config config' project_root Hok) as (document & Hd & H).
  exists document. split; [exact Hd|].
  destruct (elasticbeanstalk_cli config) as [eb_config|] eqn:Hsec0; [clear Hsec|congruence].
  assert (exists eb', elasticbeanstalk_cli config' = Some eb' /\ document = section_yaml eb' /\
                      match cli_global eb' with
                      | Some g => holds_placeholder (g !! "default_platform") = false
                      | None => True
                      end) as (eb' & Hsec' & -> & Hfree).
  { destruct (cli_global eb_config) as [g|] eqn:Hg.
    - destruct (holds_placeholder (g !! "default_platform")) eqn:Hph.
      + destruct H as (name & Hn & -> & ->). eexists. split; [reflexivity|].
        split; [reflexivity|]. cbn [set_default_platform cli_global].
        rewrite lookup_insert_eq. cbn [holds_placeholder]. apply Hclean. rewrite Hn.
        left. reflexivity.
      + destruct H as (_ & -> & ->). exists eb_config. rewrite Hg.
        split; [exact Hsec0|]. split; [reflexivity|exact Hph].
    - destruct H as (_ & -> & ->). exists eb_config. rewrite Hg.
      split; [exact Hsec0|]. split; [reflexivity|exact I]. }
  unfold create_eb_cli_config. rewrite Hsec'. cbv zeta.
  assert (match cli_global eb' with
          | Some g =>
              if holds_placeholder (g !! "default_platform") then
                let+ name :=
                  ship_invoke (get_eb_cli_platform_name (aws_platform (settings config'))) in
                Done (section_yaml (set_default_platform eb' g name),
                      with_section config' (set_default_platform eb' g name))
              else Done (section_yaml eb', config')
          | None => Done (section_yaml eb', config')
          end = Done (section_yaml eb', config')) as ->.
  { destruct (cli_global eb') as [g|]; [rewrite Hfree|]; reflexivity. }
  cbn [ship_bind fst snd].
  rewrite ship_run_bind, ship_run_invoke.
  destruct (h2 (mkdir _ _) w2) as [[e|[]] w3]; cbn [fst snd].
  { split; [eexists; reflexivity|discriminate]. }
  rewrite ship_run_bind, ship_run_invoke.
  destruct (h2 (write_yaml _ _) w3) as [[e|[]] w4]; cbn [fst snd].
  { split; [eexists; reflexivity|discriminate]. }
  rewrite ship_run_bind, ship_run_invoke.
  destruct (h2 (print_path _ _) w4) as [[e|[]] w5]; cbn [fst snd].
  { split; [eexists; reflexivity|discriminate]. }
  cbn. split; [eexists; reflexivity|]. intros c [= <-]. split; reflexivity.
Qed.

Lemma sample_deployed_outcome :
  ship_outcome (ship_run (host "Docker") (create_eb_cli_config sample_deploy (Root "/srv/app")) tt)
  = inr sample_deployed.
Proof.
  vm_compute. reflexivity.
Qed.

Lemma create_eb_cli_config_document_witness :
  exists document,
    documents (ship_trace (ship_run (host "Docker")
                             (create_eb_cli_config sample_deploy (Root "/srv/app")) tt)) =
      [(Sub (Sub (Root "/srv/app") ".elasticbeanstalk") "config.yml", document)] /\
    document = section_yaml sample_section.
Proof.
  destruct (create_eb_cli_config_document (host "Docker") tt sample_deploy sample_deployed
              (Root "/srv/app") sample_deployed_outcome) as (document & Hd & _ & Hsec & _).
  exists document. split; [exact Hd|].
  destruct (Hsec _ eq_refl) as (eb' & Heb & -> & _).
  injection Heb as <-. reflexivity.
Defined.

Lemma create_eb_cli_config_twice_witness :
  let R2 := ship_run (host "Other") (create_eb_cli_config sample_deployed (Root "/srv/app")) tt in
  platform_names (ship_trace R2) = [] /\
  exists document,
    ship_calls (ship_trace R2) `prefix_of`
      [ mkdir (Sub (Root "/srv/app") ".elasticbeanstalk") true;
        write_yaml (Sub (Sub (Root "/srv/app") ".elasticbeanstalk") "config.yml") document;
        print_path "Created EB CLI configuration in "
          (Sub (Sub (Root "/srv/app") ".elasticbeanstalk") "config.yml") ].
Proof.
  cbv zeta. split; [reflexivity|].
  destruct (create_eb_cli_config_twice (host "Docker") tt sample_deploy sample_deployed
              (Root "/srv/app") sample_deployed_outcome) with (h2 := host "Other") (w2 := tt)
    as (document & _ & Hcalls & _).
  - discriminate.
  - intros name Hin.
    assert (name = "Docker") as ->; [|reflexivity].
    cbn in Hin. destruct Hin as [<-|[]]. reflexivity.
  - exists document. exact Hcalls.
Defined.

(** ** The archive ([create_app_bundle] with its files) *)

Lemma written_app (t1 t2 : list ship_event) : written (t1 ++ t2) = written t1 ++ written t2.
Proof.
  induction t1 as [|[c r] t1 IH]; [reflexivity|].
  cbn [app written]. destruct c; try exact IH. destruct r; [exact IH|].
  rewrite IH. reflexivity.
Qed.

Lemma still_open_app (opened : list Path) (t1 t2 : list ship_event) :
  still_open opened (t1 ++ t2) = still_open (still_open opened t1) t2.
Proof.
  revert opened. induction t1 as [|[c r] t1 IH]; intros opened; [reflexivity|].
  cbn [app still_open]. destruct c; try apply IH. destruct r; apply IH.
Qed.

Lemma still_open_close (path : Path) (r : exn + unit) :
  still_open [path] [ShipEvent (zip_close path) r] = [].
Proof. cbn. rewrite bool_decide_eq_true_2 by reflexivity. reflexivity. Qed.

Lemma lines_read_app (t1 t2 : list ship_event) :
  lines_read (t1 ++ t2) =
  match lines_read t1 with Some lines => Some lines | None => lines_read t2 end.
Proof.
  induction t1 as [|[c r] t1 IH]; [reflexivity|].
  cbn [app lines_read]. destruct c; try exact IH. destruct r; [exact IH|reflexivity].
Qed.

Lemma walked_app (t1 t2 : list ship_event) :
  walked (t1 ++ t2) = match walked t1 with Some files => Some files | None => walked t2 end.
Proof.
  induction t1 as [|[c r] t1 IH]; [reflexivity|].
  cbn [app walked]. destruct c; try exact IH. destruct r; [exact IH|reflexivity].
Qed.

(** The loop of lines 48-90 over the members: it writes them in order and
    stops at the first write that fails. *)
Lemma write_loop {W} (h : ship_handler W) (archive : Path) (members : list string) (w : W) :
  exists res w' tr,
    ship_run h (ship_for_each members (fun rel_path => ship_invoke (zip_write archive rel_path))) w
      = (res, w', tr) /\
    (forall opened, still_open opened tr = opened) /\
    lines_read tr = None /\ walked tr = None /\
    (res = inr tt -> written tr = members) /\
    written tr `prefix_of` members.
Proof.
  revert w. induction members as [|m members IH]; intros w.
  - exists (inr tt), w, []. split; [reflexivity|]. split; [reflexivity|].
    split; [reflexivity|]. split; [reflexivity|]. split; [reflexivity|apply prefix_nil].
  - cbn [ship_for_each]. rewrite ship_run_bind.
    rewrite (ship_run_invoke h (zip_write archive m)).
    destruct (h (zip_write archive m) w) as [[e|[]] w1]; cbn [fst snd].
    + eexists _, _, _. split; [reflexivity|]. split; [reflexivity|].
      split; [reflexivity|]. split; [reflexivity|].
      split; [discriminate|]. apply prefix_nil.
    + destruct (IH w1) as (res & w' & tr & -> & Hw & Hl & Hk & Hall & Hin).
      eexists _, _, _. split; [reflexivity|]. split; [exact Hw|].
      cbn [app written lines_read walked].
      split; [exact Hl|]. split; [exact Hk|]. split.
      * intros Hres. rewrite (Hall Hres). reflexivity.
      * apply prefix_cons. exact Hin.
Qed.

Lemma closing_run {W A} (h : ship_handler W) (archive : Path) (block : ship_prog A) (w : W) :
  ship_run h (closing archive block) w =
  let '(res, w1, t1) := ship_run h block w in
  (match res, (h (zip_close archive) w1).1 with
   | inr a, inr _ => inr a
   | _, inl e => inl e
   | inl e, inr _ => inl e
   end, (h (zip_close archive) w1).2,
   t1 ++ [ShipEvent (zip_close archive) (h (zip_close archive) w1).1]).
Proof.
  unfold closing. rewrite ship_run_bind, ship_run_attempt.
  destruct (ship_run h block w) as [[[e|a] w1] t1].
  - rewrite ship_run_bind, (ship_run_invoke h (zip_close archive)).
    destruct (h (zip_close archive) w1) as [[e'|[]] w2]; cbn [fst snd ship_run];
      rewrite ?app_nil_r; reflexivity.
  - rewrite ship_run_bind, (ship_run_invoke h (zip_close archive)).
    destruct (h (zip_close archive) w1) as [[e'|[]] w2]; cbn [fst snd ship_run];
      rewrite ?app_nil_r; reflexivity.
Qed.

(** Reading the ignore file opens no archive and writes no member. *)
Lemma read_ebignore_run {W} (h : ship_handler W) (project_root : Path) (w : W) :
  exists res w' tr,
    ship_run h (read_ebignore project_root) w = (res, w', tr) /\
    written tr = [] /\ (forall opened, still_open opened tr = opened) /\
    walked tr = None /\
    lines_read tr = match res with inr ebignore => ebignore | inl _ => None end /\
    forall ebignore, res = inr ebignore ->
      match ebignore with
      | Some lines => In (ShipEvent (read_lines (Sub project_root ".ebignore")) (inr lines)) tr
      | None => In (ShipEvent (path_exists (Sub project_root ".ebignore")) (inr false)) tr
      end.
Proof.
  unfold read_ebignore. rewrite ship_run_bind, ship_run_invoke.
  destruct (h (path_exists _) w) as [[e|[|]] w1]; cbn [fst snd].
  - eexists _, _, _. split; [reflexivity|]. repeat split; discriminate.
  - rewrite ship_run_bind, ship_run_invoke.
    destruct (h (read_lines _) w1) as [[e|lines] w2]; cbn [fst snd ship_run].
    + eexists _, _, _. split; [reflexivity|]. repeat split; discriminate.
    + eexists _, _, _. split; [reflexivity|]. repeat split.
      intros ebignore [= <-]. right. left. reflexivity.
  - eexists _, _, _. split; [reflexivity|]. repeat split.
    intros ebignore [= <-]. left. reflexivity.
Qed.

Lemma write_bundle_run {W} (h : ship_handler W) (project_root : Path)
    (ebignore : option (list string)) (w : W) :
  let R := ship_run h (write_bundle project_root ebignore) w in
  let tr := ship_trace R in
  let members := Bundle.create_app_bundle ebignore (default [] (walked tr)) in
  lines_read tr = None /\
  still_open [] tr = [] /\
  written tr `prefix_of` members /\
  (forall path, ship_outcome R = inr path ->
     written tr = members /\
     In (ShipEvent (walk project_root) (inr (default [] (walked tr)))) tr /\
     In (ShipEvent (on_platform (print (bundle_report (length members)))) (inr tt)) tr /\
     exists tmp stamp,
       path = Sub (Root tmp) ("app_bundle_" +:+ stamp +:+ ".zip") /\
       In (ShipEvent gettempdir (inr tmp)) tr /\ In (ShipEvent now_stamp (inr stamp)) tr).
Proof.
  cbv zeta. unfold write_bundle.
  rewrite ship_run_bind, ship_run_invoke.
  destruct (h gettempdir w) as [[e|tmp] w1]; cbn [fst snd].
  { unfold ship_trace, ship_outcome. cbn.
    split; [reflexivity|]. split; [reflexivity|]. split; [apply prefix_nil|discriminate]. }
  rewrite ship_run_bind, ship_run_invoke.
  destruct (h now_stamp w1) as [[e|stamp] w2]; cbn [fst snd].
  { unfold ship_trace, ship_outcome. cbn.
    split; [reflexivity|]. split; [reflexivity|]. split; [apply prefix_nil|discriminate]. }
  set (bundle_path := Sub (Root tmp) ("app_bundle_" +:+ stamp +:+ ".zip")).
  rewrite ship_run_bind, (ship_run_invoke h (zip_open bundle_path)).
  destruct (h (zip_open bundle_path) w2) as [[e|[]] w3]; cbn [fst snd].
  { unfold ship_trace, ship_outcome. cbn.
    split; [reflexivity|]. split; [reflexivity|]. split; [apply prefix_nil|discriminate]. }
  rewrite ship_run_bind, closing_run, ship_run_bind, ship_run_invoke.
  destruct (h (walk project_root) w3) as [[e|files] w4]; cbn [fst snd].
  { unfold ship_trace, ship_outcome.
    destruct (h (zip_close bundle_path) w4) as [[e'|[]] w5];
      cbn [fst snd app written still_open List.filter lines_read walked];
      rewrite bool_decide_eq_true_2 by reflexivity;
      (split; [reflexivity|]); (split; [reflexivity|]);
      (split; [apply prefix_nil|discriminate]). }
  rewrite ship_run_bind.
  destruct (write_loop h bundle_path (Bundle.create_app_bundle ebignore files) w4)
    as (res & w5 & tl & -> & Hopen & Hlines & Hwalk & Hall & Hsub).
  set (members := Bundle.create_app_bundle ebignore files) in *.
  assert (forall r rest,
            still_open []
              (ShipEvent gettempdir (inr tmp) :: ShipEvent now_stamp (inr stamp) ::
               ShipEvent (zip_open bundle_path) (inr tt) ::
               ShipEvent (walk project_root) (inr files) ::
               tl ++ ShipEvent (zip_close bundle_path) r :: rest) = still_open [] rest) as Hclosed.
  { intros r rest. cbn [still_open]. rewrite still_open_app, Hopen.
    cbn [still_open List.filter]. rewrite bool_decide_eq_true_2 by reflexivity. reflexivity. }
  assert (forall r rest,
            written
              (ShipEvent gettempdir (inr tmp) :: ShipEvent now_stamp (inr stamp) ::
               ShipEvent (zip_open bundle_path) (inr tt) ::
               ShipEvent (walk project_root) (inr files) ::
               tl ++ ShipEvent (zip_close bundle_path) r :: rest) = written tl ++ written rest)
    as Hwritten.
  { intros r rest. cbn [written]. rewrite written_app. reflexivity. }
  assert (forall r rest,
            lines_read
              (ShipEvent gettempdir (inr tmp) :: ShipEvent now_stamp (inr stamp) ::
               ShipEvent (zip_open bundle_path) (inr tt) ::
               ShipEvent (walk project_root) (inr files) ::
               tl ++ ShipEvent (zip_close bundle_path) r :: rest) = lines_read rest)
    as Hread.
  { intros r rest. cbn [lines_read]. rewrite lines_read_app, Hlines. reflexivity. }
  destruct res as [e|[]].
  - cbn [ship_run].
    destruct (h (zip_close bundle_path) w5) as [[e'|[]] w6]; cbn [fst snd];
      unfold ship_trace, ship_outcome; cbn [fst snd app];
      rewrite <- ?app_assoc; cbn [app]; rewrite Hclosed, Hwritten, Hread, app_nil_r;
      cbn [walked default from_option id];
      (split; [reflexivity|]); (split; [reflexivity|]); (split; [exact Hsub|discriminate]).
  - cbn [ship_run].
    destruct (h (zip_close bundle_path) w5) as [[e'|[]] w6]; cbn [fst snd].
    + unfold ship_trace, ship_outcome; cbn [fst snd app].
      rewrite <- ?app_assoc; cbn [app]. rewrite Hclosed, Hwritten, Hread, app_nil_r.
      cbn [walked default from_option id].
      split; [reflexivity|]. split; [reflexivity|]. split; [exact Hsub|discriminate].
    + rewrite ship_run_bind, (ship_run_invoke h (on_platform (print _))).
      destruct (h (on_platform (print _)) w6) as [[e'|[]] w7]; cbn [fst snd ship_run];
        unfold ship_trace, ship_outcome; cbn [fst snd app];
        rewrite <- ?app_assoc; cbn [app]; rewrite Hclosed, Hwritten, Hread;
        cbn [walked default from_option id].
      * rewrite app_nil_r. split; [reflexivity|]. split; [reflexivity|].
        split; [exact Hsub|discriminate].
      * rewrite app_nil_r. split; [reflexivity|]. split; [reflexivity|].
        split; [exact Hsub|].
        intros path [= <-]. split; [apply Hall; reflexivity|].
        split; [|split].
        -- do 3 right. left. reflexivity.
        -- do 4 right. apply in_or_app. right. right. left. reflexivity.
        -- exists tmp, stamp. split; [reflexivity|]. split; [left; reflexivity|].
           right. left. reflexivity.
Qed.

Lemma prefix_In {A} (l k : list A) (x : A) : l `prefix_of` k -> In x l -> In x k.
Proof. intros [rest ->] Hin. apply in_or_app. left. exact Hin. Qed.

(** X18: the file side of [create_app_bundle], against any host.  In every
    run, also one that fails: the archive that was opened is closed when the
    run ends; the members written are, in the order of the walk, the first of
    those the ignore rules let through, where the rules are made of the
    lines that were read from [.ebignore] in this run (none when no line was
    read) and the files are those the walk answered in this run; and
    [.ebignore] is never among them.  When the run returns, all of those
    members were written, the count printed is their number, the walk was
    that of the project root, the ignore file was the one at its top (read,
    or found not to be there), and the path returned is
    [app_bundle_<stamp>.zip] in the temporary directory. *)
Theorem create_app_bundle_archive {W} (h : ship_handler W) (w : W) :
  let R := ship_run h create_app_bundle w in
  let tr := ship_trace R in
  let members := Bundle.create_app_bundle (lines_read tr) (default [] (walked tr)) in
  still_open [] tr = [] /\
  written tr `prefix_of` members /\
  ~ In ".ebignore" (written tr) /\
  (forall path, ship_outcome R = inr path ->
     written tr = members /\
     (exists project_root,
        In (ShipEvent get_project_root (inr project_root)) tr /\
        In (ShipEvent (walk project_root) (inr (default [] (walked tr)))) tr /\
        match lines_read tr with
        | Some lines =>
            In (ShipEvent (read_lines (Sub project_root ".ebignore")) (inr lines)) tr
        | None => In (ShipEvent (path_exists (Sub project_root ".ebignore")) (inr false)) tr
        end) /\
     In (ShipEvent (on_platform (print (bundle_report (length members)))) (inr tt)) tr /\
     exists tmp stamp,
       path = Sub (Root tmp) ("app_bundle_" +:+ stamp +:+ ".zip") /\
       In (ShipEvent gettempdir (inr tmp)) tr /\ In (ShipEvent now_stamp (inr stamp)) tr).
Proof.
  cbv zeta.
  assert (forall ebignore files l,
            l `prefix_of` Bundle.create_app_bundle ebignore files ->
            ~ In ".ebignore" l) as Hnot.
  { intros ebignore files l Hsub Hin. apply (prefix_In _ _ _ Hsub) in Hin.
    assert (exists p n, In ".ebignore" (List.filter (Bundle.bundled p n) files)) as (p & n & H).
    { unfold Bundle.create_app_bundle in Hin. destruct ebignore as [lines|].
      - destruct (Bundle.parse_ebignore lines) as [p n]. eauto.
      - eauto. }
    apply filter_In in H as [_ H]. rewrite bundled_not_ebignore in H. discriminate. }
  unfold create_app_bundle. rewrite ship_run_bind, ship_run_invoke.
  destruct (h get_project_root w) as [[e|project_root] w1]; cbn [fst snd].
  { unfold ship_trace, ship_outcome. cbn.
    split; [reflexivity|]. split; [apply prefix_nil|]. split; [tauto|discriminate]. }
  rewrite ship_run_bind.
  destruct (read_ebignore_run h project_root w1)
    as (res & w2 & t2 & -> & Hw2 & Ho2 & Hk2 & Hl2 & Hread).
  destruct res as [e|ebignore].
  { unfold ship_trace, ship_outcome. cbn [fst snd app written still_open lines_read walked].
    rewrite Hw2, Ho2. split; [reflexivity|]. split; [apply prefix_nil|].
    split; [tauto|discriminate]. }
  pose proof (write_bundle_run h project_root ebignore w2) as Hwb. cbv zeta in Hwb.
  destruct (ship_run h (write_bundle project_root ebignore) w2) as [[res w3] t3].
  unfold ship_trace, ship_outcome in *. cbn [fst snd app written still_open lines_read walked] in *.
  destruct Hwb as (Hl3 & Hopen & Hsub & Hok).
  rewrite written_app, Hw2, still_open_app, Ho2, lines_read_app, walked_app, Hl2, Hk2, Hl3.
  cbn [app].
  assert (match ebignore with Some lines => Some lines | None => None end = ebignore) as ->
    by (destruct ebignore; reflexivity).
  split; [exact Hopen|]. split; [exact Hsub|]. split; [exact (Hnot _ _ _ Hsub)|].
  intros path Hpath.
  destruct (Hok path Hpath) as (Hall & Hwalk & Hprint & tmp & stamp & -> & Ht & Hs).
  split; [exact Hall|]. split; [|split].
  - exists project_root. split; [left; reflexivity|].
    split; [right; apply in_or_app; right; exact Hwalk|].
    specialize (Hread ebignore eq_refl).
    destruct ebignore as [lines|]; right; apply in_or_app; left; exact Hread.
  - right. apply in_or_app. right. exact Hprint.
  - exists tmp, stamp. split; [reflexivity|].
    split; right; apply in_or_app; right; assumption.
Qed.


(** ** The order of a deployment ([deploy_application]) *)

Lemma ship_only_bind {A B} (Q : ship_call -> bool) (m : ship_prog A) (f : A -> ship_prog B) :
  ship_only Q m -> (forall a, ship_only Q (f a)) -> ship_only Q (ship_bind m f).
Proof.
  intros Hm Hf. induction m as [a|e|c k IH]; simpl; [apply Hf|exact I|].
  destruct Hm as [Hc Hk]. split; [exact Hc|]. intros r. apply IH, Hk.
Qed.

Lemma ship_only_invoke (Q : ship_call -> bool) (c : ship_call) :
  Q c = true -> ship_only Q (ship_invoke c).
Proof. intros H. split; [exact H|]. intros [e|x]; exact I. Qed.

Lemma ship_only_attempt {A} (Q : ship_call -> bool) (p : ship_prog A)
    (except_ : exn -> ship_prog A) :
  ship_only Q p -> (forall e, ship_only Q (except_ e)) -> ship_only Q (attempt p except_).
Proof.
  intros Hp He. induction p as [a|e|c k IH]; simpl; [exact I|apply He|].
  destruct Hp as [Hc Hk]. split; [exact Hc|]. intros r. apply IH, Hk.
Qed.

Lemma ship_only_aws_handler {A} (Q : ship_call -> bool) (p : ship_prog A) :
  ship_only Q p -> ship_only Q (ship_aws_handler p).
Proof.
  intros Hp. induction p as [a|e|c k IH]; simpl; try exact I.
  destruct Hp as [Hc Hk]. split; [exact Hc|]. intros r. apply IH, Hk.
Qed.

Lemma ship_only_for_each {A} (Q : ship_call -> bool) (l : list A) (body : A -> ship_prog unit) :
  (forall x, ship_only Q (body x)) -> ship_only Q (ship_for_each l body).
Proof.
  intros Hb. induction l as [|x l IH]; [exact I|].
  cbn [ship_for_each]. apply ship_only_bind; [apply Hb|]. intros _. exact IH.
Qed.

Lemma ship_only_lift {A} (Q : ship_call -> bool) (Q' : call -> bool) (p : prog A) :
  (forall c, Q' c = true -> Q (on_platform c) = true) -> only Q' p -> ship_only Q (lift p).
Proof.
  intros HQ Hp. induction p as [a|e|c k IH]; simpl; try exact I.
  destruct Hp as [Hc Hk]. split; [apply HQ, Hc|]. intros r. apply IH, Hk.
Qed.

Lemma ship_run_only {W A} (Q : ship_call -> bool) (h : ship_handler W) (p : ship_prog A) (w : W) :
  ship_only Q p ->
  forall ev, In ev (ship_trace (ship_run h p w)) -> Q (asked ev) = true.
Proof.
  revert w. induction p as [a|e|c k IH]; intros w Hp ev Hin; try destruct Hin.
  destruct Hp as [Hc Hk]. simpl in Hin. destruct (h c w) as [r w1].
  specialize (IH r w1 (Hk r) ev). destruct (ship_run h (k r) w1) as [[res w2] tr].
  unfold ship_trace in *. cbn [snd] in *. destruct Hin as [<-|Hin]; [exact Hc|apply IH, Hin].
Qed.

(** *** Stretches of a run *)

Lemma app_eq_cons_split {A} (t1 t2 pre post : list A) (x : A) :
  t1 ++ t2 = pre ++ x :: post ->
  (exists post1, t1 = pre ++ x :: post1 /\ post = post1 ++ t2) \/
  (exists pre2, pre = t1 ++ pre2 /\ t2 = pre2 ++ x :: post).
Proof.
  revert pre. induction t1 as [|a t1 IH]; intros pre H.
  - right. exists pre. split; [reflexivity|exact H].
  - destruct pre as [|b pre].
    + left. injection H as -> H. exists t1. split; [reflexivity|symmetry; exact H].
    + injection H as -> H. destruct (IH pre H) as [(post1 & -> & ->)|(pre2 & -> & ->)].
      * left. exists post1. split; reflexivity.
      * right. exists pre2. split; reflexivity.
Qed.

Section Stretches.
Variable config : DeployConfig.

Lemma all_in_order_nil (before : list ship_event) : all_in_order config before [].
Proof. intros pre ev post H. destruct pre; discriminate H. Qed.

Lemma all_in_order_app (before t1 t2 : list ship_event) :
  all_in_order config before t1 -> all_in_order config (before ++ t1) t2 ->
  all_in_order config before (t1 ++ t2).
Proof.
  intros H1 H2 pre ev post H.
  destruct (app_eq_cons_split _ _ _ _ _ H) as [(post1 & -> & ->)|(pre2 & -> & ->)].
  - apply (H1 pre ev post1). reflexivity.
  - rewrite app_assoc. apply (H2 pre2 ev post). reflexivity.
Qed.

Lemma plain_in_order (pre : list ship_event) (ev : ship_event) :
  plain (asked ev) = true -> in_order config pre ev.
Proof.
  destruct ev as [c r]. cbn [asked]. destruct c; try discriminate; try (intros _; exact I).
  destruct c; try discriminate; intros _; exact I.
Qed.

Lemma all_in_order_plain (before t : list ship_event) :
  (forall ev, In ev t -> plain (asked ev) = true) -> all_in_order config before t.
Proof.
  intros Hp pre ev post ->. apply plain_in_order, Hp, in_elt.
Qed.

Lemma all_in_order_single (before : list ship_event) (ev : ship_event) :
  in_order config before ev -> all_in_order config before [ev].
Proof.
  intros H pre ev' post E. destruct pre as [|x pre].
  - injection E as <- _. rewrite app_nil_r. exact H.
  - injection E as _ E. destruct pre; discriminate E.
Qed.

Lemma all_in_order_cons (before : list ship_event) (ev : ship_event) (t : list ship_event) :
  in_order config before ev -> all_in_order config (before ++ [ev]) t ->
  all_in_order config before (ev :: t).
Proof.
  intros H1 H2. apply (all_in_order_app before [ev] t); [apply all_in_order_single, H1|exact H2].
Qed.
End Stretches.

Lemma plain_not_registration (c : ship_call) : plain c = true -> is_registration c = false.
Proof. destruct c; try reflexivity. discriminate. Qed.

Ltac plainly :=
  repeat first
    [ exact I
    | reflexivity
    | apply ship_only_invoke
    | apply ship_only_aws_handler
    | apply ship_only_attempt
    | apply ship_only_for_each
    | apply ship_only_bind
    | intros ?
    | match goal with
      | |- ship_only _ (match ?x with _ => _ end) => destruct x
      end ].

Lemma plain_create_eb_cli_config (config : DeployConfig) (project_root : Path) :
  ship_only plain (create_eb_cli_config config project_root).
Proof. unfold create_eb_cli_config. plainly. Qed.

Lemma plain_ensure_instance_profile (config : DeployConfig) :
  ship_only plain (ensure_instance_profile config).
Proof. unfold ensure_instance_profile, attach_role, create_profile. plainly. Qed.

Lemma plain_create_app_bundle : ship_only plain create_app_bundle.
Proof. unfold create_app_bundle, read_ebignore, write_bundle, closing. plainly. Qed.

Lemma only_wait_for_version (fuel : nat) (app_name version : string) :
  only (fun c => negb (is_env_change c)) (wait_for_version fuel app_name version).
Proof.
  unfold wait_for_version. apply only_bind; [apply only_invoke; reflexivity|]. intros _.
  induction fuel as [|fuel IH]; [exact I|].
  cbn [wait_for_version_loop]. apply only_bind; [apply only_invoke; reflexivity|].
  intros [|v0 versions]; [exact I|].
  apply only_bind; [apply only_invoke; reflexivity|]. intros _.
  destruct (String.eqb (Status v0) "PROCESSED"); [exact I|].
  destruct (String.eqb (Status v0) "FAILED"); [exact I|].
  apply only_bind; [apply only_invoke; reflexivity|]. intros _. exact IH.
Qed.

Lemma only_create_or_update_env (config : Config) (version project_name : string) :
  only (deploys config version) (create_or_update_env config version project_name).
Proof.
  unfold create_or_update_env, preserve_env_state, restore_env_state.
  apply only_bind; [apply only_invoke; reflexivity|]. intros environments.
  apply only_bind; [apply only_invoke; reflexivity|]. intros env_settings.
  apply only_bind.
  - destruct (nonempty environments).
    + apply only_bind; [apply only_invoke; reflexivity|]. intros _.
      apply only_bind.
      * apply only_aws_handler. apply only_bind; [apply only_invoke; reflexivity|].
        intros [lb|]; [|exact I]. destruct (negb (Py.truthy lb)); [exact I|].
        apply only_bind; [apply only_invoke; reflexivity|].
        intros [hc|]; [|exact I]. destruct (negb (nonempty hc)); exact I.
      * intros state. apply only_bind; [|intros _; exact I].
        apply only_invoke. cbn. rewrite !String.eqb_refl. reflexivity.
    + apply only_bind; [apply only_invoke; reflexivity|]. intros _.
      apply only_bind; [|intros _; exact I].
      apply only_invoke. cbn. rewrite !String.eqb_refl. reflexivity.
  - intros state. apply only_bind; [apply only_invoke; reflexivity|]. intros _.
    destruct state as [state|]; [|exact I]. cbv beta iota.
    destruct (nonempty (https_config_of state)); [|exact I].
    apply only_bind; [apply only_invoke; reflexivity|]. intros _.
    apply only_invoke. reflexivity.
Qed.

Lemma run_only {W A} (Q : call -> bool) (h : handler W) (p : prog A) (w : W) :
  only Q p -> forall ev, In ev (trace (run h p w)) -> Q (call_of ev) = true.
Proof.
  revert w. induction p as [a|e|c k IH]; intros w Hp ev Hin; try destruct Hin.
  destruct Hp as [Hc Hk]. simpl in Hin. destruct (h c w) as [r w1].
  specialize (IH r w1 (Hk r) ev). destruct (run h (k r) w1) as [[res w2] tr].
  unfold trace in *. cbn [snd] in *. destruct Hin as [<-|Hin]; [exact Hc|apply IH, Hin].
Qed.

(** [wait_for_version] returns only after a poll answered PROCESSED. *)
Lemma wait_for_version_processed {W} (h : handler W) (w : W) (fuel : nat)
    (app_name version : string) :
  outcome (run h (wait_for_version fuel app_name version) w) = inr (Some tt) ->
  exists versions,
    In (Event (describe_application_versions app_name [version]) (inr versions))
       (trace (run h (wait_for_version fuel app_name version) w)) /\
    has_status "PROCESSED" versions = true.
Proof.
  unfold wait_for_version. rewrite run_bind, (run_invoke h (print _)).
  destruct (h (print _) w) as [[e|[]] w0]; cbn [fst snd]; [discriminate|].
  assert (forall w,
            outcome (run h (wait_for_version_loop fuel app_name version) w) = inr (Some tt) ->
            exists versions,
              In (Event (describe_application_versions app_name [version]) (inr versions))
                 (trace (run h (wait_for_version_loop fuel app_name version) w)) /\
              has_status "PROCESSED" versions = true) as Hloop.
  { clear w w0. induction fuel as [|fuel IH]; intros w; [discriminate|].
    cbn [wait_for_version_loop]. rewrite run_bind, run_invoke.
    destruct (h (describe_application_versions _ _) w) as [[e|versions] w1]; cbn [fst snd];
      [discriminate|].
    destruct versions as [|v0 versions]; [discriminate|].
    rewrite run_bind, (run_invoke h (print _)).
    destruct (h (print _) w1) as [[e|[]] w2]; cbn [fst snd]; [discriminate|].
    destruct (String.eqb (Status v0) "PROCESSED") eqn:Hp.
    - intros _. exists (v0 :: versions). split; [left; reflexivity|exact Hp].
    - destruct (String.eqb (Status v0) "FAILED"); [discriminate|].
      rewrite run_bind, (run_invoke h (sleep 5)).
      destruct (h (sleep 5) w2) as [[e|[]] w3]; cbn [fst snd]; [discriminate|].
      specialize (IH w3).
      destruct (run h (wait_for_version_loop fuel app_name version) w3) as [[res w4] t4].
      unfold outcome, trace in *. cbn [fst snd] in *. intros Hres.
      destruct (IH Hres) as (vs & Hin & Hs). exists vs. split; [|exact Hs].
      right. right. right. exact Hin. }
  specialize (Hloop w0).
  destruct (run h (wait_for_version_loop fuel app_name version) w0) as [[res w1] t1].
  unfold outcome, trace in *. cbn [fst snd] in *. intros Hres.
  destruct (Hloop Hres) as (vs & Hin & Hs). exists vs. split; [right; exact Hin|exact Hs].
Qed.

Section DeployOrder.
Context {W : Type} (h : ship_handler W).
Variable config : DeployConfig.

Lemma all_in_order_bind {A B} (m : ship_prog A) (f : A -> ship_prog B)
    (before : list ship_event) (w : W) :
  all_in_order config before (ship_trace (ship_run h m w)) ->
  (forall a, ship_outcome (ship_run h m w) = inr a ->
     all_in_order config (before ++ ship_trace (ship_run h m w))
       (ship_trace (ship_run h (f a) (ship_final (ship_run h m w))))) ->
  all_in_order config before (ship_trace (ship_run h (ship_bind m f) w)).
Proof.
  intros H1 H2. rewrite ship_run_bind.
  destruct (ship_run h m w) as [[[e|a] w1] t1]; unfold ship_trace, ship_outcome, ship_final in *;
    cbn [fst snd] in *; [exact H1|].
  specialize (H2 a eq_refl). destruct (ship_run h (f a) w1) as [[res w2] t2]. cbn [fst snd] in *.
  apply all_in_order_app; assumption.
Qed.

Lemma all_in_order_invoke {B} (c : ship_call) (f : ship_response c -> ship_prog B)
    (before : list ship_event) (w : W) :
  in_order config before (ShipEvent c (h c w).1) ->
  (forall x, (h c w).1 = inr x ->
     all_in_order config (before ++ [ShipEvent c (inr x)])
       (ship_trace (ship_run h (f x) (h c w).2))) ->
  all_in_order config before (ship_trace (ship_run h (ship_bind (ship_invoke c) f) w)).
Proof.
  intros H1 H2. apply all_in_order_bind.
  - rewrite ship_run_invoke. apply all_in_order_single, H1.
  - intros a. rewrite ship_run_invoke. unfold ship_outcome, ship_trace, ship_final. cbn [fst snd].
    intros Ha. rewrite Ha. apply H2, Ha.
Qed.

Lemma all_in_order_last (c : ship_call) (before : list ship_event) (w : W) :
  in_order config before (ShipEvent c (h c w).1) ->
  all_in_order config before (ship_trace (ship_run h (ship_invoke c) w)).
Proof. intros H. rewrite ship_run_invoke. apply all_in_order_single, H. Qed.

(** Lines 323-328. *)
Lemma ensure_application_in_order (before : list ship_event) (w : W) :
  all_in_order config before (ship_trace (ship_run h (ensure_application config) w)) /\
  forall ev, In ev (ship_trace (ship_run h (ensure_application config) w)) ->
             is_registration (asked ev) = false.
Proof.
  unfold ensure_application. split.
  - apply all_in_order_invoke; [exact I|]. intros applications Happ.
    destruct applications as [|a l]; cbn [nonempty negb]; [|apply all_in_order_nil].
    apply (all_in_order_last (create_application _ _)).
    cbn. split; [reflexivity|]. split; [reflexivity|].
    apply in_or_app. right. left. reflexivity.
  - rewrite ship_run_bind, ship_run_invoke.
    destruct (h (describe_applications _) w) as [[e|applications] w1]; cbn [fst snd].
    + intros ev [<-|[]]. reflexivity.
    + destruct applications as [|a l]; cbn [nonempty negb].
      * rewrite (ship_run_invoke h (create_application _ _)).
        intros ev [<-|[<-|[]]]; reflexivity.
      * intros ev [<-|[]]. reflexivity.
Qed.

(** Lines 334-342. *)
Lemma ensure_bucket_in_order (before : list ship_event) (w : W) :
  let bucket := bucket_name (aws_region config) (application_name (settings config)) in
  all_in_order config before
    (ship_trace (ship_run h (ensure_bucket (aws_region config) bucket) w)) /\
  forall ev, In ev (ship_trace (ship_run h (ensure_bucket (aws_region config) bucket) w)) ->
             is_registration (asked ev) = false.
Proof.
  cbv zeta. unfold ensure_bucket. rewrite ship_run_attempt, ship_run_invoke.
  destruct (h (head_bucket _) w) as [[e|[]] w1]; cbn [fst snd].
  - destruct e as [msg|code msg|key|].
    2:{ rewrite (ship_run_invoke h (create_bucket _ _)). unfold ship_trace. cbn [snd app]. split.
        - apply all_in_order_cons; [exact I|]. apply all_in_order_single.
          cbn. split; [reflexivity|]. split; [reflexivity|]. exists code, msg.
          apply in_or_app. right. left. reflexivity.
        - intros ev [<-|[<-|[]]]; reflexivity. }
    all: unfold ship_trace; cbn [snd app ship_run]; split;
      [apply all_in_order_single; exact I|intros ev [<-|[]]; reflexivity].
  - unfold ship_trace. cbn [snd]. split.
    + apply all_in_order_single. exact I.
    + intros ev [<-|[]]. reflexivity.
Qed.

(** Lines 344-356. *)
Lemma publish_version_in_order (before : list ship_event) (w : W) (stamp : string) :
  let app_name := application_name (settings config) in
  let bucket := bucket_name (aws_region config) app_name in
  let R := ship_run h (publish_version app_name (version_label stamp) bucket) w in
  In (ShipEvent now_stamp (inr stamp)) before ->
  (forall ev, In ev before -> is_registration (asked ev) = false) ->
  all_in_order config before (ship_trace R) /\
  (ship_outcome R = inr tt -> registered_before (ship_trace R) app_name (version_label stamp)).
Proof.
  cbv zeta. intros Hstamp Hnoreg. unfold publish_version.
  pose proof (ship_run_only plain h create_app_bundle w plain_create_app_bundle) as Hplain.
  rewrite ship_run_bind.
  destruct (ship_run h create_app_bundle w) as [[[e|bundle] w1] t1];
    unfold ship_trace, ship_outcome in *; cbn [fst snd] in *.
  { split; [apply all_in_order_plain, Hplain|discriminate]. }
  rewrite ship_run_bind, (ship_run_invoke h (upload_fileobj _ _ _)).
  destruct (h (upload_fileobj _ _ _) w1) as [[e|[]] w2]; cbn [fst snd].
  { split; [|discriminate]. apply all_in_order_app; [apply all_in_order_plain, Hplain|].
    apply all_in_order_single. exact I. }
  rewrite ship_run_bind, (ship_run_invoke h (os_remove _)).
  destruct (h (os_remove _) w2) as [[e|[]] w3]; cbn [fst snd].
  { split; [|discriminate]. apply all_in_order_app; [apply all_in_order_plain, Hplain|].
    apply all_in_order_cons; [exact I|]. apply all_in_order_single. exact I. }
  rewrite (ship_run_invoke h (create_application_version _ _ _ _ _)). cbn [fst snd app].
  split.
  - apply all_in_order_app; [apply all_in_order_plain, Hplain|].
    apply all_in_order_cons; [exact I|]. apply all_in_order_cons; [exact I|].
    apply all_in_order_single. cbn [in_order].
    split; [reflexivity|]. split; [reflexivity|]. split; [reflexivity|]. split; [reflexivity|].
    split; [|split].
    + exists stamp. split; [reflexivity|].
      apply in_or_app. left. apply in_or_app. left. apply in_or_app. left. exact Hstamp.
    + exists bundle. split.
      * apply in_or_app. left. apply in_or_app. right. left. reflexivity.
      * apply in_or_app. right. left. reflexivity.
    + intros ev Hin. apply in_app_or in Hin as [Hin|[<-|[]]]; [|reflexivity].
      apply in_app_or in Hin as [Hin|[<-|[]]]; [|reflexivity].
      apply in_app_or in Hin as [Hin|Hin]; [apply Hnoreg, Hin|].
      apply plain_not_registration, Hplain, Hin.
  - destruct (h (create_application_version _ _ _ _ _) w3) as [[e|[]] w4]; cbn [fst];
      [discriminate|]. intros _. eexists _, _. apply in_or_app. right.
    right. right. left. reflexivity.
Qed.

Lemma lifted_in_order (version : string) (before : list ship_event) (tr : list event) :
  registered_before before (application_name (settings config)) version ->
  processed_before before (application_name (settings config)) version ->
  (forall ev, In ev tr -> deploys (settings config) version (call_of ev) = true) ->
  all_in_order config before (List.map lifted tr).
Proof.
  intros (bucket & key & Hreg) (versions & Hpoll & Hproc) Hcalls pre ev post E.
  assert (In ev (List.map lifted tr)) as Hin by (rewrite E; apply in_elt).
  apply in_map_iff in Hin as ([c r] & <- & Hin). specialize (Hcalls _ Hin).
  cbn [lifted call_of in_order] in *.
  assert (registered_before (before ++ pre) (application_name (settings config)) version) as Hr
    by (exists bucket, key; apply in_or_app; left; exact Hreg).
  assert (processed_before (before ++ pre) (application_name (settings config)) version) as Hp
    by (exists versions; split; [apply in_or_app; left; exact Hpoll|exact Hproc]).
  destruct c; try exact I; cbn [deploys] in Hcalls.
  - apply andb_true_iff in Hcalls as [He Hv].
    apply String.eqb_eq in He, Hv. subst. repeat split; assumption.
  - apply andb_true_iff in Hcalls as [Hcalls Hpl]. apply andb_true_iff in Hcalls as [Hcalls Hv].
    apply andb_true_iff in Hcalls as [Ha He].
    apply String.eqb_eq in Ha, He, Hv, Hpl. subst. repeat split; assumption.
Qed.

Lemma lifted_plain {A} (p : prog A) (w : W) :
  only (fun c => negb (is_env_change c)) p ->
  forall ev, In ev (ship_trace (ship_run h (lift p) w)) -> plain (asked ev) = true.
Proof.
  intros Hp. apply ship_run_only.
  apply (ship_only_lift plain (fun c => negb (is_env_change c))); [|exact Hp].
  intros c Hc. exact Hc.
Qed.

(** Lines 314-359. *)
Lemma release_in_order (fuel : nat) (project_name : string) (before : list ship_event) (w : W) :
  (forall ev, In ev before -> is_registration (asked ev) = false) ->
  all_in_order config before
    (ship_trace (ship_run h (release fuel (aws_region config) config project_name) w)).
Proof.
  intros Hnoreg. unfold release.
  apply all_in_order_invoke; [exact I|]. intros [] _.
  apply all_in_order_bind.
  { apply all_in_order_plain, ship_run_only, plain_ensure_instance_profile. }
  intros [] _.
  set (t_profile := ship_trace (ship_run h (ensure_instance_profile config) _)).
  assert (forall ev, In ev t_profile -> is_registration (asked ev) = false) as Hprofile.
  { intros ev Hin. apply plain_not_registration.
    apply (ship_run_only plain h _ _ (plain_ensure_instance_profile config) ev Hin). }
  clearbody t_profile.
  set (w1 := ship_final _). clearbody w1.
  destruct (ensure_application_in_order
              ((before ++ [ShipEvent (manage_iam_role (service_role_name (iam config))
                                        (service_role_policies (iam config))) (inr tt)]) ++
               t_profile) w1) as [Happ Happ_noreg].
  apply all_in_order_bind; [exact Happ|]. intros [] _.
  set (t_app := ship_trace (ship_run h (ensure_application config) w1)) in *. clearbody t_app.
  set (w2 := ship_final _). clearbody w2.
  apply all_in_order_invoke; [exact I|]. intros stamp Hstamp.
  set (w3 := (h now_stamp w2).2). clearbody w3.
  set (ctx := (((before ++ _) ++ t_profile) ++ t_app) ++ [ShipEvent now_stamp (inr stamp)]).
  assert (forall ev, In ev ctx -> is_registration (asked ev) = false) as Hctx.
  { intros ev Hin. unfold ctx in Hin.
    apply in_app_or in Hin as [Hin|[<-|[]]]; [|reflexivity].
    apply in_app_or in Hin as [Hin|Hin]; [|apply Happ_noreg, Hin].
    apply in_app_or in Hin as [Hin|Hin]; [|apply Hprofile, Hin].
    apply in_app_or in Hin as [Hin|[<-|[]]]; [apply Hnoreg, Hin|reflexivity]. }
  assert (In (ShipEvent now_stamp (inr stamp)) ctx) as Hstamped
    by (apply in_or_app; right; left; reflexivity).
  clearbody ctx.
  destruct (ensure_bucket_in_order ctx w3) as [Hbucket Hbucket_noreg].
  apply all_in_order_bind; [exact Hbucket|]. intros [] _.
  set (t_bucket := ship_trace (ship_run h (ensure_bucket _ _) w3)) in *. clearbody t_bucket.
  set (w4 := ship_final _). clearbody w4.
  destruct (publish_version_in_order (ctx ++ t_bucket) w4 stamp) as [Hpub Hreg].
  { apply in_or_app. left. exact Hstamped. }
  { intros ev Hin. apply in_app_or in Hin as [Hin|Hin]; [apply Hctx, Hin|apply Hbucket_noreg, Hin]. }
  apply all_in_order_bind; [exact Hpub|]. intros [] Hpublished.
  specialize (Hreg Hpublished).
  set (t_pub := ship_trace (ship_run h (publish_version _ _ _) w4)) in *. clearbody t_pub.
  set (w5 := ship_final _). clearbody w5.
  apply all_in_order_bind.
  { apply all_in_order_plain, lifted_plain, only_wait_for_version. }
  intros processed Hwait.
  destruct processed as [[]|]; [|apply all_in_order_nil].
  rewrite ship_run_lift in Hwait |- *.
  pose proof (wait_for_version_processed (fun c => h (on_platform c)) w5 fuel
                (application_name (settings config)) (version_label stamp)) as Hproc.
  destruct (run (fun c => h (on_platform c))
              (wait_for_version fuel (application_name (settings config)) (version_label stamp))
              w5) as [[res w6] t_wait].
  unfold ship_outcome, ship_trace, ship_final, outcome, trace in *. cbn [fst snd] in *.
  destruct (Hproc Hwait) as (versions & Hpoll & Hstatus).
  apply all_in_order_bind; [|intros [] _; apply all_in_order_nil].
  rewrite ship_run_lift.
  pose proof (run_only (deploys (settings config) (version_label stamp))
                (fun c => h (on_platform c)) _ w6
                (only_create_or_update_env (settings config) (version_label stamp) project_name))
    as Hcalls.
  destruct (run (fun c => h (on_platform c)) (create_or_update_env _ _ _) w6)
    as [[res' w7] t_env].
  unfold ship_trace, trace in *. cbn [fst snd] in *.
  apply (lifted_in_order (version_label stamp)); [| |exact Hcalls].
  - destruct Hreg as (bucket & key & Hin). exists bucket, key.
    apply in_or_app. left. apply in_or_app. right. exact Hin.
  - exists versions. split; [|exact Hstatus]. apply in_or_app. right.
    apply (in_map lifted) in Hpoll. exact Hpoll.
Qed.
End DeployOrder.

Lemma create_eb_cli_config_keeps {W} (h : ship_handler W) (w : W) (config config' : DeployConfig)
    (project_root : Path) :
  ship_outcome (ship_run h (create_eb_cli_config config project_root) w) = inr config' ->
  settings config' = settings config /\ aws_region config' = aws_region config /\
  application_description config' = application_description config.
Proof.
  intros Hok.
  destruct (create_eb_cli_config_run h w config config' project_root Hok) as (document & _ & H).
  destruct (elasticbeanstalk_cli config) as [eb_config|].
  - destruct (cli_global eb_config) as [g|].
    + destruct (holds_placeholder (g !! "default_platform")).
      * destruct H as (name & _ & _ & ->). repeat split; reflexivity.
      * destruct H as (_ & _ & ->). repeat split; reflexivity.
    + destruct H as (_ & _ & ->). repeat split; reflexivity.
  - destruct H as (name & _ & _ & ->). repeat split; reflexivity.
Qed.

Lemma in_order_same (config config' : DeployConfig) (pre : list ship_event) (ev : ship_event) :
  settings config' = settings config -> aws_region config' = aws_region config ->
  application_description config' = application_description config ->
  in_order config' pre ev -> in_order config pre ev.
Proof. unfold in_order. intros -> -> ->. exact (fun H => H). Qed.

(** Every call of a deployment is in order. *)
Lemma deploy_application_in_order {W} (h : ship_handler W) (w : W) (fuel : nat)
    (config : DeployConfig) :
  all_in_order config [] (ship_trace (ship_run h (deploy_application fuel config) w)).
Proof.
  unfold deploy_application.
  apply all_in_order_invoke; [exact I|]. intros project_name _.
  apply all_in_order_invoke; [exact I|]. intros project_root _.
  apply all_in_order_invoke; [exact I|]. intros [] _.
  apply all_in_order_invoke; [exact I|]. intros [] _.
  apply all_in_order_invoke; [exact I|]. intros [] _.
  apply all_in_order_bind.
  { apply all_in_order_plain, ship_run_only, plain_create_eb_cli_config. }
  intros config' Hcfg.
  destruct (create_eb_cli_config_keeps _ _ _ _ _ Hcfg) as (Hs & Hr & Hd).
  set (t_cli := ship_trace (ship_run h (create_eb_cli_config config project_root) _)).
  assert (forall ev, In ev t_cli -> is_registration (asked ev) = false) as Hcli.
  { intros ev Hin. apply plain_not_registration.
    apply (ship_run_only plain h _ _ (plain_create_eb_cli_config config project_root) ev Hin). }
  clearbody t_cli. set (w1 := ship_final _). clearbody w1.
  rewrite <- Hr. intros pre ev post E.
  apply (in_order_same config config' _ _ Hs Hr Hd).
  revert pre ev post E. apply release_in_order.
  intros ev Hin. apply in_app_or in Hin as [Hin|Hin]; [|apply Hcli, Hin].
  cbn in Hin. repeat destruct Hin as [<-|Hin]; try reflexivity. destruct Hin.
Qed.


(** X20: in every run of [deploy_application], a call that updates or creates
    the environment names the environment of the configuration (and, when it
    creates it, the application and the platform), and comes only after the
    version it deploys was registered with success and reported as
    PROCESSED by a poll of [wait_for_version]. *)
Theorem deploy_application_environment {W} (h : ship_handler W) (w : W) (fuel : nat)
    (config : DeployConfig) (pre post : list ship_event) (c : call) (r : exn + response c) :
  ship_trace (ship_run h (deploy_application fuel config) w) =
    pre ++ ShipEvent (on_platform c) r :: post ->
  is_env_change c = true ->
  exists version option_settings,
    (c = update_environment (application_environment (settings config)) version option_settings \/
     c = create_environment (application_name (settings config))
           (application_environment (settings config)) version
           (aws_platform (settings config)) option_settings) /\
    registered_before pre (application_name (settings config)) version /\
    processed_before pre (application_name (settings config)) version.
Proof.
  intros E Hc. pose proof (deploy_application_in_order h w fuel config _ _ _ E) as H.
  cbn [app] in H. destruct c; try discriminate Hc; cbn [in_order] in H.
  - destruct H as (-> & Hreg & Hproc). eexists _, _. split; [left; reflexivity|].
    split; assumption.
  - destruct H as (-> & -> & -> & Hreg & Hproc). eexists _, _. split; [right; reflexivity|].
    split; assumption.
Qed.

(** X21: in every run of [deploy_application], the application is created
    only after [describe_applications] answered that there is none, with the
    description of the configuration or the default one; the bucket is
    created only after [head_bucket] raised a [ClientError] (of whatever
    code), under the name derived from the region and the application, with a
    location constraint exactly when the region is not [us-east-1]. *)
Theorem deploy_application_creates {W} (h : ship_handler W) (w : W) (fuel : nat)
    (config : DeployConfig) :
  let tr := ship_trace (ship_run h (deploy_application fuel config) w) in
  let app_name := application_name (settings config) in
  let region := aws_region config in
  (forall pre post a d r,
     tr = pre ++ ShipEvent (create_application a d) r :: post ->
     a = app_name /\
     d = default "Application created by deployment script" (application_description config) /\
     In (ShipEvent (describe_applications [app_name]) (inr [])) pre) /\
  (forall pre post b location r,
     tr = pre ++ ShipEvent (create_bucket b location) r :: post ->
     b = bucket_name region app_name /\
     (location = None <-> region = "us-east-1") /\
     (forall constraint, location = Some constraint -> constraint = region) /\
     exists code msg, In (ShipEvent (head_bucket b) (inl (ClientError code msg))) pre).
Proof.
  cbv zeta. split.
  - intros pre post a d r E.
    exact (deploy_application_in_order h w fuel config _ _ _ E).
  - intros pre post b location r E.
    pose proof (deploy_application_in_order h w fuel config _ _ _ E) as H.
    cbn [app in_order] in H. destruct H as (-> & -> & Hhead).
    split; [reflexivity|]. split; [|split; [|exact Hhead]].
    + destruct (String.eqb (aws_region config) "us-east-1") eqn:Hr; cbn [negb].
      * apply String.eqb_eq in Hr. tauto.
      * apply String.eqb_neq in Hr. split; [discriminate|contradiction].
    + destruct (negb _); [intros ? [= <-]; reflexivity|discriminate].
Qed.


Lemma deploy_application_environment_witness :
  exists version option_settings,
    (create_environment "shop" "prod" "v20240101_120000"
       "64bit Amazon Linux 2023 v4.0.0 running Docker"
       [load_balancer_type_setting Sample.config] =
     update_environment (application_environment (settings sample_deploy)) version
       option_settings \/
     create_environment "shop" "prod" "v20240101_120000"
       "64bit Amazon Linux 2023 v4.0.0 running Docker"
       [load_balancer_type_setting Sample.config] =
     create_environment (application_name (settings sample_deploy))
       (application_environment (settings sample_deploy)) version
       (aws_platform (settings sample_deploy)) option_settings) /\
    registered_before (firstn 36 sample_run) (application_name (settings sample_deploy)) version /\
    processed_before (firstn 36 sample_run) (application_name (settings sample_deploy)) version.
Proof.
  apply (deploy_application_environment fresh_account tt 3 sample_deploy
           (firstn 36 sample_run) (skipn 37 sample_run)
           (create_environment "shop" "prod" "v20240101_120000"
              "64bit Amazon Linux 2023 v4.0.0 running Docker"
              [load_balancer_type_setting Sample.config]) (inr tt)).
  - vm_compute. reflexivity.
  - reflexivity.
Defined.
